(** * TraceMap security scanner: a shallow embedding and its properties

    The development follows [src/securityScanner.ts] (the rule catalog, the
    match locator, the comment filter, the file scanner and the workspace
    orchestrator) and [calculateRiskLevel] of the report generator.

    JavaScript strings are sequences of UTF-16 code units; a code unit is a
    value of [N].  JavaScript numbers that hold indices, lengths and counts
    are integers here ([Z], with [-1] for "not found" exactly as the
    built-ins return it). *)

From Stdlib Require Import QArith.
From Stdlib Require Import List ZArith NArith Lia Bool String Ascii Permutation Sorted.
Import ListNotations.

Close Scope Q_scope.

Set Implicit Arguments.

(* ================================================================== *)
(** ** JavaScript strings and the built-ins the scanner calls *)

Module JS.

Definition jsstring := list N.

(** A literal of the source text, one code unit per character. *)
Fixpoint str (s : string) : jsstring :=
  match s with
  | EmptyString => []
  | String a s' => N_of_ascii a :: str s'
  end.

(** Clamp an integer argument into [0, len], as [substring] does. *)
Definition clamp (len : nat) (i : Z) : nat := Nat.min (Z.to_nat i) len.

(** [String.prototype.substring(start, end)]: both ends are clamped into
    the string and swapped when out of order. *)
Definition substring (s : jsstring) (start finish : Z) : jsstring :=
  let a := clamp (List.length s) start in
  let b := clamp (List.length s) finish in
  let from := Nat.min a b in
  let to := Nat.max a b in
  firstn (to - from) (skipn from s).

Fixpoint isPrefixOf (p s : jsstring) : bool :=
  match p, s with
  | [], _ => true
  | _ :: _, [] => false
  | a :: p', b :: s' => N.eqb a b && isPrefixOf p' s'
  end.

(** [needle] occurs in [s] at the (0-based) index [i]. *)
Definition occurs_at (needle s : jsstring) (i : nat) : Prop :=
  isPrefixOf needle (skipn i s) = true /\ (i + List.length needle <= List.length s)%nat.

Fixpoint indexOf_from (s needle : jsstring) (i : Z) : Z :=
  if isPrefixOf needle s then i
  else match s with
       | [] => (-1)%Z
       | _ :: s' => indexOf_from s' needle (i + 1)%Z
       end.

(** [String.prototype.indexOf(needle)]: least index of an occurrence, or -1. *)
Definition indexOf (s needle : jsstring) : Z := indexOf_from s needle 0%Z.

Fixpoint lastIndexOf_from (s needle : jsstring) (i : Z) : Z :=
  match s with
  | [] => if isPrefixOf needle [] then i else (-1)%Z
  | _ :: s' =>
      let r := lastIndexOf_from s' needle (i + 1)%Z in
      if (0 <=? r)%Z then r
      else if isPrefixOf needle s then i else (-1)%Z
  end.

(** [String.prototype.lastIndexOf(needle)]: greatest index of an
    occurrence, or -1. *)
Definition lastIndexOf (s needle : jsstring) : Z := lastIndexOf_from s needle 0%Z.

(** [String.prototype.split(sep)] for a separator of one code unit, the
    only use the scanner makes of it ([split('\n')]). *)
Fixpoint split (s : jsstring) (sep : N) : list jsstring :=
  match s with
  | [] => [[]]
  | c :: s' =>
      if N.eqb c sep then [] :: split s' sep
      else match split s' sep with
           | [] => [[c]]
           | l :: ls => (c :: l) :: ls
           end
  end.

(** WhiteSpace and LineTerminator code points of ECMAScript: what [trim]
    strips and what [\s] matches. *)
Definition isWhiteSpace (c : N) : bool :=
  ((9 <=? c) && (c <=? 13) || (c =? 32) || (c =? 160) || (c =? 5760)
   || (8192 <=? c) && (c <=? 8202) || (c =? 8232) || (c =? 8233)
   || (c =? 8239) || (c =? 8287) || (c =? 12288) || (c =? 65279))%N.

Fixpoint trimStart (s : jsstring) : jsstring :=
  match s with
  | [] => []
  | c :: s' => if isWhiteSpace c then trimStart s' else s
  end.

Definition trimEnd (s : jsstring) : jsstring := rev (trimStart (rev s)).

(** [String.prototype.trim()]. *)
Definition trim (s : jsstring) : jsstring := trimEnd (trimStart s).

(** The line feed, ['\n']. *)
Definition LF : N := 10%N.

End JS.

Import JS.

(* ================================================================== *)
(** ** Regular expressions

    The fragment of ECMAScript patterns the rule catalog is written in,
    with the backtracking semantics of the language specification: a
    matcher takes the position reached and a continuation, and returns the
    end index of the first successful path.  Capture groups are not
    recorded: no rule has a back-reference and the scanner reads only the
    index of a match. *)

Module RegExp.

Inductive ClassAtom : Type :=
| CChar (c : N)            (* a single character *)
| CRange (lo hi : N)       (* lo-hi *)
| CSpace                   (* \s *)
| CNonSpace                (* \S *)
| CWord.                   (* \w *)

Inductive regex : Type :=
| Empty
| Char (c : N)
| Class (negated : bool) (atoms : list ClassAtom)
| Seq (r1 r2 : regex)
| Alt (r1 r2 : regex)
| Quant (min : nat) (max : option nat) (greedy : bool) (r : regex)
| Group (r : regex)
| NegLookahead (r : regex)
| WordBoundary.

Definition isAsciiLower (c : N) : bool := ((97 <=? c) && (c <=? 122))%N.
Definition isAsciiUpper (c : N) : bool := ((65 <=? c) && (c <=? 90))%N.
Definition isDigit (c : N) : bool := ((48 <=? c) && (c <=? 57))%N.

(** Canonicalize of the language specification without the unicode flag:
    the upper-case mapping.  On ASCII it is exact.  A code unit of 128 or
    more is never mapped below 128 by the specification; it is left as it
    is here, which gives the same comparisons against the catalog's
    patterns, all written in ASCII. *)
Definition canonicalize (ignoreCase : bool) (c : N) : N :=
  if ignoreCase && isAsciiLower c then (c - 32)%N else c.

(** The characters with the same canonical form as [c]. *)
Definition caseVariants (ignoreCase : bool) (c : N) : list N :=
  if ignoreCase then
    if isAsciiLower c then [c; (c - 32)%N]
    else if isAsciiUpper c then [c; (c + 32)%N]
    else [c]
  else [c].

(** WordCharacters: [A-Za-z0-9_]. *)
Definition isWordCharacter (c : N) : bool :=
  isAsciiLower c || isAsciiUpper c || isDigit c || (c =? 95)%N.

Definition atomContains (a : ClassAtom) (c : N) : bool :=
  match a with
  | CChar x => (c =? x)%N
  | CRange lo hi => ((lo <=? c) && (c <=? hi))%N
  | CSpace => isWhiteSpace c
  | CNonSpace => negb (isWhiteSpace c)
  | CWord => isWordCharacter c
  end.

(** CharacterSetMatcher: some member of the set has the canonical form of
    the input character. *)
Definition classContains (ignoreCase : bool) (atoms : list ClassAtom) (c : N) : bool :=
  existsb (fun a => existsb (atomContains a) (caseVariants ignoreCase c)) atoms.

Definition continuation := nat -> option nat.
Definition matcher := nat -> continuation -> option nat.

(** RepeatMatcher.  An iteration that has met its minimum and consumes
    nothing is rejected, so every further iteration moves the position
    forward; [fuel] counts the nested iterations, at most
    [min + (length input - x) + 1] of them (more fuel gives the same
    answer: [RegExpFacts.Quant_enough_fuel]). *)
Fixpoint RepeatMatcher (fuel : nat) (m : matcher) (min : nat) (max : option nat)
         (greedy : bool) (x : nat) (c : continuation) : option nat :=
  match fuel with
  | O => None
  | S fuel' =>
      match max with
      | Some O => c x
      | _ =>
          let d : continuation := fun y =>
            if (min =? 0)%nat && (y =? x)%nat then None
            else RepeatMatcher fuel' m (pred min) (option_map pred max) greedy y c in
          if negb (min =? 0)%nat then m x d
          else if negb greedy then
            match c x with
            | Some z => Some z
            | None => m x d
            end
          else
            match m x d with
            | Some z => Some z
            | None => c x
            end
      end
  end.

Section Matcher.

Variable input : jsstring.
Variable ignoreCase : bool.

(** IsWordChar(e) for e = x - 1 and e = x. *)
Definition isWordCharAt (x : nat) : bool :=
  match nth_error input x with
  | Some c => isWordCharacter c
  | None => false
  end.

Definition isWordCharBefore (x : nat) : bool :=
  match x with
  | O => false
  | S p => isWordCharAt p
  end.

Fixpoint compile (r : regex) : matcher :=
  match r with
  | Empty => fun x c => c x
  | Char ch => fun x c =>
      match nth_error input x with
      | Some a =>
          if (canonicalize ignoreCase a =? canonicalize ignoreCase ch)%N
          then c (S x) else None
      | None => None
      end
  | Class negated atoms => fun x c =>
      match nth_error input x with
      | Some a =>
          if xorb negated (classContains ignoreCase atoms a)
          then c (S x) else None
      | None => None
      end
  | Seq r1 r2 => fun x c => compile r1 x (fun y => compile r2 y c)
  | Alt r1 r2 => fun x c =>
      match compile r1 x c with
      | Some z => Some z
      | None => compile r2 x c
      end
  | Quant min max greedy r' => fun x c =>
      RepeatMatcher (min + (List.length input - x) + 1) (compile r') min max greedy x c
  | Group r' => compile r'
  | NegLookahead r' => fun x c =>
      match compile r' x (fun y => Some y) with
      | Some _ => None
      | None => c x
      end
  | WordBoundary => fun x c =>
      if xorb (isWordCharBefore x) (isWordCharAt x) then c x else None
  end.

(** One attempt at the index [i]: the end index of the match, if any. *)
Definition matchAt (r : regex) (i : nat) : option nat :=
  compile r i (fun y => Some y).

(** The first index of [candidates] at which the pattern matches. *)
Fixpoint firstMatch (r : regex) (candidates : list nat) : option (nat * nat) :=
  match candidates with
  | [] => None
  | i :: rest =>
      match matchAt r i with
      | Some e => Some (i, e)
      | None => firstMatch r rest
      end
  end.

End Matcher.

(** A RegExp object: its pattern, its flags, and the mutable [lastIndex]. *)
Record t : Type := mk {
  source : regex;
  global : bool;
  ignoreCase : bool;
  lastIndex : Z
}.

Definition setLastIndex (R : t) (i : Z) : t :=
  mk (source R) (global R) (ignoreCase R) i.

(** The match object, of which the scanner reads [index] only. *)
Record MatchResult : Type := mkMatch {
  index : Z;
  endIndex : Z
}.

(** [RegExp.prototype.exec] (RegExpBuiltinExec) without the sticky flag:
    the search starts at [lastIndex] when the global flag is set and at 0
    otherwise, tries each index up to the length of the string, and on a
    global RegExp leaves [lastIndex] at the end of the match, or at 0 when
    there is none. *)
Definition exec (R : t) (S : jsstring) : option MatchResult * t :=
  let len := List.length S in
  let start := if global R then Z.to_nat (lastIndex R) else O in
  match firstMatch S (ignoreCase R) (source R) (seq start (len + 1 - start)) with
  | Some (i, e) =>
      (Some (mkMatch (Z.of_nat i) (Z.of_nat e)),
       if global R then setLastIndex R (Z.of_nat e) else R)
  | None =>
      (None, if global R then setLastIndex R 0%Z else R)
  end.

(** *** Building patterns *)

Fixpoint lit_units (s : jsstring) : regex :=
  match s with
  | [] => Empty
  | [c] => Char c
  | c :: s' => Seq (Char c) (lit_units s')
  end.

(** A run of literal characters. *)
Definition lit (s : string) : regex := lit_units (str s).

Fixpoint seqs (rs : list regex) : regex :=
  match rs with
  | [] => Empty
  | [r] => r
  | r :: rs' => Seq r (seqs rs')
  end.

Fixpoint alts (rs : list regex) : regex :=
  match rs with
  | [] => Empty
  | [r] => r
  | r :: rs' => Alt r (alts rs')
  end.

Definition star (r : regex) : regex := Quant 0 None true r.          (* r*  *)
Definition lazyStar (r : regex) : regex := Quant 0 None false r.     (* r*? *)
Definition plus (r : regex) : regex := Quant 1 None true r.          (* r+  *)
Definition opt (r : regex) : regex := Quant 0 (Some 1%nat) true r.   (* r?  *)
Definition atLeast (n : nat) (r : regex) : regex := Quant n None true r.      (* r{n,} *)
Definition exactly (n : nat) (r : regex) : regex := Quant n (Some n) true r.  (* r{n}  *)

Definition oneOf (s : jsstring) : regex := Class false (map CChar s).

Definition APOS : N := 39%N.   (* the apostrophe *)
Definition QUOT : N := 34%N.   (* the double quote *)
Definition BTICK : N := 96%N.  (* the backtick *)

Definition ws : regex := Class false [CSpace].                 (* \s *)
Definition quote : regex := oneOf [APOS; QUOT].              (* either quote, as a class *)

End RegExp.

(* ================================================================== *)
(** ** The data model of [src/types.ts] *)

Inductive SecurityVulnerabilityType : Type :=
| hardcoded_secret
| sql_injection
| xss_vulnerability
| command_injection
| path_traversal
| insecure_random
| weak_crypto
| unsafe_eval
| prototype_pollution
| xxe_vulnerability
| open_redirect
| insecure_deserialization
| sensitive_data_exposure
| cors_misconfiguration
| csrf_vulnerability
| information_disclosure.

Module Severity.
Inductive t : Type := critical | high | medium | low.

Definition eqb (a b : t) : bool :=
  match a, b with
  | critical, critical | high, high | medium, medium | low, low => true
  | _, _ => false
  end.
End Severity.

Module Confidence.
Inductive t : Type := high | medium | low.
End Confidence.

(** [interface VulnerabilityPattern]: a rule of the catalog.  Its RegExp
    object is shared by every scan and carries [lastIndex]. *)
Module VulnerabilityPattern.
Record t : Type := mk {
  type : SecurityVulnerabilityType;
  severity : Severity.t;
  pattern : RegExp.t;
  message : jsstring;
  description : jsstring;
  recommendation : jsstring;
  cweId : option jsstring;
  owaspCategory : option jsstring;
  confidence : Confidence.t
}.

Definition setPattern (p : t) (re : RegExp.t) : t :=
  mk (type p) (severity p) re (message p) (description p) (recommendation p)
     (cweId p) (owaspCategory p) (confidence p).
End VulnerabilityPattern.

(** [Omit<SecurityIssue, 'filePath' | 'relativePath'>]: what the match
    locator builds for one match. *)
Module IssueMatch.
Record t : Type := mk {
  type : SecurityVulnerabilityType;
  severity : Severity.t;
  line : Z;
  column : Z;
  code : jsstring;
  message : jsstring;
  description : jsstring;
  recommendation : jsstring;
  cweId : option jsstring;
  owaspCategory : option jsstring;
  confidence : Confidence.t
}.
End IssueMatch.

(** [interface SecurityIssue]: the fields of the match, spread, with the
    two paths of the file. *)
Module SecurityIssue.
Record t : Type := mk {
  located : IssueMatch.t;
  filePath : jsstring;
  relativePath : jsstring
}.

Definition type (i : t) := IssueMatch.type (located i).
Definition severity (i : t) := IssueMatch.severity (located i).
Definition line (i : t) := IssueMatch.line (located i).
Definition column (i : t) := IssueMatch.column (located i).
Definition code (i : t) := IssueMatch.code (located i).
Definition cweId (i : t) := IssueMatch.cweId (located i).
Definition confidence (i : t) := IssueMatch.confidence (located i).
End SecurityIssue.

(** [interface SecurityScanResult].  The two time fields hold readings of
    the clock, in an integer unit of time. *)
Module SecurityScanResult.
Record t : Type := mk {
  issues : list SecurityIssue.t;
  filesScanned : Z;
  totalIssues : Z;
  criticalCount : Z;
  highCount : Z;
  mediumCount : Z;
  lowCount : Z;
  scanDuration : Z;
  timestamp : Z
}.
End SecurityScanResult.

(* ================================================================== *)
(** ** The rule catalog: [initializePatterns] *)

Module Catalog.
Import RegExp.

Definition g (r : regex) : RegExp.t := RegExp.mk r true false 0.
Definition gi (r : regex) : RegExp.t := RegExp.mk r true true 0.

Definition dot : regex := Char 46.          (* an escaped dot *)
Definition lparen : regex := Char 40.
Definition rparen : regex := Char 41.
Definition lbrace : regex := Char 123.
Definition rbrace : regex := Char 125.
Definition lbrack : regex := Char 91.
Definition rbrack : regex := Char 93.

(** [req\.(?:body|query|params)] *)
Definition reqField (obj : string) : regex :=
  seqs [lit obj; dot; Group (alts [lit "body"; lit "query"; lit "params"])].

(** [req\.(?:body|query|params)|input|userInput] *)
Definition userSource : list regex :=
  [reqField "req"; lit "input"; lit "userInput"].

(** [x[_-]?y] *)
Definition joined (x y : string) : regex :=
  seqs [lit x; opt (oneOf (str "_-")); lit y].

(** Line 34. *)
Definition secretAssignment : regex :=
  seqs [
    Group (alts [lit "password"; lit "passwd"; lit "pwd"; lit "secret"; lit "token";
                 joined "api" "key"; lit "apikey"; joined "access" "key";
                 joined "private" "key"; joined "client" "secret"; joined "auth" "token"]);
    star ws; oneOf (str "=:"); star ws; quote;
    Group (seqs [
      NegLookahead (Group (alts [
        seqs [lit "process"; dot; lit "env"];
        seqs [lit "config"; dot];
        seqs [lit "CONFIG"; dot];
        seqs [lit "import"; dot];
        seqs [lit "require"; lparen];
        lit "<%=";
        lit "{{";
        lit "%{"]));
      atLeast 8 (Class true [CChar APOS; CChar QUOT; CChar LF])]);
    quote].

(** Line 45. *)
Definition awsCredentials : regex :=
  Group (alts [lit "aws_access_key_id"; lit "aws_secret_access_key";
               seqs [lit "AKIA"; exactly 16 (Class false [CRange 48 57; CRange 65 90])]]).

(** Line 58. *)
Definition sqlConcatenation : regex :=
  seqs [
    Group (alts [lit "execute"; lit "query"; lit "exec"; lit "executeSql"; lit "rawQuery"]);
    star ws; lparen; star ws; opt (oneOf [BTICK; APOS; QUOT]); star ws;
    Group (alts [lit "SELECT"; lit "INSERT"; lit "UPDATE"; lit "DELETE"; lit "DROP"; lit "CREATE"]);
    lazyStar (Class false [CSpace; CNonSpace]);
    Char 43; star ws;
    Group (alts [plus (Class false [CWord]); reqField "req"])].

(** Line 69. *)
Definition sqlTemplate : regex :=
  seqs [
    Char 36; lbrace; star (Class true [CChar 125]);
    Group (alts [reqField "req"; reqField "request"; lit "input"; lit "userInput"]);
    star (Class true [CChar 125]); rbrace].

(** Line 82. *)
Definition innerHTMLAssignment : regex :=
  seqs [dot; lit "innerHTML"; star ws; Char 61; star ws;
        NegLookahead (seqs [star ws; Class false [CChar APOS; CChar QUOT; CChar QUOT]])].

(** Line 93. *)
Definition dangerouslySet : regex :=
  seqs [lit "dangerouslySetInnerHTML"; star ws; Char 61; star ws; lbrace; star ws;
        opt lbrace; star ws; lit "__html:"].

(** Line 106. *)
Definition commandInjection : regex :=
  seqs [
    Group (alts [lit "exec"; lit "execSync"; lit "spawn"; lit "execFile"; lit "child_process"]);
    star ws; lparen; star (Class true [CChar 41]);
    Group (alts [Char 43; Char BTICK; seqs [Char 36; lbrace]]);
    star (Class true [CChar 41]);
    Group (alts userSource)].

(** Line 119. *)
Definition pathTraversal : regex :=
  seqs [
    Group (alts [lit "readFile"; lit "readFileSync"; lit "writeFile"; lit "writeFileSync";
                 lit "createReadStream"; lit "createWriteStream"]);
    star ws; lparen; star (Class true [CChar 41]);
    Group (alts userSource);
    Group (alts [dot; Char 43; lbrack])].

(** Line 132. *)
Definition evalCall : regex :=
  seqs [WordBoundary; lit "eval"; star ws; lparen].

(** Line 143. *)
Definition functionConstructor : regex :=
  seqs [lit "new"; plus ws; lit "Function"; star ws; lparen].

(** Line 156. *)
Definition mathRandom : regex :=
  seqs [lit "Math"; dot; lit "random"; star ws; lparen; rparen].

(** Line 169. *)
Definition weakCrypto : regex :=
  alts [
    lit "createCipher";
    lit "createDecipher";
    seqs [lit "createHash"; star ws; lparen; star ws; quote; lit "md5"; quote];
    seqs [lit "createHash"; star ws; lparen; star ws; quote; lit "sha1"; quote]].

(** Line 182. *)
Definition prototypePollution : regex :=
  alts [
    seqs [Group (alts [lit "Object"; lit "obj"; plus (Class false [CWord])]);
          lbrack; quote; lit "__proto__"; quote; rbrack];
    seqs [lbrack; quote; lit "constructor"; quote; rbrack;
          lbrack; quote; lit "prototype"; quote; rbrack]].

(** Line 195. *)
Definition openRedirect : regex :=
  seqs [
    Group (alts [seqs [lit "window"; dot; lit "location"];
                 seqs [lit "location"; dot; lit "href"];
                 seqs [lit "location"; dot; lit "replace"]]);
    star ws; Char 61; star ws;
    Group (alts userSource)].

(** Line 208. *)
Definition consoleLogSecret : regex :=
  seqs [
    lit "console"; dot; lit "log"; star ws; lparen; star (Class true [CChar 41]);
    Group (alts [lit "password"; lit "token"; lit "secret"; lit "creditCard";
                 lit "ssn"; lit "apiKey"])].

(** Line 221. *)
Definition corsWildcard : regex :=
  seqs [
    quote; lit "Access-Control-Allow-Origin"; quote; star ws;
    opt (oneOf (str ",:")); star ws; opt quote; Char 42; opt quote].

(** Line 234. *)
Definition stackTrace : regex :=
  seqs [dot; lit "stack"; star ws; rparen].

Definition rule (ty : SecurityVulnerabilityType) (sev : Severity.t) (re : RegExp.t)
           (msg desc rec : string) (cwe owasp : string) (conf : Confidence.t)
  : VulnerabilityPattern.t :=
  VulnerabilityPattern.mk ty sev re (str msg) (str desc) (str rec)
    (Some (str cwe)) (Some (str owasp)) conf.

Definition initializePatterns : list VulnerabilityPattern.t := [
  rule hardcoded_secret Severity.critical (gi secretAssignment)
    "Hardcoded secret detected"
    "Sensitive credentials found directly in source code"
    "Use environment variables or a secure secret management system"
    "CWE-798" "A02:2021 - Cryptographic Failures" Confidence.high;
  rule hardcoded_secret Severity.critical (gi awsCredentials)
    "AWS credentials hardcoded"
    "AWS access keys found in source code"
    "Use AWS IAM roles or AWS Secrets Manager"
    "CWE-798" "A02:2021 - Cryptographic Failures" Confidence.high;
  rule sql_injection Severity.critical (gi sqlConcatenation)
    "SQL injection vulnerability"
    "SQL query constructed using string concatenation with user input"
    "Use parameterized queries or prepared statements"
    "CWE-89" "A03:2021 - Injection" Confidence.high;
  rule sql_injection Severity.critical (g sqlTemplate)
    "Potential SQL injection via template literals"
    "SQL query uses template literals with user input"
    "Use parameterized queries instead of template literals"
    "CWE-89" "A03:2021 - Injection" Confidence.medium;
  rule xss_vulnerability Severity.high (g innerHTMLAssignment)
    "XSS vulnerability via innerHTML"
    "Setting innerHTML with potentially unsafe content"
    "Use textContent or sanitize HTML with DOMPurify"
    "CWE-79" "A03:2021 - Injection" Confidence.medium;
  rule xss_vulnerability Severity.high (g dangerouslySet)
    "React XSS vulnerability"
    "Using dangerouslySetInnerHTML without sanitization"
    "Sanitize HTML content or use safer alternatives"
    "CWE-79" "A03:2021 - Injection" Confidence.medium;
  rule command_injection Severity.critical (gi commandInjection)
    "Command injection vulnerability"
    "Executing system commands with unsanitized user input"
    "Avoid executing user input; use allowlists or safer alternatives"
    "CWE-78" "A03:2021 - Injection" Confidence.high;
  rule path_traversal Severity.high (gi pathTraversal)
    "Path traversal vulnerability"
    "File operations with unsanitized user-provided paths"
    "Validate and sanitize file paths; use allowlists"
    "CWE-22" "A01:2021 - Broken Access Control" Confidence.high;
  rule unsafe_eval Severity.critical (g evalCall)
    "Unsafe use of eval()"
    "eval() can execute arbitrary code and is extremely dangerous"
    "Remove eval() and use safer alternatives like JSON.parse()"
    "CWE-95" "A03:2021 - Injection" Confidence.high;
  rule unsafe_eval Severity.critical (g functionConstructor)
    "Unsafe use of Function constructor"
    "Function constructor can execute arbitrary code like eval()"
    "Avoid dynamic code execution; use predefined functions"
    "CWE-95" "A03:2021 - Injection" Confidence.high;
  rule insecure_random Severity.medium (g mathRandom)
    "Insecure random number generation"
    "Math.random() is not cryptographically secure"
    "Use crypto.randomBytes() for security-sensitive operations"
    "CWE-330" "A02:2021 - Cryptographic Failures" Confidence.medium;
  rule weak_crypto Severity.high (gi weakCrypto)
    "Weak cryptographic algorithm"
    "Using deprecated or weak cryptographic methods (MD5, SHA1, DES)"
    "Use strong algorithms: AES-256-GCM, SHA-256, or better"
    "CWE-327" "A02:2021 - Cryptographic Failures" Confidence.high;
  rule prototype_pollution Severity.high (g prototypePollution)
    "Potential prototype pollution"
    "Modifying __proto__ or constructor.prototype can lead to security issues"
    "Avoid dynamic property access on objects; use Object.create(null)"
    "CWE-1321" "A08:2021 - Software and Data Integrity Failures" Confidence.high;
  rule open_redirect Severity.medium (gi openRedirect)
    "Open redirect vulnerability"
    "Redirecting to user-controlled URLs without validation"
    "Validate redirect URLs against an allowlist"
    "CWE-601" "A01:2021 - Broken Access Control" Confidence.medium;
  rule sensitive_data_exposure Severity.high (gi consoleLogSecret)
    "Sensitive data in console logs"
    "Logging sensitive information to console"
    "Remove sensitive data from logs or use secure logging"
    "CWE-532" "A04:2021 - Insecure Design" Confidence.high;
  rule cors_misconfiguration Severity.medium (gi corsWildcard)
    "Insecure CORS configuration"
    "CORS configured to allow all origins (*)"
    "Specify allowed origins explicitly; avoid wildcard"
    "CWE-942" "A05:2021 - Security Misconfiguration" Confidence.high;
  rule information_disclosure Severity.low (g stackTrace)
    "Stack trace exposure"
    "Exposing error stack traces can reveal sensitive information"
    "Log stack traces internally; show generic errors to users"
    "CWE-209" "A05:2021 - Security Misconfiguration" Confidence.low
].

End Catalog.

(* ================================================================== *)
(** ** The scanner: [class SecurityScanner] *)

(** How a call that may throw ends. *)
Inductive outcome (A : Type) : Type :=
| Returned (a : A)
| Thrown (error : jsstring).
Arguments Returned {A} a.
Arguments Thrown {A} error.

(** What the scanner asks of Node: the file system and the [path] module,
    the lower-casing of the language, and the calls of the engine.
    [readFile] is [fs.promises.readFile(filePath, 'utf8')], which rejects
    when the file cannot be read.  [maxArguments] is the greatest number
    of arguments the engine takes in one call, one at the least: a call
    with more, as the spread of a long array makes, throws a RangeError
    (in V8 the bound comes from the size of the stack and is in the order
    of a hundred thousand). *)
Record Host : Type := mkHost {
  readFile : jsstring -> outcome jsstring;
  extname : jsstring -> jsstring;
  toLowerCase : jsstring -> jsstring;
  maxArguments : positive
}.

(** An entry of [collectProjectFiles()], of which the scanner reads the
    two paths. *)
Record ProjectFile : Type := mkFile {
  filePath : jsstring;
  relativePath : jsstring
}.

(** The two readings of [performance.now()] and the [new Date()] of a run. *)
Record Clock : Type := mkClock {
  startTime : Z;
  endTime : Z;
  now : Z
}.

(** A loop that may not end: [None] when the fuel is used up. *)
Definition bind {A B : Type} (m : option A) (f : A -> option B) : option B :=
  match m with
  | Some a => f a
  | None => None
  end.

Notation "'do' x <- m ; k" := (bind m (fun x => k))
  (at level 10, x pattern, m at level 100, k at level 200).

Module SecurityScanner.
Import VulnerabilityPattern.

Local Open Scope Z_scope.

(** [isInComment(line, column)]. *)
Definition isInComment (line : jsstring) (column : Z) : bool :=
  let beforeColumn := substring line 0 column in
  let singleCommentIndex := indexOf beforeColumn (str "//") in
  if negb (singleCommentIndex =? -1) && (singleCommentIndex <? column) then true
  else
    let multiCommentStart := lastIndexOf beforeColumn (str "/*") in
    let multiCommentEnd := lastIndexOf beforeColumn (str "*/") in
    if negb (multiCommentStart =? -1) && (multiCommentStart >? multiCommentEnd) then true
    else false.

(** The line number, the line and the column of a match at [index]. *)
Definition lineNumberOf (content : jsstring) (index : Z) : Z :=
  let beforeMatch := substring content 0 index in
  Z.of_nat (List.length (split beforeMatch LF)).

Definition columnOf (content : jsstring) (index : Z) : Z :=
  let beforeMatch := substring content 0 index in
  let lineStart := lastIndexOf beforeMatch [LF] + 1 in
  index - lineStart + 1.

(** [lines[lineNumber - 1] || '']. *)
Definition lineContentOf (lines : list jsstring) (lineNumber : Z) : jsstring :=
  nth (Z.to_nat (lineNumber - 1)) lines [].

(** The body of the loop of [findPatternMatches] for one match: [None] is
    the [continue] of a match in a comment, [Some] the issue pushed. *)
Definition locate (content : jsstring) (lines : list jsstring)
           (pattern : VulnerabilityPattern.t) (index : Z) : option IssueMatch.t :=
  let lineNumber := lineNumberOf content index in
  let lineContent := lineContentOf lines lineNumber in
  let column := columnOf content index in
  if isInComment lineContent column then None
  else Some (IssueMatch.mk (type pattern) (severity pattern) lineNumber column
               (trim lineContent) (message pattern) (description pattern)
               (recommendation pattern) (cweId pattern) (owaspCategory pattern)
               (confidence pattern)).

Definition push {A : Type} (l : list A) (o : option A) : list A :=
  match o with
  | Some a => l ++ [a]
  | None => l
  end.

(** [while ((match = pattern.pattern.exec(content)) !== null) ...]: the
    RegExp object is updated by each [exec]. *)
Fixpoint matchLoop (fuel : nat) (content : jsstring) (lines : list jsstring)
         (pattern : VulnerabilityPattern.t) (re : RegExp.t)
         (issues : list IssueMatch.t) : option (list IssueMatch.t * RegExp.t) :=
  match fuel with
  | O => None
  | S fuel' =>
      match RegExp.exec re content with
      | (None, re') => Some (issues, re')
      | (Some m, re') =>
          matchLoop fuel' content lines pattern re'
            (push issues (locate content lines pattern (RegExp.index m)))
      end
  end.

(** [findPatternMatches(content, lines, pattern)]: the issues, and the
    rule with its RegExp as the loop leaves it. *)
Definition findPatternMatches (fuel : nat) (content : jsstring) (lines : list jsstring)
           (pattern : VulnerabilityPattern.t)
  : option (list IssueMatch.t * VulnerabilityPattern.t) :=
  let re := RegExp.setLastIndex (VulnerabilityPattern.pattern pattern) 0 in
  do (issues, re') <- matchLoop fuel content lines pattern re [];
  Some (issues, setPattern pattern re').

(** The engine takes a call with [n] arguments. *)
Definition acceptsArguments (maxArguments : positive) (n : nat) : bool :=
  Z.of_nat n <=? Z.pos maxArguments.

(** [array.push(...items)]: the spread passes every element of [items] as
    an argument of the one call of [push], which throws a RangeError when
    they are more than the engine takes, and leaves the array as it was. *)
Definition pushAll {A : Type} (maxArguments : positive) (array items : list A)
  : outcome (list A) :=
  if acceptsArguments maxArguments (List.length items)
  then Returned (array ++ items)
  else Thrown (str "RangeError: Maximum call stack size exceeded").

(** [for (const pattern of this.vulnerabilityPatterns) ...] of [scanFile]:
    the array [issues] as the loop leaves it, how the loop was left (at
    its end, or by the RangeError of a [push], which reaches the [catch]
    of [scanFile] with the later rules not run), and the rules. *)
Fixpoint scanRules (fuel : nat) (maxArguments : positive)
         (content : jsstring) (lines : list jsstring)
         (filePath relativePath : jsstring)
         (patterns : list VulnerabilityPattern.t) (issues : list SecurityIssue.t)
  : option (list SecurityIssue.t * outcome unit * list VulnerabilityPattern.t) :=
  match patterns with
  | [] => Some (issues, Returned tt, [])
  | pattern :: rest =>
      do (matches, pattern') <- findPatternMatches fuel content lines pattern;
      match pushAll maxArguments issues
              (map (fun m => SecurityIssue.mk m filePath relativePath) matches) with
      | Returned issues' =>
          do (issues'', how, rest') <-
             scanRules fuel maxArguments content lines filePath relativePath rest issues';
          Some (issues'', how, pattern' :: rest')
      | Thrown error => Some (issues, Thrown error, pattern' :: rest)
      end
  end.

(** [scanFile(filePath, relativePath)].  Whatever is thrown in the [try]
    block is caught inside: the function logs it and returns the issues
    collected so far, none after a rejected read, those of the earlier
    rules after the RangeError of a [push]. *)
Definition scanFile (fuel : nat) (host : Host)
           (vulnerabilityPatterns : list VulnerabilityPattern.t)
           (filePath relativePath : jsstring)
  : option (outcome (list SecurityIssue.t) * list VulnerabilityPattern.t) :=
  match readFile host filePath with
  | Returned content =>
      let lines := split content LF in
      do (issues, _, patterns') <-
         scanRules fuel (maxArguments host) content lines filePath relativePath
                   vulnerabilityPatterns [];
      Some (Returned issues, patterns')
  | Thrown _ => Some (Returned [], vulnerabilityPatterns)
  end.

Fixpoint jsstring_eqb (a b : jsstring) : bool :=
  match a, b with
  | [], [] => true
  | x :: a', y :: b' => N.eqb x y && jsstring_eqb a' b'
  | _, _ => false
  end.

(** [Array.prototype.includes] on strings. *)
Definition includes (l : list jsstring) (s : jsstring) : bool :=
  existsb (jsstring_eqb s) l.

(** The predicate of the filter of [scanWorkspace]. *)
Definition isJsTs (host : Host) (f : ProjectFile) : bool :=
  let ext := toLowerCase host (extname host (filePath f)) in
  includes [str ".js"; str ".jsx"; str ".ts"; str ".tsx"; str ".mjs"; str ".cjs"] ext.

(** [for (const file of jstsFiles) { try ... catch ... }]: the [catch]
    is reached from the [await] or from the [push], in both cases before
    the counter goes up. *)
Fixpoint scanFiles (fuel : nat) (host : Host)
         (patterns : list VulnerabilityPattern.t) (jstsFiles : list ProjectFile)
         (issues : list SecurityIssue.t) (filesScanned : Z)
  : option (list SecurityIssue.t * Z * list VulnerabilityPattern.t) :=
  match jstsFiles with
  | [] => Some (issues, filesScanned, patterns)
  | file :: rest =>
      do (r, patterns') <- scanFile fuel host patterns (filePath file) (relativePath file);
      match r with
      | Returned fileIssues =>
          match pushAll (maxArguments host) issues fileIssues with
          | Returned issues' =>
              scanFiles fuel host patterns' rest issues' (filesScanned + 1)
          | Thrown _ =>
              scanFiles fuel host patterns' rest issues filesScanned
          end
      | Thrown _ =>
          scanFiles fuel host patterns' rest issues filesScanned
      end
  end.

Definition countSeverity (s : Severity.t) (issues : list SecurityIssue.t) : Z :=
  Z.of_nat (List.length
    (filter (fun i => Severity.eqb (SecurityIssue.severity i) s) issues)).

(** [scanWorkspace()], from the list [files] that [collectProjectFiles()]
    resolved to: the result, and the rules as the scan leaves them. *)
Definition scanWorkspace (fuel : nat) (host : Host) (clock : Clock)
           (vulnerabilityPatterns : list VulnerabilityPattern.t)
           (files : list ProjectFile)
  : option (SecurityScanResult.t * list VulnerabilityPattern.t) :=
  let jstsFiles := filter (isJsTs host) files in
  do (issues, filesScanned, patterns') <-
     scanFiles fuel host vulnerabilityPatterns jstsFiles [] 0;
  let duration := endTime clock - startTime clock in
  Some (SecurityScanResult.mk issues filesScanned
          (Z.of_nat (List.length issues))
          (countSeverity Severity.critical issues)
          (countSeverity Severity.high issues)
          (countSeverity Severity.medium issues)
          (countSeverity Severity.low issues)
          duration (now clock),
        patterns').

End SecurityScanner.

(* ================================================================== *)
(** ** The risk classifier: [calculateRiskLevel] *)

Module RiskLevel.
Inductive t : Type := CRITICAL | HIGH | MEDIUM | LOW | CLEAN.
End RiskLevel.

Definition calculateRiskLevel (result : SecurityScanResult.t) : RiskLevel.t :=
  if (SecurityScanResult.criticalCount result >? 0)%Z then RiskLevel.CRITICAL
  else if (SecurityScanResult.highCount result >=? 5)%Z then RiskLevel.HIGH
  else if ((SecurityScanResult.highCount result >? 0)
           || (SecurityScanResult.mediumCount result >=? 10))%Z then RiskLevel.MEDIUM
  else if ((SecurityScanResult.mediumCount result >? 0)
           || (SecurityScanResult.lowCount result >? 0))%Z then RiskLevel.LOW
  else RiskLevel.CLEAN.

(* ================================================================== *)
(** ** Definitions used to state the properties *)

Module RegExpMeasure.
Import RegExp.

(** A lower bound on the number of code units any match of [r] consumes. *)
Fixpoint minLength (r : regex) : nat :=
  match r with
  | Empty => 0
  | Char _ => 1
  | Class _ _ => 1
  | Seq r1 r2 => minLength r1 + minLength r2
  | Alt r1 r2 => Nat.min (minLength r1) (minLength r2)
  | Quant min max _ r' =>
      match max with
      | Some mx => Nat.min min mx * minLength r'
      | None => min * minLength r'
      end
  | Group r' => minLength r'
  | NegLookahead _ => 0
  | WordBoundary => 0
  end.

(** A RegExp with the global flag whose matches are never empty: each
    [exec] that succeeds moves [lastIndex] forward. *)
Definition advancing (R : RegExp.t) : bool :=
  global R && (0 <? minLength (source R))%nat.

(** Whenever [m] succeeds from [x], it reached its continuation at least
    [n] code units further. *)
Definition Progress (m : matcher) (n : nat) : Prop :=
  forall x c e, m x c = Some e -> exists y, x + n <= y /\ c y = Some e.

Definition quantBound (min : nat) (max : option nat) : nat :=
  match max with
  | Some mx => Nat.min min mx
  | None => min
  end.

(** A matcher on an input of [len] code units reads its continuation at
    positions from where it stands up to the end of the input only. *)
Definition Local (len : nat) (m : matcher) : Prop :=
  forall x c c',
    x <= len ->
    (forall y, x <= y <= len -> c y = c' y) ->
    m x c = m x c'.

(** Two RegExp objects of the same pattern and flags. *)
Definition sameRegExp (R R' : RegExp.t) : Prop :=
  source R' = source R /\ global R' = global R /\ ignoreCase R' = ignoreCase R.

End RegExpMeasure.

Module ScannerState.
Import VulnerabilityPattern.

(** A rule with its RegExp rewound. *)
Definition resetRule (p : VulnerabilityPattern.t) : VulnerabilityPattern.t :=
  setPattern p (RegExp.setLastIndex (pattern p) 0).

(** The rules of a scanner are those of the catalog, each RegExp with
    whatever [lastIndex] earlier scans left in it. *)
Definition ofCatalog (ps : list VulnerabilityPattern.t) : Prop :=
  map resetRule ps = Catalog.initializePatterns.

(** The iterations one rule may need on [content]. *)
Definition fuelForContent (content : jsstring) : nat := List.length content + 2.

(** Enough iterations for every file of the list. *)
Fixpoint fuelFor (host : Host) (files : list ProjectFile) : nat :=
  match files with
  | [] => 0
  | f :: rest =>
      Nat.max (match readFile host (filePath f) with
               | Returned content => fuelForContent content
               | Thrown _ => 0
               end)
              (fuelFor host rest)
  end.

(** Every rule has an advancing RegExp. *)
Definition allAdvancing (ps : list VulnerabilityPattern.t) : Prop :=
  Forall (fun p => RegExpMeasure.advancing (pattern p) = true) ps.

(** Where an issue of the result comes from: a file of the list that could
    be read, a rule of the scanner, and a match the comment filter let
    through. *)
Definition issueOrigin (host : Host) (ps : list VulnerabilityPattern.t)
           (files : list ProjectFile) (i : SecurityIssue.t) : Prop :=
  exists f content p index m,
    In f files /\ readFile host (filePath f) = Returned content
    /\ In p (map resetRule ps)
    /\ SecurityScanner.locate content (split content LF) p index = Some m
    /\ i = SecurityIssue.mk m (filePath f) (relativePath f).

End ScannerState.

(** The decision table of the risk classifier, clause by clause in the
    order of the specification; the first clause that applies wins. *)
Module DecisionTable.
Import SecurityScanResult.
Local Open Scope Z_scope.

Definition clauses : list ((SecurityScanResult.t -> bool) * RiskLevel.t) := [
  (fun r => criticalCount r >? 0, RiskLevel.CRITICAL);
  (fun r => highCount r >=? 5, RiskLevel.HIGH);
  (fun r => (highCount r >? 0) || (mediumCount r >=? 10), RiskLevel.MEDIUM);
  (fun r => (mediumCount r >? 0) || (lowCount r >? 0), RiskLevel.LOW)
].

Fixpoint firstMatching (cs : list ((SecurityScanResult.t -> bool) * RiskLevel.t))
         (r : SecurityScanResult.t) : RiskLevel.t :=
  match cs with
  | [] => RiskLevel.CLEAN
  | (applies, level) :: rest => if applies r then level else firstMatching rest r
  end.

Definition classify (r : SecurityScanResult.t) : RiskLevel.t := firstMatching clauses r.

End DecisionTable.

(** Where a comment marker stands on a line, against the column of a
    match (columns count from 1, indices from 0). *)
Module CommentMarkers.

Definition lineComment : jsstring := str "//".
Definition blockOpen : jsstring := str "/*".
Definition blockClose : jsstring := str "*/".

(** The marker [mk] occurs at index [i] of [line], strictly before the
    column [column]. *)
Definition before (mk line : jsstring) (i : nat) (column : Z) : Prop :=
  occurs_at mk line i /\ (Z.of_nat i + 1 < column)%Z.

(** On the line itself, a block-comment opener stands before the column
    with no closer between it and the column. *)
Definition openBlockOnLine (line : jsstring) (column : Z) : Prop :=
  exists i, before blockOpen line i column /\
            forall j, before blockClose line j column -> (j < i)%nat.

(** The block-comment clause as the specification words it, over the whole
    content: an opener at the offset [o] on a line before the line of the
    match at [index], and no closer between that opener and the match. *)
Definition openerOnPriorLine (content : jsstring) (index : Z) (o : nat) : bool :=
  isPrefixOf blockOpen (skipn o content)
  && (SecurityScanner.lineNumberOf content (Z.of_nat o)
        <? SecurityScanner.lineNumberOf content index)%Z
  && forallb (fun c => negb (isPrefixOf blockClose (skipn c content)))
             (seq (o + 2) (Z.to_nat index - (o + 2))).

Definition insideBlockFromPriorLine (content : jsstring) (index : Z) : bool :=
  existsb (openerOnPriorLine content index) (seq 0 (Z.to_nat index)).

End CommentMarkers.

(** Concrete hosts, files and contents for the examples. *)
Module Samples.
Import RegExp.

Fixpoint lastDotSuffix (s : jsstring) : jsstring :=
  match s with
  | [] => []
  | c :: s' =>
      match lastDotSuffix s' with
      | [] => if (c =? 46)%N then s else []
      | e => e
      end
  end.

Definition asciiLower (s : jsstring) : jsstring :=
  map (fun c => if isAsciiUpper c then (c + 32)%N else c) s.

(** A file system of one readable content: every path reads as [content];
    the extension of a path is taken from its last dot; the engine takes
    [limit] arguments in a call. *)
Definition hostTaking (limit : positive) (content : jsstring) : Host :=
  mkHost (fun _ => Returned content) lastDotSuffix asciiLower limit.

Definition hostOf (content : jsstring) : Host := hostTaking 125000 content.

(** A file system where [brokenPath] cannot be read and every other path
    reads as [content]. *)
Definition brokenPath : jsstring := str "/w/src/broken.js".

Definition hostWithBroken (content : jsstring) : Host :=
  mkHost (fun p => if SecurityScanner.jsstring_eqb p brokenPath
                   then Thrown (str "EACCES") else Returned content)
         lastDotSuffix asciiLower 125000.

Definition clock0 : Clock := mkClock 0 5 1000.
Definition clock1 : Clock := mkClock 2000 2009 3000.

Definition appJs : ProjectFile := mkFile (str "/w/src/app.js") (str "src/app.js").
Definition readmeMd : ProjectFile := mkFile (str "/w/README.md") (str "README.md").
Definition brokenJs : ProjectFile := mkFile brokenPath (str "src/broken.js").

(** Scenario A of the specification. *)
Definition secretLine : jsstring :=
  str "const apiKey = " ++ [QUOT] ++ str "sk_live_abcdef1234567890" ++ [QUOT] ++ str ";".

(** Scenario C of the specification. *)
Definition commentedEval : jsstring := str "// eval(userInput);".

Definition evalThenComment : jsstring := str "eval(a); // eval(b);".

(** Two calls on one line. *)
Definition twoEvals : jsstring := str "eval(a); eval(b)".

(** The line of scenario A, and the two calls on a second line. *)
Definition secretThenEvals : jsstring := secretLine ++ [LF] ++ twoEvals.

Definition evalInBlockBeforeLineComment : jsstring := str "/* eval(x) // c".

(** A block comment that spans three lines, with a call on the second. *)
Definition evalInsideBlock : jsstring :=
  str "/*" ++ [LF] ++ str "eval(x)" ++ [LF] ++ str "*/".

(** A rule whose pattern matches the empty string: [a*] with the global
    flag. *)
Definition emptyMatchingRule : VulnerabilityPattern.t :=
  VulnerabilityPattern.mk information_disclosure Severity.low
    (Catalog.g (star (Char 97)))
    (str "m") (str "d") (str "r") None None Confidence.low.

(** The rule of line 132 of the catalog, the call of [eval]. *)
Definition evalRule : VulnerabilityPattern.t :=
  nth 8 Catalog.initializePatterns emptyMatchingRule.

End Samples.

(* ================================================================== *)
(** ** Locations in a file *)

Module Positions.

(** The offset at which the line of (0-based) number [k] begins, in a
    content cut in [lines] at its line feeds: every earlier line and the
    line feed that ends it. *)
Fixpoint lineOffset (lines : list jsstring) (k : nat) : nat :=
  match k, lines with
  | S k', l :: rest => List.length l + 1 + lineOffset rest k'
  | _, _ => 0
  end.

(** The offset that a line and a column, both counted from 1, address. *)
Definition offsetOf (lines : list jsstring) (line column : Z) : Z :=
  (Z.of_nat (lineOffset lines (Z.to_nat (line - 1))) + (column - 1))%Z.

(** One location stands before another in the file. *)
Definition before (a b : IssueMatch.t) : Prop :=
  (IssueMatch.line a < IssueMatch.line b
   \/ (IssueMatch.line a = IssueMatch.line b
       /\ IssueMatch.column a < IssueMatch.column b))%Z.

End Positions.

(* ================================================================== *)
(** ** Consumers of a scan result *)

(** The five risk levels, from the mildest to the gravest. *)
Module RiskOrder.

Definition rank (l : RiskLevel.t) : nat :=
  match l with
  | RiskLevel.CLEAN => 0
  | RiskLevel.LOW => 1
  | RiskLevel.MEDIUM => 2
  | RiskLevel.HIGH => 3
  | RiskLevel.CRITICAL => 4
  end.

(** None of the four counts by severity of [r1] exceeds the same count
    of [r2]. *)
Definition countsLe (r1 r2 : SecurityScanResult.t) : Prop :=
  (SecurityScanResult.criticalCount r1 <= SecurityScanResult.criticalCount r2
   /\ SecurityScanResult.highCount r1 <= SecurityScanResult.highCount r2
   /\ SecurityScanResult.mediumCount r1 <= SecurityScanResult.mediumCount r2
   /\ SecurityScanResult.lowCount r1 <= SecurityScanResult.lowCount r2)%Z.

End RiskOrder.

(** [class SecurityReportGenerator]: the escaping of the code snippet. *)
Module SecurityReportGenerator.

(** [text.replace(/c/g, replacement)] for a pattern of one literal
    character and a replacement string without [$]: every occurrence of
    the character is replaced. *)
Definition replaceAll (c : N) (replacement : jsstring) (text : jsstring) : jsstring :=
  flat_map (fun x => if (x =? c)%N then replacement else [x]) text.

Definition AMP : N := 38%N.
Definition LT : N := 60%N.
Definition GT : N := 62%N.

(** [escapeHtml(text)]: five replacements, one after the other. *)
Definition escapeHtml (text : jsstring) : jsstring :=
  replaceAll RegExp.APOS (str "&#039;")
    (replaceAll RegExp.QUOT (str "&quot;")
       (replaceAll GT (str "&gt;")
          (replaceAll LT (str "&lt;")
             (replaceAll AMP (str "&amp;") text)))).

(** The entity of a character, or the character itself. *)
Definition entity (c : N) : jsstring :=
  if (c =? AMP)%N then str "&amp;"
  else if (c =? LT)%N then str "&lt;"
  else if (c =? GT)%N then str "&gt;"
  else if (c =? RegExp.QUOT)%N then str "&quot;"
  else if (c =? RegExp.APOS)%N then str "&#039;"
  else [c].

(** One of the five characters that [escapeHtml] replaces. *)
Definition isSpecial (c : N) : bool :=
  ((c =? AMP) || (c =? LT) || (c =? GT) || (c =? RegExp.QUOT) || (c =? RegExp.APOS))%N.

(** Reading the entities back, used to show that escaping loses nothing. *)
Fixpoint unescape (fuel : nat) (s : jsstring) : jsstring :=
  match fuel with
  | O => []
  | S fuel' =>
      match s with
      | [] => []
      | c :: rest =>
          if negb (c =? AMP)%N then c :: unescape fuel' rest
          else if isPrefixOf (str "amp;") rest then AMP :: unescape fuel' (skipn 4 rest)
          else if isPrefixOf (str "lt;") rest then LT :: unescape fuel' (skipn 3 rest)
          else if isPrefixOf (str "gt;") rest then GT :: unescape fuel' (skipn 3 rest)
          else if isPrefixOf (str "quot;") rest then RegExp.QUOT :: unescape fuel' (skipn 5 rest)
          else if isPrefixOf (str "#039;") rest then RegExp.APOS :: unescape fuel' (skipn 5 rest)
          else c :: unescape fuel' rest
      end
  end.

End SecurityReportGenerator.

(** [class ProjectDashboard]: the health score. *)
Module ProjectDashboard.

(** The two fields of [ComplexityHeatmapData] that the score reads.
    [averageComplexity] is only compared with constants; a rational
    stands for its value. *)
Record ComplexitySummary : Type := mkComplexity {
  averageComplexity : Q;
  highComplexityFiles : Z
}.

Record Health : Type := mkHealth {
  overallGrade : jsstring;
  overallScore : Z
}.

(** [a > n] for a constant [n]. *)
Definition gt (a : Q) (n : Z) : bool := negb (Qle_bool a (inject_Z n)).

(** [calculateOverallHealth(security, complexity)], on integer counts,
    where [Math.round] leaves the score as it is. *)
Definition calculateOverallHealth (security : option SecurityScanResult.t)
           (complexity : option ComplexitySummary) : Health :=
  let score := 100%Z in
  let score :=
    match security with
    | Some s =>
        let score := (score - SecurityScanResult.criticalCount s * 20)%Z in
        let score := (score - SecurityScanResult.highCount s * 10)%Z in
        let score := (score - SecurityScanResult.mediumCount s * 5)%Z in
        (score - SecurityScanResult.lowCount s * 1)%Z
    | None => score
    end in
  let score :=
    match complexity with
    | Some c =>
        let avgComplexity := averageComplexity c in
        let score :=
          if gt avgComplexity 70 then (score - 30)%Z
          else if gt avgComplexity 50 then (score - 15)%Z
          else if gt avgComplexity 30 then (score - 5)%Z
          else score in
        (score - highComplexityFiles c * 2)%Z
    | None => score
    end in
  let score := Z.max 0 (Z.min 100 score) in
  let grade :=
    if (score >=? 90)%Z then str "A+"
    else if (score >=? 85)%Z then str "A"
    else if (score >=? 80)%Z then str "A-"
    else if (score >=? 75)%Z then str "B+"
    else if (score >=? 70)%Z then str "B"
    else if (score >=? 65)%Z then str "B-"
    else if (score >=? 60)%Z then str "C+"
    else if (score >=? 55)%Z then str "C"
    else if (score >=? 50)%Z then str "C-"
    else if (score >=? 45)%Z then str "D"
    else str "F" in
  mkHealth grade score.

End ProjectDashboard.

(* ================================================================== *)
(** ** The tree view of the results: [src/securityActionsProvider.ts] *)

Module JSNumber.

Fixpoint digits (fuel : nat) (n : N) (acc : jsstring) : jsstring :=
  match fuel with
  | O => acc
  | S fuel' =>
      let acc' := (48 + n mod 10)%N :: acc in
      if (n / 10 =? 0)%N then acc' else digits fuel' (n / 10)%N acc'
  end.

(** The text of an integer in a template literal: its decimal digits,
    after a minus sign when it is negative (integers of magnitude below
    10^21, as every count and line number is). *)
Definition toString (n : Z) : jsstring :=
  match n with
  | Z0 => str "0"
  | Zpos p => digits (Pos.size_nat p) (Npos p) []
  | Zneg p => 45%N :: digits (Pos.size_nat p) (Npos p) []
  end.

End JSNumber.

Module JSString.

(** [s.endsWith(suffix)]. *)
Definition endsWith (s suffix : jsstring) : bool :=
  (List.length suffix <=? List.length s)%nat
  && SecurityScanner.jsstring_eqb (skipn (List.length s - List.length suffix) s) suffix.

(** [s.replace(pattern, replacement)] for a pattern that is a string and
    a replacement without [$]: the first occurrence is replaced. *)
Definition replaceFirst (s pattern replacement : jsstring) : jsstring :=
  let k := indexOf s pattern in
  if (k =? -1)%Z then s
  else firstn (Z.to_nat k) s ++ replacement
         ++ skipn (Z.to_nat k + List.length pattern) s.

(** An optional string read as a condition: present and not empty. *)
Definition truthy (o : option jsstring) : bool :=
  match o with
  | Some (_ :: _) => true
  | _ => false
  end.

End JSString.

Module SecurityActionsProvider.

Module TreeItemCollapsibleState.
Inductive t : Type := NotCollapsible | Collapsed | Expanded.
End TreeItemCollapsibleState.

Record Command : Type := mkCommand {
  command : jsstring;
  title : jsstring;
  arguments : list SecurityIssue.t
}.

Record ThemeIcon : Type := mkIcon {
  id : jsstring;
  color : option jsstring
}.

(** [vscode.MarkdownString]: [appendMarkdown] adds to [value]. *)
Record MarkdownString : Type := mkMarkdown {
  value : jsstring;
  supportHtml : bool;
  isTrusted : bool
}.

(** [class SecurityTreeItem]. *)
Record SecurityTreeItem : Type := mkItem {
  label : jsstring;
  description : jsstring;
  collapsibleState : TreeItemCollapsibleState.t;
  contextValue : jsstring;
  itemCommand : option Command;
  iconPath : option ThemeIcon;
  tooltip : option MarkdownString
}.

(** The constructor of [SecurityTreeItem]: the icon follows from the
    context value. *)
Definition newSecurityTreeItem (label description : jsstring)
           (collapsibleState : TreeItemCollapsibleState.t) (contextValue : jsstring)
           (command : option Command) : SecurityTreeItem :=
  let ctx := SecurityScanner.jsstring_eqb contextValue in
  let iconPath :=
    if ctx (str "critical-group") then Some (mkIcon (str "error") (Some (str "errorForeground")))
    else if ctx (str "high-group") then
      Some (mkIcon (str "warning") (Some (str "editorWarning.foreground")))
    else if ctx (str "medium-group") then
      Some (mkIcon (str "info") (Some (str "editorInfo.foreground")))
    else if ctx (str "low-group") then Some (mkIcon (str "circle-outline") None)
    else if ctx (str "summary") then Some (mkIcon (str "graph") None)
    else if ctx (str "info") then Some (mkIcon (str "lightbulb") None)
    else if ctx (str "issue") then Some (mkIcon (str "bug") None)
    else None in
  mkItem label description collapsibleState contextValue command iconPath None.

(** The text of a severity and of a kind, as the issues carry them. *)
Definition severityText (s : Severity.t) : jsstring :=
  match s with
  | Severity.critical => str "critical"
  | Severity.high => str "high"
  | Severity.medium => str "medium"
  | Severity.low => str "low"
  end.

(** Pictographs, in UTF-16 code units. *)
Definition redCircle : jsstring := [55357; 56628]%N.      (* U+1F534 *)
Definition orangeCircle : jsstring := [55357; 57312]%N.   (* U+1F7E0 *)
Definition yellowCircle : jsstring := [55357; 57313]%N.   (* U+1F7E1 *)
Definition blueCircle : jsstring := [55357; 56629]%N.     (* U+1F535 *)
Definition barChart : jsstring := [55357; 56522]%N.       (* U+1F4CA *)

(** [getVulnerabilityIcon(type)], on the kinds of the enumeration; each
    has an entry in the table, so the default after [||] is not used. *)
Definition getVulnerabilityIcon (type : SecurityVulnerabilityType) : jsstring :=
  match type with
  | hardcoded_secret => [55357; 56593]%N
  | sql_injection => [55357; 56457]%N
  | xss_vulnerability => [55356; 57104]%N
  | command_injection => [9881; 65039]%N
  | path_traversal => [55357; 56513]%N
  | insecure_random => [55356; 57266]%N
  | weak_crypto => [55357; 56595]%N
  | unsafe_eval => [9888; 65039]%N
  | prototype_pollution => [55358; 56812]%N
  | xxe_vulnerability => [55357; 56516]%N
  | open_redirect => [8599; 65039]%N
  | insecure_deserialization => [55357; 56550]%N
  | sensitive_data_exposure => [55357; 56385; 65039]%N
  | cors_misconfiguration => [55356; 57101]%N
  | csrf_vulnerability => [55357; 56576]%N
  | information_disclosure => [8505; 65039]%N
  end.

(** [getSeverityBadge(severity)], on the four severities. *)
Definition getSeverityBadge (severity : Severity.t) : jsstring :=
  match severity with
  | Severity.critical => redCircle ++ str " CRITICAL"
  | Severity.high => orangeCircle ++ str " HIGH"
  | Severity.medium => yellowCircle ++ str " MEDIUM"
  | Severity.low => blueCircle ++ str " LOW"
  end.

Definition appendMarkdown (t : MarkdownString) (text : jsstring) : MarkdownString :=
  mkMarkdown (value t ++ text) (supportHtml t) (isTrusted t).

Definition NLNL : jsstring := [LF; LF].

(** [createTooltip(issue)]. *)
Definition createTooltip (issue : SecurityIssue.t) : MarkdownString :=
  let m := SecurityIssue.located issue in
  let tooltip := mkMarkdown [] true true in
  let tooltip := appendMarkdown tooltip (str "### " ++ IssueMatch.message m ++ NLNL) in
  let tooltip := appendMarkdown tooltip
    (str "**Severity:** " ++ getSeverityBadge (IssueMatch.severity m) ++ NLNL) in
  let tooltip := appendMarkdown tooltip
    (str "**File:** `" ++ SecurityIssue.relativePath issue ++ str ":"
     ++ JSNumber.toString (IssueMatch.line m) ++ str "`" ++ NLNL) in
  let tooltip := appendMarkdown tooltip
    (str "**Description:** " ++ IssueMatch.description m ++ NLNL) in
  let tooltip := appendMarkdown tooltip
    (str "**Code:**" ++ [LF] ++ str "```javascript" ++ [LF] ++ IssueMatch.code m
     ++ [LF] ++ str "```" ++ NLNL) in
  let tooltip := appendMarkdown tooltip
    (str "**Recommendation:** " ++ IssueMatch.recommendation m ++ NLNL) in
  let tooltip :=
    match IssueMatch.cweId m with
    | Some (c :: cwe) => appendMarkdown tooltip (str "**CWE:** " ++ (c :: cwe) ++ NLNL)
    | _ => tooltip
    end in
  match IssueMatch.owaspCategory m with
  | Some (c :: owasp) => appendMarkdown tooltip (str "**OWASP:** " ++ (c :: owasp) ++ NLNL)
  | _ => tooltip
  end.

(** The item shown when there is nothing to show. *)
Definition placeholder : SecurityTreeItem :=
  newSecurityTreeItem (str "No security scan results")
    (str "Click " ++ [RegExp.QUOT] ++ str "Scan for Vulnerabilities" ++ [RegExp.QUOT]
     ++ str " to start")
    TreeItemCollapsibleState.NotCollapsible (str "info")
    (Some (mkCommand (str "what-the-code.scanSecurity") (str "Scan Now") [])).

(** The item of one issue, with its tooltip. *)
Definition issueItem (issue : SecurityIssue.t) : SecurityTreeItem :=
  let item :=
    newSecurityTreeItem
      (getVulnerabilityIcon (SecurityIssue.type issue) ++ str " "
       ++ IssueMatch.message (SecurityIssue.located issue))
      (str "Line " ++ JSNumber.toString (SecurityIssue.line issue))
      TreeItemCollapsibleState.NotCollapsible (str "issue")
      (Some (mkCommand (str "what-the-code.openSecurityIssue") (str "Open Issue") [issue])) in
  mkItem (label item) (description item) (collapsibleState item) (contextValue item)
         (itemCommand item) (iconPath item) (Some (createTooltip issue)).

(** [getChildren(element)], with the result the provider holds. *)
Definition getChildren (scanResult : option SecurityScanResult.t)
           (element : option SecurityTreeItem) : list SecurityTreeItem :=
  match scanResult with
  | None => [placeholder]
  | Some r =>
      if (SecurityScanResult.totalIssues r =? 0)%Z then [placeholder]
      else
        match element with
        | None =>
            let items :=
              [newSecurityTreeItem
                 (barChart ++ str " " ++ JSNumber.toString (SecurityScanResult.totalIssues r)
                  ++ str " Total Issues")
                 (JSNumber.toString (SecurityScanResult.filesScanned r) ++ str " files scanned")
                 TreeItemCollapsibleState.NotCollapsible (str "summary") None] in
            let items :=
              if (SecurityScanResult.criticalCount r >? 0)%Z then
                items ++ [newSecurityTreeItem
                            (redCircle ++ str " Critical ("
                             ++ JSNumber.toString (SecurityScanResult.criticalCount r) ++ str ")")
                            (str "Immediate action required")
                            TreeItemCollapsibleState.Expanded (str "critical-group") None]
              else items in
            let items :=
              if (SecurityScanResult.highCount r >? 0)%Z then
                items ++ [newSecurityTreeItem
                            (orangeCircle ++ str " High ("
                             ++ JSNumber.toString (SecurityScanResult.highCount r) ++ str ")")
                            (str "Should be fixed soon")
                            TreeItemCollapsibleState.Collapsed (str "high-group") None]
              else items in
            let items :=
              if (SecurityScanResult.mediumCount r >? 0)%Z then
                items ++ [newSecurityTreeItem
                            (yellowCircle ++ str " Medium ("
                             ++ JSNumber.toString (SecurityScanResult.mediumCount r) ++ str ")")
                            (str "Fix when possible")
                            TreeItemCollapsibleState.Collapsed (str "medium-group") None]
              else items in
            if (SecurityScanResult.lowCount r >? 0)%Z then
              items ++ [newSecurityTreeItem
                          (blueCircle ++ str " Low ("
                           ++ JSNumber.toString (SecurityScanResult.lowCount r) ++ str ")")
                          (str "Minor issues")
                          TreeItemCollapsibleState.Collapsed (str "low-group") None]
            else items
        | Some element =>
            if JSString.endsWith (contextValue element) (str "-group") then
              let severity := JSString.replaceFirst (contextValue element) (str "-group") [] in
              let issues :=
                filter (fun i => SecurityScanner.jsstring_eqb
                                   (severityText (SecurityIssue.severity i)) severity)
                       (SecurityScanResult.issues r) in
              map issueItem issues
            else []
        end
  end.

(** The issues that the items of a list open. *)
Definition issuesOpenedBy (items : list SecurityTreeItem) : list SecurityIssue.t :=
  flat_map (fun item => match itemCommand item with
                        | Some c => arguments c
                        | None => []
                        end) items.

Definition severities : list Severity.t :=
  [Severity.critical; Severity.high; Severity.medium; Severity.low].

(** The context value of the group of a severity. *)
Definition groupOf (s : Severity.t) : jsstring := severityText s ++ str "-group".

End SecurityActionsProvider.

(* ================================================================== *)
(** ** Facts about matching: a match of a pattern of positive minimal
       length ends after its start *)

Module RegExpFacts.
Import RegExp RegExpMeasure.

Lemma RepeatMatcher_progress (m : matcher) (n : nat) (Hm : Progress m n) :
  forall fuel min max greedy x c e,
    RepeatMatcher fuel m min max greedy x c = Some e ->
    exists y, x + quantBound min max * n <= y /\ c y = Some e.
Proof.
  induction fuel as [|fuel IH]; intros min max greedy x c e H; simpl in H.
  - discriminate.
  - assert (Hstep : forall y, x + n * (if (min =? 0)%nat then 0 else 1) <= y ->
              (if (min =? 0)%nat && (y =? x)%nat then None
               else RepeatMatcher fuel m (pred min) (option_map pred max) greedy y c) = Some e ->
              exists y', x + quantBound min max * n <= y' /\ c y' = Some e).
    { intros y Hy Hd.
      destruct ((min =? 0)%nat && (y =? x)%nat); [discriminate|].
      apply IH in Hd. destruct Hd as [y' [Hy' Hc]].
      exists y'. split; [|exact Hc].
      destruct min as [|min']; destruct max as [[|mx]|]; simpl in *; nia. }
    destruct max as [[|mx]|].
    + exists x. split; [|exact H]. simpl. rewrite Nat.min_0_r. lia.
    + destruct (min =? 0)%nat eqn:Hmin; simpl in H.
      * apply Nat.eqb_eq in Hmin. subst min.
        destruct greedy; simpl in H.
        -- destruct (m x _) eqn:Hmx.
           ++ inversion H; subst. apply Hm in Hmx. destruct Hmx as [y [Hy Hd]].
              eapply Hstep; [|exact Hd]. simpl. lia.
           ++ exists x. split; [simpl; lia|exact H].
        -- destruct (c x) eqn:Hcx.
           ++ exists x. split; [simpl; lia|congruence].
           ++ apply Hm in H. destruct H as [y [Hy Hd]].
              eapply Hstep; [|exact Hd]. simpl. lia.
      * apply Hm in H. destruct H as [y [Hy Hd]].
        eapply Hstep; [|exact Hd]. lia.
    + destruct (min =? 0)%nat eqn:Hmin; simpl in H.
      * apply Nat.eqb_eq in Hmin. subst min.
        destruct greedy; simpl in H.
        -- destruct (m x _) eqn:Hmx.
           ++ inversion H; subst. apply Hm in Hmx. destruct Hmx as [y [Hy Hd]].
              eapply Hstep; [|exact Hd]. simpl. lia.
           ++ exists x. split; [simpl; lia|exact H].
        -- destruct (c x) eqn:Hcx.
           ++ exists x. split; [simpl; lia|congruence].
           ++ apply Hm in H. destruct H as [y [Hy Hd]].
              eapply Hstep; [|exact Hd]. simpl. lia.
      * apply Hm in H. destruct H as [y [Hy Hd]].
        eapply Hstep; [|exact Hd]. lia.
Qed.

Lemma compile_progress (input : jsstring) (ic : bool) :
  forall r, Progress (compile input ic r) (minLength r).
Proof.
  induction r as [|ch|neg atoms|r1 IH1 r2 IH2|r1 IH1 r2 IH2|min max greedy r IH|r IH|r IH|];
    intros x c e H; simpl in H.
  - exists x. split; [simpl; lia|exact H].
  - destruct (nth_error input x); [|discriminate].
    destruct (_ =? _)%N; [|discriminate].
    exists (S x). split; [simpl; lia|exact H].
  - destruct (nth_error input x); [|discriminate].
    destruct (xorb _ _); [|discriminate].
    exists (S x). split; [simpl; lia|exact H].
  - apply IH1 in H. destruct H as [y1 [Hy1 H]].
    apply IH2 in H. destruct H as [y2 [Hy2 H]].
    exists y2. split; [simpl; lia|exact H].
  - destruct (compile input ic r1 x c) eqn:H1.
    + inversion H; subst. apply IH1 in H1. destruct H1 as [y [Hy Hc]].
      exists y. split; [simpl; lia|exact Hc].
    + apply IH2 in H. destruct H as [y [Hy Hc]].
      exists y. split; [simpl; lia|exact Hc].
  - apply (RepeatMatcher_progress IH) in H. destruct H as [y [Hy Hc]].
    exists y. split; [|exact Hc].
    simpl. unfold quantBound in Hy. destruct max; lia.
  - apply IH in H. exact H.
  - destruct (compile input ic r x _); [discriminate|].
    exists x. split; [simpl; lia|exact H].
  - destruct (xorb _ _); [|discriminate].
    exists x. split; [simpl; lia|exact H].
Qed.

(** *** The fuel of RepeatMatcher is enough *)

Lemma RepeatMatcher_local (len : nat) (m : matcher) (Hm : Local len m) :
  forall fuel min max greedy, Local len (RepeatMatcher fuel m min max greedy).
Proof.
  induction fuel as [|fuel IH]; intros min max greedy x c c' Hx Hc; simpl.
  - reflexivity.
  - assert (Hd : m x (fun y =>
                   if (min =? 0)%nat && (y =? x)%nat then None
                   else RepeatMatcher fuel m (pred min) (option_map pred max) greedy y c)
               = m x (fun y =>
                   if (min =? 0)%nat && (y =? x)%nat then None
                   else RepeatMatcher fuel m (pred min) (option_map pred max) greedy y c')).
    { apply Hm; [exact Hx|]. intros y Hy.
      destruct ((min =? 0)%nat && (y =? x)%nat); [reflexivity|].
      apply IH; [lia|]. intros z Hz. apply Hc. lia. }
    rewrite Hd, (Hc x) by lia. reflexivity.
Qed.

Lemma compile_local (input : jsstring) (ic : bool) :
  forall r, Local (List.length input) (compile input ic r).
Proof.
  induction r as [|ch|neg atoms|r1 IH1 r2 IH2|r1 IH1 r2 IH2|min max greedy r IH|r IH|r IH|];
    intros x c c' Hx Hc; simpl.
  - apply Hc. lia.
  - destruct (nth_error input x) eqn:Hn; [|reflexivity].
    assert (x < List.length input) by (apply nth_error_Some; congruence).
    destruct (_ =? _)%N; [|reflexivity]. apply Hc. lia.
  - destruct (nth_error input x) eqn:Hn; [|reflexivity].
    assert (x < List.length input) by (apply nth_error_Some; congruence).
    destruct (xorb _ _); [|reflexivity]. apply Hc. lia.
  - apply IH1; [exact Hx|]. intros y Hy.
    apply IH2; [lia|]. intros z Hz. apply Hc. lia.
  - rewrite (IH1 x c c' Hx Hc), (IH2 x c c' Hx Hc). reflexivity.
  - apply (RepeatMatcher_local IH); assumption.
  - apply IH; assumption.
  - rewrite (Hc x) by lia. reflexivity.
  - rewrite (Hc x) by lia. reflexivity.
Qed.

(** Past [min + (len - x) + 1], more fuel does not change what
    RepeatMatcher returns: the bound [compile] gives it never cuts an
    iteration short. *)
Lemma RepeatMatcher_fuel (len : nat) (m : matcher) (Hm : Local len m) :
  forall f1 f2 min max greedy x c,
    x <= len ->
    min + (len - x) + 1 <= f1 ->
    min + (len - x) + 1 <= f2 ->
    RepeatMatcher f1 m min max greedy x c = RepeatMatcher f2 m min max greedy x c.
Proof.
  induction f1 as [|f1 IH]; intros f2 min max greedy x c Hx H1 H2; [lia|].
  destruct f2 as [|f2]; [lia|]. simpl.
  assert (Hd : m x (fun y =>
                 if (min =? 0)%nat && (y =? x)%nat then None
                 else RepeatMatcher f1 m (pred min) (option_map pred max) greedy y c)
             = m x (fun y =>
                 if (min =? 0)%nat && (y =? x)%nat then None
                 else RepeatMatcher f2 m (pred min) (option_map pred max) greedy y c)).
  { apply Hm; [exact Hx|]. intros y Hy.
    destruct ((min =? 0)%nat && (y =? x)%nat) eqn:Ht; [reflexivity|].
    apply andb_false_iff in Ht.
    apply IH; [lia| |].
    - destruct min as [|k]; simpl in *; [|lia].
      destruct Ht as [Ht|Ht]; [discriminate|]. apply Nat.eqb_neq in Ht. lia.
    - destruct min as [|k]; simpl in *; [|lia].
      destruct Ht as [Ht|Ht]; [discriminate|]. apply Nat.eqb_neq in Ht. lia. }
  rewrite Hd. reflexivity.
Qed.

Lemma Quant_enough_fuel (input : jsstring) (ic : bool) (r : regex)
      (min : nat) (max : option nat) (greedy : bool) (x : nat) (c : continuation)
      (fuel : nat) :
  x <= List.length input ->
  min + (List.length input - x) + 1 <= fuel ->
  RepeatMatcher fuel (compile input ic r) min max greedy x c
  = compile input ic (Quant min max greedy r) x c.
Proof.
  intros Hx Hfuel. simpl.
  apply (RepeatMatcher_fuel (compile_local input ic r)); [exact Hx|exact Hfuel|lia].
Qed.

Lemma matchAt_progress (input : jsstring) (ic : bool) (r : regex) (i e : nat) :
  matchAt input ic r i = Some e -> i + minLength r <= e.
Proof.
  unfold matchAt. intros H. apply compile_progress in H.
  destruct H as [y [Hy Hc]]. inversion Hc; subst. exact Hy.
Qed.

Lemma firstMatch_found (input : jsstring) (ic : bool) (r : regex) :
  forall candidates i e,
    firstMatch input ic r candidates = Some (i, e) ->
    In i candidates /\ i + minLength r <= e.
Proof.
  induction candidates as [|j rest IH]; intros i e H; simpl in H.
  - discriminate.
  - destruct (matchAt input ic r j) eqn:Hj.
    + inversion H; subst. split; [left; reflexivity|].
      eapply matchAt_progress; eassumption.
    + apply IH in H. destruct H as [Hin Hle]. split; [right; exact Hin|exact Hle].
Qed.

(** An [exec] that finds a match of an advancing RegExp leaves [lastIndex]
    strictly after where the search began, which is within the string. *)
Lemma exec_advances (R R' : RegExp.t) (s : jsstring) (m : MatchResult) :
  advancing R = true ->
  exec R s = (Some m, R') ->
  Z.to_nat (lastIndex R) <= List.length s
  /\ Z.to_nat (lastIndex R) < Z.to_nat (lastIndex R')
  /\ (Z.of_nat (Z.to_nat (lastIndex R)) <= index m < lastIndex R')%Z
  /\ source R' = source R /\ global R' = global R /\ ignoreCase R' = ignoreCase R.
Proof.
  unfold advancing, exec. intros Hadv H.
  apply andb_true_iff in Hadv. destruct Hadv as [Hg Hlen].
  apply Nat.ltb_lt in Hlen. rewrite Hg in H.
  destruct (firstMatch _ _ _ _) as [[i e]|] eqn:Hfm; [|discriminate].
  inversion H; subst; clear H. simpl.
  apply firstMatch_found in Hfm. destruct Hfm as [Hin Hle].
  apply in_seq in Hin.
  repeat split; try reflexivity; lia.
Qed.

End RegExpFacts.

(* ================================================================== *)
(** ** Facts about the scanner's loops *)

Module ScannerFacts.
Import RegExp RegExpMeasure RegExpFacts VulnerabilityPattern SecurityScanner ScannerState.

Lemma sameRegExp_trans R1 R2 R3 :
  sameRegExp R1 R2 -> sameRegExp R2 R3 -> sameRegExp R1 R3.
Proof. unfold sameRegExp. intuition congruence. Qed.

Lemma exec_sameRegExp R s o R' : exec R s = (o, R') -> sameRegExp R R'.
Proof.
  unfold exec, sameRegExp. intros H.
  destruct (firstMatch _ _ _ _) as [[i e]|];
    destruct (global R) eqn:Hg; inversion H; subst; simpl; auto.
Qed.

Lemma sameRegExp_advancing R R' :
  sameRegExp R R' -> advancing R' = advancing R.
Proof. unfold sameRegExp, advancing. intros [Hs [Hg _]]. rewrite Hs, Hg. reflexivity. Qed.

Lemma sameRegExp_reset R R' :
  sameRegExp R R' -> setLastIndex R' 0 = setLastIndex R 0.
Proof.
  unfold sameRegExp, setLastIndex. intros [Hs [Hg Hi]]. rewrite Hs, Hg, Hi. reflexivity.
Qed.

(** *** The loop of [findPatternMatches] *)

(** More fuel does not change a result. *)
Lemma matchLoop_more_fuel content lines p :
  forall fuel re issues r,
    matchLoop fuel content lines p re issues = Some r ->
    forall fuel', fuel <= fuel' ->
    matchLoop fuel' content lines p re issues = Some r.
Proof.
  induction fuel as [|fuel IH]; intros re issues r H fuel' Hle; simpl in H.
  - discriminate.
  - destruct fuel' as [|fuel']; [lia|]. simpl.
    destruct (exec re content) as [[m|] re']; [|exact H].
    eapply IH; [exact H|lia].
Qed.

(** The issues collected before an iteration stay at the head of the result. *)
Lemma matchLoop_acc content lines p :
  forall fuel re issues,
    matchLoop fuel content lines p re issues =
    match matchLoop fuel content lines p re [] with
    | Some (out, re') => Some (issues ++ out, re')
    | None => None
    end.
Proof.
  induction fuel as [|fuel IH]; intros re issues; simpl.
  - reflexivity.
  - destruct (exec re content) as [[m|] re'].
    + rewrite IH. rewrite (IH re' (push [] _)).
      destruct (matchLoop fuel content lines p re' []) as [[out re'']|]; [|reflexivity].
      destruct (locate content lines p (index m)); simpl.
      * rewrite <- app_assoc. reflexivity.
      * reflexivity.
    + rewrite app_nil_r. reflexivity.
Qed.

(** The loop keeps the pattern and the flags of the RegExp. *)
Lemma matchLoop_sameRegExp content lines p :
  forall fuel re issues out re',
    matchLoop fuel content lines p re issues = Some (out, re') ->
    sameRegExp re re'.
Proof.
  induction fuel as [|fuel IH]; intros re issues out re' H; simpl in H.
  - discriminate.
  - destruct (exec re content) as [[m|] re1] eqn:He.
    + apply exec_sameRegExp in He. apply IH in H.
      eapply sameRegExp_trans; eassumption.
    + apply exec_sameRegExp in He. inversion H; subst. exact He.
Qed.

(** Every issue of the result was there before or is the issue built for
    a match. *)
Lemma matchLoop_issues content lines p :
  forall fuel re issues out re',
    matchLoop fuel content lines p re issues = Some (out, re') ->
    forall i, In i out ->
    In i issues \/ exists index, locate content lines p index = Some i.
Proof.
  induction fuel as [|fuel IH]; intros re issues out re' H i Hi; simpl in H.
  - discriminate.
  - destruct (exec re content) as [[m|] re1].
    + destruct (IH _ _ _ _ H i Hi) as [Hin|Hex]; [|right; exact Hex].
      destruct (locate content lines p (index m)) eqn:Hl; simpl in Hin.
      * apply in_app_or in Hin. destruct Hin as [Hin|[Heq|[]]].
        -- left; exact Hin.
        -- subst. right. exists (index m). exact Hl.
      * left; exact Hin.
    + inversion H; subst. left; exact Hi.
Qed.

(** With an advancing RegExp the loop ends: every match moves [lastIndex]
    forward, and no search starts beyond the end of the content. *)
Lemma matchLoop_terminates content lines p :
  forall fuel re issues,
    advancing re = true ->
    (List.length content + 1 - Z.to_nat (lastIndex re)) + 1 <= fuel ->
    exists out re', matchLoop fuel content lines p re issues = Some (out, re').
Proof.
  induction fuel as [|fuel IH]; intros re issues Hadv Hfuel.
  - lia.
  - simpl. destruct (exec re content) as [[m|] re'] eqn:He.
    + pose proof (exec_advances _ _ Hadv He) as [Hle [Hlt [_ [Hs [Hg Hi]]]]].
      apply IH.
      * rewrite (sameRegExp_advancing (R := re)); [exact Hadv|].
        repeat split; assumption.
      * lia.
    + eauto.
Qed.

Lemma locate_resetRule content lines p index :
  locate content lines (resetRule p) index = locate content lines p index.
Proof. reflexivity. Qed.

Lemma matchLoop_resetRule content lines p :
  forall fuel re issues,
    matchLoop fuel content lines (resetRule p) re issues =
    matchLoop fuel content lines p re issues.
Proof.
  induction fuel as [|fuel IH]; intros re issues; simpl.
  - reflexivity.
  - destruct (exec re content) as [[m|] re']; [|reflexivity].
    rewrite locate_resetRule. apply IH.
Qed.

(** [findPatternMatches] rewinds the RegExp first: what an earlier scan
    left in [lastIndex] has no effect. *)
Lemma findPatternMatches_resetRule fuel content lines p :
  findPatternMatches fuel content lines (resetRule p) =
  findPatternMatches fuel content lines p.
Proof.
  unfold findPatternMatches. rewrite matchLoop_resetRule. reflexivity.
Qed.

Lemma findPatternMatches_state fuel content lines p1 p2 :
  resetRule p1 = resetRule p2 ->
  findPatternMatches fuel content lines p1 = findPatternMatches fuel content lines p2.
Proof.
  intros H. rewrite <- (findPatternMatches_resetRule fuel content lines p1).
  rewrite <- (findPatternMatches_resetRule fuel content lines p2).
  rewrite H. reflexivity.
Qed.

Lemma findPatternMatches_keeps_rule fuel content lines p matches p' :
  findPatternMatches fuel content lines p = Some (matches, p') ->
  resetRule p' = resetRule p.
Proof.
  unfold findPatternMatches, bind. intros H.
  destruct (matchLoop _ _ _ _ _ _) as [[out re']|] eqn:Hm; [|discriminate].
  inversion H; subst. apply matchLoop_sameRegExp in Hm.
  unfold resetRule, setPattern. simpl.
  apply sameRegExp_reset in Hm. simpl in Hm.
  unfold setLastIndex in *. simpl in *. inversion Hm. reflexivity.
Qed.

Lemma findPatternMatches_issues fuel content lines p matches p' :
  findPatternMatches fuel content lines p = Some (matches, p') ->
  forall i, In i matches -> exists index, locate content lines p index = Some i.
Proof.
  unfold findPatternMatches, bind. intros H i Hi.
  destruct (matchLoop _ _ _ _ _ _) as [[out re']|] eqn:Hm; [|discriminate].
  inversion H; subst.
  destruct (matchLoop_issues _ _ _ _ _ _ Hm i Hi) as [[]|Hex]. exact Hex.
Qed.

Lemma findPatternMatches_more_fuel fuel fuel' content lines p r :
  findPatternMatches fuel content lines p = Some r ->
  fuel <= fuel' ->
  findPatternMatches fuel' content lines p = Some r.
Proof.
  unfold findPatternMatches, bind. intros H Hle.
  destruct (matchLoop fuel _ _ _ _ _) as [[out re']|] eqn:Hm; [|discriminate].
  rewrite (matchLoop_more_fuel _ _ _ _ _ Hm Hle). exact H.
Qed.

Lemma findPatternMatches_terminates fuel content lines p :
  advancing (pattern p) = true ->
  fuelForContent content <= fuel ->
  exists matches p', findPatternMatches fuel content lines p = Some (matches, p').
Proof.
  intros Hadv Hfuel. unfold findPatternMatches, bind.
  destruct (@matchLoop_terminates content lines p fuel
              (setLastIndex (pattern p) 0) []) as [out [re' H]].
  - exact Hadv.
  - unfold fuelForContent in Hfuel. simpl. lia.
  - rewrite H. eauto.
Qed.

End ScannerFacts.

(** ** Facts about the file scanner and the orchestrator *)

Module ScanFacts.
Import RegExp RegExpMeasure RegExpFacts VulnerabilityPattern SecurityScanner.
Import ScannerState ScannerFacts.

Lemma allAdvancing_reset ps : allAdvancing (map resetRule ps) -> allAdvancing ps.
Proof.
  unfold allAdvancing. rewrite Forall_map. apply Forall_impl.
  intros p H. exact H.
Qed.

Lemma catalog_advancing : allAdvancing Catalog.initializePatterns.
Proof. unfold allAdvancing. repeat constructor. Qed.

Lemma ofCatalog_advancing ps : ofCatalog ps -> allAdvancing ps.
Proof.
  unfold ofCatalog. intros H. apply allAdvancing_reset. rewrite H.
  exact catalog_advancing.
Qed.

Lemma cons_eq_both (A : Type) (a b : A) (l l' : list A) :
  a :: l = b :: l' -> a = b /\ l = l'.
Proof. intros H. inversion H. split; reflexivity. Qed.

(** *** [scanRules] *)

Lemma acceptsArguments_weaken (limit limit' : positive) (n : nat) :
  (limit <= limit')%positive ->
  acceptsArguments limit n = true -> acceptsArguments limit' n = true.
Proof.
  unfold acceptsArguments. intros Hle H.
  apply Z.leb_le in H. apply Z.leb_le. lia.
Qed.

Lemma pushAll_Returned (A : Type) (limit : positive) (array items out : list A) :
  pushAll limit array items = Returned out ->
  acceptsArguments limit (List.length items) = true /\ out = array ++ items.
Proof.
  unfold pushAll. destruct (acceptsArguments _ _); intros H; inversion H.
  split; reflexivity.
Qed.

Lemma pushAll_Thrown (A : Type) (limit : positive) (array items : list A) error :
  pushAll limit array items = Thrown error ->
  acceptsArguments limit (List.length items) = false.
Proof.
  unfold pushAll. destruct (acceptsArguments _ _); intros H; [discriminate|reflexivity].
Qed.

Lemma scanRules_state fuel limit content lines fp rp :
  forall ps1 ps2 issues,
    map resetRule ps1 = map resetRule ps2 ->
    match scanRules fuel limit content lines fp rp ps1 issues,
          scanRules fuel limit content lines fp rp ps2 issues with
    | Some (o1, l1, s1), Some (o2, l2, s2) =>
        o1 = o2 /\ l1 = l2 /\ map resetRule s1 = map resetRule s2
    | None, None => True
    | _, _ => False
    end.
Proof.
  induction ps1 as [|p1 ps1 IH]; intros [|p2 ps2] issues H;
    try discriminate; [simpl; auto|].
  apply cons_eq_both in H. destruct H as [Hp Hps]. simpl.
  rewrite (findPatternMatches_state fuel content lines Hp).
  unfold bind.
  destruct (findPatternMatches fuel content lines p2) as [[ms q]|]; [|exact I].
  destruct (pushAll limit issues _) as [issues'|err].
  - specialize (IH ps2 issues' Hps).
    destruct (scanRules fuel limit content lines fp rp ps1 issues') as [[[o1 l1] s1]|];
      destruct (scanRules fuel limit content lines fp rp ps2 issues') as [[[o2 l2] s2]|];
      try contradiction; [|exact I].
    destruct IH as [Ho [Hl Hs]]. repeat split; try assumption.
    simpl. f_equal. exact Hs.
  - repeat split. simpl. f_equal. exact Hps.
Qed.

Lemma scanRules_keeps_rules fuel limit content lines fp rp :
  forall ps issues out how ps',
    scanRules fuel limit content lines fp rp ps issues = Some (out, how, ps') ->
    map resetRule ps' = map resetRule ps.
Proof.
  induction ps as [|p ps IH]; intros issues out how ps' H; simpl in H.
  - inversion H; subst. reflexivity.
  - unfold bind in H.
    destruct (findPatternMatches fuel content lines p) as [[ms p']|] eqn:Hf;
      [|discriminate].
    destruct (pushAll limit issues _) as [issues'|err].
    + destruct (scanRules _ _ _ _ _ _ ps _) as [[[out' how'] rest']|] eqn:Hr;
        [|discriminate].
      inversion H; subst. simpl.
      rewrite (findPatternMatches_keeps_rule _ _ _ _ Hf).
      rewrite (IH _ _ _ _ Hr). reflexivity.
    + inversion H; subst. simpl.
      rewrite (findPatternMatches_keeps_rule _ _ _ _ Hf). reflexivity.
Qed.

Lemma scanRules_terminates fuel limit content lines fp rp :
  fuelForContent content <= fuel ->
  forall ps issues,
    allAdvancing ps ->
    exists out how ps',
      scanRules fuel limit content lines fp rp ps issues = Some (out, how, ps').
Proof.
  intros Hfuel. induction ps as [|p ps IH]; intros issues Hadv; simpl.
  - eauto.
  - inversion Hadv as [|? ? Hp Hps]; subst.
    destruct (@findPatternMatches_terminates fuel content lines p Hp Hfuel)
      as [ms [p' Hf]].
    rewrite Hf. simpl.
    destruct (pushAll limit issues _) as [issues'|err]; [|eauto].
    destruct (IH issues' Hps) as [out [how [ps' Hr]]].
    rewrite Hr. simpl. eauto.
Qed.

Lemma scanRules_more_fuel fuel fuel' limit content lines fp rp :
  fuel <= fuel' ->
  forall ps issues r,
    scanRules fuel limit content lines fp rp ps issues = Some r ->
    scanRules fuel' limit content lines fp rp ps issues = Some r.
Proof.
  intros Hle. induction ps as [|p ps IH]; intros issues r H; simpl in *.
  - exact H.
  - unfold bind in *.
    destruct (findPatternMatches fuel content lines p) as [[ms p']|] eqn:Hf;
      [|discriminate].
    rewrite (findPatternMatches_more_fuel _ _ _ Hf Hle).
    destruct (pushAll limit issues _) as [issues'|err]; [|exact H].
    destruct (scanRules fuel _ _ _ _ _ ps _) as [[[out' how'] rest']|] eqn:Hr;
      [|discriminate].
    rewrite (IH _ _ Hr). exact H.
Qed.

(** A loop that ran to its end runs the same with an engine that takes
    more arguments. *)
Lemma scanRules_more_arguments fuel limit limit' content lines fp rp :
  (limit <= limit')%positive ->
  forall ps issues out ps',
    scanRules fuel limit content lines fp rp ps issues = Some (out, Returned tt, ps') ->
    scanRules fuel limit' content lines fp rp ps issues = Some (out, Returned tt, ps').
Proof.
  intros Hle. induction ps as [|p ps IH]; intros issues out ps' H; simpl in *.
  - exact H.
  - unfold bind in *.
    destruct (findPatternMatches fuel content lines p) as [[ms p']|] eqn:Hf;
      [|discriminate].
    destruct (pushAll limit issues _) as [issues'|err] eqn:Hpush; [|discriminate].
    apply pushAll_Returned in Hpush. destruct Hpush as [Hacc Hiss].
    unfold pushAll. rewrite (acceptsArguments_weaken _ Hle Hacc). rewrite <- Hiss.
    destruct (scanRules fuel limit _ _ _ _ ps _) as [[[out' how'] rest']|] eqn:Hr;
      [|discriminate].
    inversion H; subst out' how' ps'.
    rewrite (IH _ _ _ Hr). reflexivity.
Qed.

(** Every issue of a file is built by [locate] for a rule of the scanner
    and carries the paths of the file. *)
Lemma scanRules_issues fuel limit content lines fp rp :
  forall ps issues out how ps',
    scanRules fuel limit content lines fp rp ps issues = Some (out, how, ps') ->
    forall i, In i out ->
    In i issues \/
    exists p index m, In p ps /\ locate content lines p index = Some m
                      /\ i = SecurityIssue.mk m fp rp.
Proof.
  induction ps as [|p ps IH]; intros issues out how ps' H i Hi; simpl in H.
  - inversion H; subst. left; exact Hi.
  - unfold bind in H.
    destruct (findPatternMatches fuel content lines p) as [[ms p']|] eqn:Hf;
      [|discriminate].
    destruct (pushAll limit issues _) as [issues'|err] eqn:Hpush.
    + apply pushAll_Returned in Hpush. destruct Hpush as [_ Hiss]. subst issues'.
      destruct (scanRules _ _ _ _ _ _ ps _) as [[[out' how'] rest']|] eqn:Hr;
        [|discriminate].
      inversion H; subst.
      destruct (IH _ _ _ _ Hr i Hi) as [Hin|[q [index [m [Hq [Hl He]]]]]].
      * apply in_app_or in Hin. destruct Hin as [Hin|Hin]; [left; exact Hin|].
        apply in_map_iff in Hin. destruct Hin as [m [He Hm]].
        destruct (findPatternMatches_issues _ _ _ _ Hf m Hm) as [index Hl].
        right. exists p, index, m. repeat split; auto. left; reflexivity.
      * right. exists q, index, m. repeat split; auto. right; exact Hq.
    + inversion H; subst. left; exact Hi.
Qed.

(** *** [scanFile] *)

(** [scanFile] catches whatever its [try] block throws: it never throws
    itself. *)
Lemma scanFile_never_throws fuel host ps fp rp r ps' :
  scanFile fuel host ps fp rp = Some (r, ps') -> exists issues, r = Returned issues.
Proof.
  unfold scanFile, bind. intros H.
  destruct (readFile host fp) as [content|err].
  - destruct (scanRules _ _ _ _ _ _ _ _) as [[[out how] ps1]|]; [|discriminate].
    inversion H; subst. eauto.
  - inversion H; subst. eauto.
Qed.

Lemma scanFile_unreadable fuel host ps fp rp err :
  readFile host fp = Thrown err ->
  scanFile fuel host ps fp rp = Some (Returned [], ps).
Proof. unfold scanFile. intros H. rewrite H. reflexivity. Qed.

Lemma scanFile_state fuel host ps1 ps2 fp rp :
  map resetRule ps1 = map resetRule ps2 ->
  match scanFile fuel host ps1 fp rp, scanFile fuel host ps2 fp rp with
  | Some (r1, ps1'), Some (r2, ps2') => r1 = r2 /\ map resetRule ps1' = map resetRule ps2'
  | None, None => True
  | _, _ => False
  end.
Proof.
  intros H. unfold scanFile, bind.
  destruct (readFile host fp) as [content|err].
  - pose proof (scanRules_state fuel (maxArguments host) content (split content LF)
                  fp rp ps1 ps2 [] H) as Hst.
    destruct (scanRules _ _ _ _ _ _ ps1 _) as [[[o1 l1] s1]|];
      destruct (scanRules _ _ _ _ _ _ ps2 _) as [[[o2 l2] s2]|];
      try contradiction; [|exact I].
    destruct Hst as [Ho [_ Hs]]. subst o2. split; [reflexivity|exact Hs].
  - split; [reflexivity|exact H].
Qed.

Lemma scanFile_keeps_rules fuel host ps fp rp r ps' :
  scanFile fuel host ps fp rp = Some (r, ps') ->
  map resetRule ps' = map resetRule ps.
Proof.
  unfold scanFile, bind. intros H.
  destruct (readFile host fp) as [content|err].
  - destruct (scanRules _ _ _ _ _ _ _ _) as [[[out how] ps1]|] eqn:Hr; [|discriminate].
    inversion H; subst. eapply scanRules_keeps_rules; eassumption.
  - inversion H; subst. reflexivity.
Qed.

Lemma scanFile_terminates fuel host ps fp rp :
  allAdvancing ps ->
  (forall content, readFile host fp = Returned content -> fuelForContent content <= fuel) ->
  exists issues ps', scanFile fuel host ps fp rp = Some (Returned issues, ps').
Proof.
  intros Hadv Hfuel. unfold scanFile, bind.
  destruct (readFile host fp) as [content|err].
  - destruct (@scanRules_terminates fuel (maxArguments host) content (split content LF)
                fp rp (Hfuel content eq_refl) ps [] Hadv) as [out [how [ps' Hr]]].
    rewrite Hr. eauto.
  - eauto.
Qed.

Lemma scanFile_more_fuel fuel fuel' host ps fp rp r :
  fuel <= fuel' ->
  scanFile fuel host ps fp rp = Some r ->
  scanFile fuel' host ps fp rp = Some r.
Proof.
  intros Hle. unfold scanFile, bind.
  destruct (readFile host fp) as [content|err]; [|auto].
  destruct (scanRules fuel _ _ _ _ _ _ _) as [[[out how] ps1]|] eqn:Hr; [|discriminate].
  rewrite (scanRules_more_fuel _ _ _ _ _ Hle _ _ Hr). auto.
Qed.

Lemma scanFile_issues fuel host ps fp rp issues ps' :
  scanFile fuel host ps fp rp = Some (Returned issues, ps') ->
  forall i, In i issues ->
  exists content p index m,
    readFile host fp = Returned content /\ In p ps
    /\ locate content (split content LF) p index = Some m
    /\ i = SecurityIssue.mk m fp rp.
Proof.
  unfold scanFile, bind. intros H i Hi.
  destruct (readFile host fp) as [content|err].
  - destruct (scanRules _ _ _ _ _ _ _ _) as [[[out how] ps1]|] eqn:Hr; [|discriminate].
    inversion H; subst.
    destruct (scanRules_issues _ _ _ _ _ _ _ _ Hr i Hi)
      as [[]|[p [index [m [Hp [Hl He]]]]]].
    exists content, p, index, m. auto.
  - inversion H; subst. destruct Hi.
Qed.

End ScanFacts.

(** ** Facts about the loop over the files *)

Module WorkspaceFacts.
Import RegExp RegExpMeasure VulnerabilityPattern SecurityScanner.
Import ScannerState ScannerFacts ScanFacts.

Local Open Scope Z_scope.

Lemma allAdvancing_same ps ps' :
  map resetRule ps' = map resetRule ps -> allAdvancing ps -> allAdvancing ps'.
Proof.
  intros H Hadv. apply allAdvancing_reset. rewrite H.
  unfold allAdvancing in *. rewrite Forall_map.
  revert Hadv. apply Forall_impl. intros p Hp. exact Hp.
Qed.

(** The counter goes up at most once per file of the list. *)
Lemma scanFiles_count fuel host :
  forall files ps issues n out n' ps',
    scanFiles fuel host ps files issues n = Some (out, n', ps') ->
    n <= n' <= n + Z.of_nat (List.length files).
Proof.
  induction files as [|f files IH]; intros ps issues n out n' ps' H; simpl in H.
  - inversion H; subst. simpl. lia.
  - unfold bind in H.
    destruct (scanFile fuel host ps (filePath f) (relativePath f)) as [[r ps1]|] eqn:Hf;
      [|discriminate].
    simpl List.length.
    destruct r as [fileIssues|err];
      [destruct (pushAll (maxArguments host) issues fileIssues) as [issues'|err]|];
      apply IH in H; lia.
Qed.

Lemma scanFiles_keeps_rules fuel host :
  forall files ps issues n out n' ps',
    scanFiles fuel host ps files issues n = Some (out, n', ps') ->
    map resetRule ps' = map resetRule ps.
Proof.
  induction files as [|f files IH]; intros ps issues n out n' ps' H; simpl in H.
  - inversion H; subst. reflexivity.
  - unfold bind in H.
    destruct (scanFile fuel host ps (filePath f) (relativePath f)) as [[r ps1]|] eqn:Hf;
      [|discriminate].
    apply scanFile_keeps_rules in Hf.
    destruct r as [fileIssues|err];
      [destruct (pushAll (maxArguments host) issues fileIssues) as [issues'|err]|];
      apply IH in H; congruence.
Qed.

(** The issues and the counter do not depend on the [lastIndex] values the
    rules start with. *)
Lemma scanFiles_state fuel host :
  forall files ps1 ps2 issues n,
    map resetRule ps1 = map resetRule ps2 ->
    match scanFiles fuel host ps1 files issues n,
          scanFiles fuel host ps2 files issues n with
    | Some (o1, n1, s1), Some (o2, n2, s2) =>
        o1 = o2 /\ n1 = n2 /\ map resetRule s1 = map resetRule s2
    | None, None => True
    | _, _ => False
    end.
Proof.
  induction files as [|f files IH]; intros ps1 ps2 issues n H; simpl.
  - auto.
  - pose proof (scanFile_state fuel host ps1 ps2 (filePath f) (relativePath f) H) as Hf.
    unfold bind.
    destruct (scanFile fuel host ps1 _ _) as [[r1 s1]|];
      destruct (scanFile fuel host ps2 _ _) as [[r2 s2]|]; try contradiction; [|exact I].
    destruct Hf as [Hr Hs]. subst r2.
    destruct r1 as [fileIssues|err];
      [destruct (pushAll (maxArguments host) issues fileIssues) as [issues'|err]|];
      apply IH; exact Hs.
Qed.

Lemma scanFiles_terminates fuel host :
  forall files ps issues n,
    allAdvancing ps ->
    (fuelFor host files <= fuel)%nat ->
    exists out n' ps', scanFiles fuel host ps files issues n = Some (out, n', ps').
Proof.
  induction files as [|f files IH]; intros ps issues n Hadv Hfuel; simpl.
  - eauto.
  - simpl in Hfuel.
    destruct (@scanFile_terminates fuel host ps (filePath f) (relativePath f) Hadv)
      as [fileIssues [ps1 Hf]].
    + intros content Hc. rewrite Hc in Hfuel. lia.
    + rewrite Hf. simpl.
      assert (Hadv1 : allAdvancing ps1).
      { eapply allAdvancing_same; [|exact Hadv].
        eapply scanFile_keeps_rules; eassumption. }
      destruct (pushAll (maxArguments host) issues fileIssues) as [issues'|err];
        apply IH; solve [exact Hadv1 | lia].
Qed.

Lemma scanFiles_more_fuel fuel fuel' host :
  (fuel <= fuel')%nat ->
  forall files ps issues n r,
    scanFiles fuel host ps files issues n = Some r ->
    scanFiles fuel' host ps files issues n = Some r.
Proof.
  intros Hle. induction files as [|f files IH]; intros ps issues n r H; simpl in *.
  - exact H.
  - unfold bind in *.
    destruct (scanFile fuel host ps _ _) as [[r1 ps1]|] eqn:Hf; [|discriminate].
    rewrite (scanFile_more_fuel _ _ _ _ Hle Hf).
    destruct r1 as [fileIssues|err];
      [destruct (pushAll (maxArguments host) issues fileIssues) as [issues'|err]|];
      apply IH; exact H.
Qed.

Lemma scanFiles_issues fuel host :
  forall files ps issues n out n' ps',
    scanFiles fuel host ps files issues n = Some (out, n', ps') ->
    forall i, In i out -> In i issues \/ issueOrigin host ps files i.
Proof.
  induction files as [|f files IH]; intros ps issues n out n' ps' H i Hi; simpl in H.
  - inversion H; subst. left; exact Hi.
  - unfold bind in H.
    destruct (scanFile fuel host ps (filePath f) (relativePath f)) as [[r ps1]|] eqn:Hf;
      [|discriminate].
    destruct (scanFile_never_throws _ _ _ _ _ Hf) as [fileIssues Hr]. subst r.
    pose proof (scanFile_keeps_rules _ _ _ _ _ Hf) as Hkeep.
    assert (Hlater : issueOrigin host ps1 files i -> issueOrigin host ps (f :: files) i).
    { intros [g [content [p [index [m [Hg [Hread [Hp [Hl He]]]]]]]]].
      exists g, content, p, index, m. repeat split; auto.
      - right; exact Hg.
      - rewrite <- Hkeep. exact Hp. }
    destruct (pushAll (maxArguments host) issues fileIssues) as [issues'|err] eqn:Hpush.
    + apply pushAll_Returned in Hpush. destruct Hpush as [_ Hiss]. subst issues'.
      destruct (IH _ _ _ _ _ _ H i Hi) as [Hin|Ho]; [|right; exact (Hlater Ho)].
      apply in_app_or in Hin. destruct Hin as [Hin|Hin]; [left; exact Hin|].
      destruct (scanFile_issues _ _ _ _ _ Hf i Hin)
        as [content [p [index [m [Hread [Hp [Hl He]]]]]]].
      right. exists f, content, (resetRule p), index, m.
      repeat split; auto.
      * left; reflexivity.
      * apply in_map. exact Hp.
    + destruct (IH _ _ _ _ _ _ H i Hi) as [Hin|Ho];
        [left; exact Hin|right; exact (Hlater Ho)].
Qed.

(** *** [scanWorkspace] *)

Lemma scanWorkspace_inv fuel host clock ps files r ps' :
  scanWorkspace fuel host clock ps files = Some (r, ps') ->
  exists issues n,
    scanFiles fuel host ps (filter (isJsTs host) files) [] 0 = Some (issues, n, ps')
    /\ r = SecurityScanResult.mk issues n
             (Z.of_nat (List.length issues))
             (countSeverity Severity.critical issues)
             (countSeverity Severity.high issues)
             (countSeverity Severity.medium issues)
             (countSeverity Severity.low issues)
             (endTime clock - startTime clock) (now clock).
Proof.
  unfold scanWorkspace, bind. intros H.
  destruct (scanFiles _ _ _ _ _ _) as [[[issues n] ps1]|]; [|discriminate].
  inversion H; subst. eauto.
Qed.

Lemma fuelFor_filter host (keep : ProjectFile -> bool) files :
  (fuelFor host (filter keep files) <= fuelFor host files)%nat.
Proof.
  induction files as [|f files IH]; simpl; [lia|].
  destruct (keep f); simpl; lia.
Qed.

Lemma scanWorkspace_terminates fuel host clock ps files :
  allAdvancing ps ->
  (fuelFor host files <= fuel)%nat ->
  exists r ps', scanWorkspace fuel host clock ps files = Some (r, ps').
Proof.
  intros Hadv Hfuel. unfold scanWorkspace, bind.
  destruct (@scanFiles_terminates fuel host (filter (isJsTs host) files) ps [] 0 Hadv)
    as [out [n [ps' H]]].
  - pose proof (fuelFor_filter host (isJsTs host) files). lia.
  - rewrite H. eauto.
Qed.

End WorkspaceFacts.

(* ================================================================== *)
(** ** Facts about the string built-ins *)

Module JSFacts.

Lemma substring_prefix (s : jsstring) (c : Z) :
  substring s 0 c = firstn (Z.to_nat c) s.
Proof.
  unfold substring, clamp. simpl Z.to_nat.
  rewrite Nat.min_0_l, Nat.min_0_l, Nat.max_0_l, Nat.sub_0_r. simpl skipn.
  destruct (Nat.le_ge_cases (Z.to_nat c) (List.length s)) as [H|H].
  - rewrite Nat.min_l by exact H. reflexivity.
  - rewrite Nat.min_r by exact H.
    rewrite firstn_all. symmetry. apply firstn_all2. exact H.
Qed.

Lemma isPrefixOf_length (p s : jsstring) :
  isPrefixOf p s = true -> (List.length p <= List.length s)%nat.
Proof.
  revert s. induction p as [|a p IH]; intros [|b s] H; simpl in *; try lia.
  apply andb_true_iff in H. destruct H as [_ H]. apply IH in H. lia.
Qed.

Lemma isPrefixOf_firstn (p : jsstring) :
  forall s k,
    isPrefixOf p (firstn k s) = true <->
    isPrefixOf p s = true /\ (List.length p <= k)%nat.
Proof.
  induction p as [|a p IH]; intros s k.
  - simpl. split; [intros _; split; [reflexivity|lia]|reflexivity].
  - destruct s as [|b s].
    + rewrite firstn_nil. simpl. split; [discriminate|intros [H _]; discriminate].
    + destruct k as [|k]; simpl.
      * split; [discriminate|intros [_ H]; lia].
      * rewrite !andb_true_iff, IH. split.
        -- intros [H1 [H2 H3]]. repeat split; auto. lia.
        -- intros [[H1 H2] H3]. repeat split; auto. lia.
Qed.

(** An occurrence in a prefix of [s] is an occurrence in [s] that ends
    within the prefix. *)
Lemma occurs_at_firstn (needle s : jsstring) (k i : nat) :
  occurs_at needle (firstn k s) i <->
  occurs_at needle s i /\ (i + List.length needle <= k)%nat.
Proof.
  unfold occurs_at. rewrite skipn_firstn_comm, isPrefixOf_firstn, length_firstn.
  split.
  - intros [[H1 H2] H3]. repeat split; auto; lia.
  - intros [[H1 H2] H3]. repeat split; auto; lia.
Qed.

Lemma occurs_at_cons (needle : jsstring) (c : N) (s : jsstring) (i : nat) :
  occurs_at needle (c :: s) (S i) <-> occurs_at needle s i.
Proof. unfold occurs_at. simpl. split; intros [H1 H2]; split; auto; lia. Qed.

Lemma occurs_at_head (needle s : jsstring) :
  occurs_at needle s 0 <-> isPrefixOf needle s = true.
Proof.
  unfold occurs_at. simpl. split.
  - intros [H _]; exact H.
  - intros H. split; [exact H|apply isPrefixOf_length; exact H].
Qed.

Lemma occurs_at_nil (needle : jsstring) (i : nat) :
  occurs_at needle [] i -> i = 0%nat /\ needle = [].
Proof.
  unfold occurs_at. simpl. intros [_ H].
  destruct needle; simpl in H; [split; [lia|reflexivity]|lia].
Qed.

(** [indexOf]: the least occurrence, or -1 when there is none. *)
Lemma indexOf_from_spec (needle : jsstring) :
  forall s i0,
    (exists k, indexOf_from s needle i0 = (i0 + Z.of_nat k)%Z
               /\ occurs_at needle s k
               /\ forall j, occurs_at needle s j -> (k <= j)%nat)
    \/ (indexOf_from s needle i0 = (-1)%Z /\ forall j, ~ occurs_at needle s j).
Proof.
  induction s as [|c s IH]; intros i0; simpl.
  - destruct (isPrefixOf needle []) eqn:Hp.
    + left. exists 0%nat. split; [|split].
      * lia.
      * apply occurs_at_head. exact Hp.
      * intros; lia.
    + right. split; [reflexivity|]. intros j Hj.
      apply occurs_at_nil in Hj. destruct Hj as [_ Hn]. subst needle. discriminate.
  - destruct (isPrefixOf needle (c :: s)) eqn:Hp.
    + left. exists 0%nat. split; [|split].
      * lia.
      * apply occurs_at_head. exact Hp.
      * intros; lia.
    + destruct (IH (i0 + 1)%Z) as [[k [Hk [Hocc Hmin]]]|[Hk Hnone]].
      * left. exists (S k). split; [|split].
        -- rewrite Hk. lia.
        -- apply occurs_at_cons. exact Hocc.
        -- intros [|j] Hj.
           ++ apply occurs_at_head in Hj. congruence.
           ++ apply occurs_at_cons in Hj. apply Hmin in Hj. lia.
      * right. split; [exact Hk|]. intros [|j] Hj.
        -- apply occurs_at_head in Hj. congruence.
        -- apply occurs_at_cons in Hj. exact (Hnone j Hj).
Qed.

(** [lastIndexOf]: the greatest occurrence, or -1 when there is none. *)
Lemma lastIndexOf_from_spec (needle : jsstring) :
  forall s i0,
    (0 <= i0)%Z ->
    (exists k, lastIndexOf_from s needle i0 = (i0 + Z.of_nat k)%Z
               /\ occurs_at needle s k
               /\ forall j, occurs_at needle s j -> (j <= k)%nat)
    \/ (lastIndexOf_from s needle i0 = (-1)%Z /\ forall j, ~ occurs_at needle s j).
Proof.
  induction s as [|c s IH]; intros i0 Hi0; simpl.
  - destruct (isPrefixOf needle []) eqn:Hp.
    + left. exists 0%nat. split; [|split].
      * lia.
      * apply occurs_at_head. exact Hp.
      * intros j Hj. apply occurs_at_nil in Hj. lia.
    + right. split; [reflexivity|]. intros j Hj.
      apply occurs_at_nil in Hj. destruct Hj as [_ Hn]. subst needle. discriminate.
  - destruct (IH (i0 + 1)%Z ltac:(lia)) as [[k [Hk [Hocc Hmax]]]|[Hk Hnone]].
    + rewrite Hk.
      destruct (0 <=? i0 + 1 + Z.of_nat k)%Z eqn:Hge; [|apply Z.leb_gt in Hge; lia].
      left. exists (S k). split; [|split].
      * lia.
      * apply occurs_at_cons. exact Hocc.
      * intros [|j] Hj; [lia|]. apply occurs_at_cons in Hj. apply Hmax in Hj. lia.
    + rewrite Hk. simpl.
      destruct (isPrefixOf needle (c :: s)) eqn:Hp.
      * left. exists 0%nat. split; [|split].
        -- lia.
        -- apply occurs_at_head. exact Hp.
        -- intros [|j] Hj; [lia|]. apply occurs_at_cons in Hj.
           exfalso. exact (Hnone j Hj).
      * right. split; [reflexivity|]. intros [|j] Hj.
        -- apply occurs_at_head in Hj. congruence.
        -- apply occurs_at_cons in Hj. exact (Hnone j Hj).
Qed.

Lemma indexOf_spec (s needle : jsstring) :
  (exists k, indexOf s needle = Z.of_nat k
             /\ occurs_at needle s k
             /\ forall j, occurs_at needle s j -> (k <= j)%nat)
  \/ (indexOf s needle = (-1)%Z /\ forall j, ~ occurs_at needle s j).
Proof.
  unfold indexOf. destruct (indexOf_from_spec needle s 0) as [[k [Hk H]]|H].
  - left. exists k. split; [rewrite Hk; lia|exact H].
  - right. exact H.
Qed.

Lemma lastIndexOf_spec (s needle : jsstring) :
  (exists k, lastIndexOf s needle = Z.of_nat k
             /\ occurs_at needle s k
             /\ forall j, occurs_at needle s j -> (j <= k)%nat)
  \/ (lastIndexOf s needle = (-1)%Z /\ forall j, ~ occurs_at needle s j).
Proof.
  unfold lastIndexOf.
  destruct (@lastIndexOf_from_spec needle s 0%Z ltac:(lia)) as [[k [Hk H]]|H].
  - left. exists k. split; [rewrite Hk; lia|exact H].
  - right. exact H.
Qed.

End JSFacts.

(* ================================================================== *)
(** ** The comment filter, characterised *)

Module CommentFacts.
Import SecurityScanner CommentMarkers JSFacts.

(** For a marker of two characters, an occurrence in the part of the line
    that [isInComment] looks at is an occurrence strictly before the
    column. *)
Lemma before_substring (mk line : jsstring) (i : nat) (column : Z) :
  List.length mk = 2 ->
  occurs_at mk (substring line 0 column) i <-> before mk line i column.
Proof.
  intros Hlen. rewrite substring_prefix, occurs_at_firstn. unfold before.
  rewrite Hlen. split; intros [H1 H2]; (split; [exact H1|lia]).
Qed.

(** [isInComment] answers true exactly when the line holds [//] strictly
    before the column, or holds before the column a block-comment opener
    that no closer before the column follows. *)
Lemma isInComment_iff (line : jsstring) (column : Z) :
  isInComment line column = true <->
  (exists i, before lineComment line i column) \/ openBlockOnLine line column.
Proof.
  unfold isInComment, openBlockOnLine.
  set (bc := substring line 0 column).
  change (str "//") with lineComment.
  change (str "/*") with blockOpen.
  change (str "*/") with blockClose.
  assert (HL : forall i, occurs_at lineComment bc i <-> before lineComment line i column)
    by (intros i; apply before_substring; reflexivity).
  assert (HO : forall i, occurs_at blockOpen bc i <-> before blockOpen line i column)
    by (intros i; apply before_substring; reflexivity).
  assert (HC : forall i, occurs_at blockClose bc i <-> before blockClose line i column)
    by (intros i; apply before_substring; reflexivity).
  destruct (indexOf_spec bc lineComment) as [[k [Hk [Hocc Hmin]]]|[Hk Hnone]].
  - (* a line comment before the column *)
    rewrite Hk.
    assert (Hb : before lineComment line k column) by (apply HL; exact Hocc).
    destruct Hb as [Hb1 Hb2].
    replace (negb (Z.of_nat k =? -1)%Z) with true
      by (symmetry; apply negb_true_iff, Z.eqb_neq; lia).
    replace (Z.of_nat k <? column)%Z with true
      by (symmetry; apply Z.ltb_lt; lia).
    simpl. split; [intros _|reflexivity].
    left. exists k. split; assumption.
  - rewrite Hk. simpl.
    destruct (lastIndexOf_spec bc blockOpen) as [[o [Ho [Hoocc Homax]]]|[Ho Honone]].
    + rewrite Ho.
      replace (negb (Z.of_nat o =? -1)%Z) with true
        by (symmetry; apply negb_true_iff, Z.eqb_neq; lia).
      simpl.
      destruct (lastIndexOf_spec bc blockClose) as [[c [Hc [Hcocc Hcmax]]]|[Hc Hcnone]].
      * rewrite Hc. destruct (Z.of_nat o >? Z.of_nat c)%Z eqn:Hgt.
        -- split; [intros _|reflexivity]. right. exists o. split.
           ++ apply HO. exact Hoocc.
           ++ intros j Hj. apply HC in Hj. apply Hcmax in Hj.
              apply Z.gtb_lt in Hgt. lia.
        -- split; [discriminate|]. intros [[i Hi]|[i [Hi Hclose]]].
           ++ apply HL in Hi. exfalso. exact (Hnone i Hi).
           ++ apply HO in Hi. apply Homax in Hi.
              assert (Hlt : (c < i)%nat) by (apply Hclose, HC; exact Hcocc).
              assert ((Z.of_nat o >? Z.of_nat c)%Z = true) by (apply Z.gtb_lt; lia).
              congruence.
      * rewrite Hc.
        replace (Z.of_nat o >? -1)%Z with true by (symmetry; apply Z.gtb_lt; lia).
        split; [intros _|reflexivity]. right. exists o. split.
        -- apply HO. exact Hoocc.
        -- intros j Hj. apply HC in Hj. exfalso. exact (Hcnone j Hj).
    + rewrite Ho. simpl. split; [discriminate|].
      intros [[i Hi]|[i [Hi _]]].
      * apply HL in Hi. exfalso. exact (Hnone i Hi).
      * apply HO in Hi. exfalso. exact (Honone i Hi).
Qed.

End CommentFacts.

(* ================================================================== *)
(** ** The properties of the specification *)

Import SecurityScanner ScannerState.

Local Open Scope Z_scope.

Lemma jsstring_eqb_eq (a b : jsstring) : jsstring_eqb a b = true <-> a = b.
Proof.
  revert b. induction a as [|x a IH]; intros [|y b]; simpl;
    try (split; [discriminate|discriminate]); [split; reflexivity|].
  rewrite andb_true_iff, N.eqb_eq, IH. split.
  - intros [H1 H2]; subst; reflexivity.
  - intros H; inversion H; split; reflexivity.
Qed.

Lemma includes_In (l : list jsstring) (s : jsstring) : includes l s = true <-> In s l.
Proof.
  unfold includes. rewrite existsb_exists. split.
  - intros [x [Hin Heq]]. apply jsstring_eqb_eq in Heq. subst. exact Hin.
  - intros H. exists s. split; [exact H|apply jsstring_eqb_eq; reflexivity].
Qed.

(** The four severities split any list of issues. *)
Lemma severity_partition (issues : list SecurityIssue.t) :
  Z.of_nat (List.length issues) =
  countSeverity Severity.critical issues + countSeverity Severity.high issues
  + countSeverity Severity.medium issues + countSeverity Severity.low issues.
Proof.
  unfold countSeverity. induction issues as [|i issues IH]; [reflexivity|].
  simpl filter. destruct (SecurityIssue.severity i); simpl Severity.eqb; cbv iota;
    simpl List.length; lia.
Qed.

(** The counter of a returned result is at most the number of files that
    passed the extension filter. *)
Lemma filesScanned_at_most_listed_files fuel host clock ps files r ps' :
  scanWorkspace fuel host clock ps files = Some (r, ps') ->
  0 <= SecurityScanResult.filesScanned r
    <= Z.of_nat (List.length (filter (isJsTs host) files)).
Proof.
  intros H. apply WorkspaceFacts.scanWorkspace_inv in H.
  destruct H as [issues [n [Hs Hr]]]. subst r. simpl.
  apply WorkspaceFacts.scanFiles_count in Hs. lia.
Qed.

(** C1: in every result the workspace scan returns, totalIssues is the
    length of the issue list, each of the four counts is the number of
    issues of the list with that severity, and the four counts add up to
    totalIssues. *)
Theorem C1_counts_partition_the_issues fuel host clock ps files r ps' :
  scanWorkspace fuel host clock ps files = Some (r, ps') ->
  let issues := SecurityScanResult.issues r in
  let numberOf (is_sev : Severity.t -> bool) :=
    Z.of_nat (List.length (filter (fun i => is_sev (SecurityIssue.severity i)) issues)) in
  SecurityScanResult.totalIssues r = Z.of_nat (List.length issues)
  /\ SecurityScanResult.criticalCount r =
     numberOf (fun s => match s with Severity.critical => true | _ => false end)
  /\ SecurityScanResult.highCount r =
     numberOf (fun s => match s with Severity.high => true | _ => false end)
  /\ SecurityScanResult.mediumCount r =
     numberOf (fun s => match s with Severity.medium => true | _ => false end)
  /\ SecurityScanResult.lowCount r =
     numberOf (fun s => match s with Severity.low => true | _ => false end)
  /\ SecurityScanResult.totalIssues r =
     SecurityScanResult.criticalCount r + SecurityScanResult.highCount r
     + SecurityScanResult.mediumCount r + SecurityScanResult.lowCount r.
Proof.
  intros H. apply WorkspaceFacts.scanWorkspace_inv in H.
  destruct H as [issues [n [_ Hr]]]. subst r. simpl.
  unfold countSeverity.
  repeat split;
    try (f_equal; f_equal; apply filter_ext; intros i;
         destruct (SecurityIssue.severity i); reflexivity).
  apply severity_partition.
Qed.

Lemma C1_counts_partition_the_issues_witness :
  exists r ps',
    scanWorkspace 50 (Samples.hostOf Samples.secretLine) Samples.clock0
      Catalog.initializePatterns [Samples.appJs; Samples.readmeMd] = Some (r, ps')
    /\ SecurityScanResult.totalIssues r = 1
    /\ SecurityScanResult.criticalCount r = 1
    /\ SecurityScanResult.totalIssues r =
       SecurityScanResult.criticalCount r + SecurityScanResult.highCount r
       + SecurityScanResult.mediumCount r + SecurityScanResult.lowCount r.
Proof.
  destruct (scanWorkspace 50 (Samples.hostOf Samples.secretLine) Samples.clock0
              Catalog.initializePatterns [Samples.appJs; Samples.readmeMd])
    as [[r ps']|] eqn:E; [|vm_compute in E; discriminate].
  exists r, ps'. split; [reflexivity|].
  pose proof (C1_counts_partition_the_issues _ _ _ _ _ E) as H.
  cbv zeta in H. destruct H as [Ht [Hc [_ [_ [_ Hsum]]]]].
  assert (Hr : SecurityScanResult.totalIssues r = 1 /\ SecurityScanResult.criticalCount r = 1).
  { vm_compute in E. inversion E. split; reflexivity. }
  destruct Hr as [H1 H2]. repeat split; assumption.
Defined.

(** C2: the risk classifier returns the level of the first clause of the
    decision table that applies, the clauses taken in the order CRITICAL,
    HIGH, MEDIUM, LOW, and CLEAN when none applies. *)
Theorem C2_risk_level_is_first_matching_clause (r : SecurityScanResult.t) :
  calculateRiskLevel r = DecisionTable.classify r.
Proof.
  unfold calculateRiskLevel, DecisionTable.classify, DecisionTable.clauses.
  simpl.
  destruct (SecurityScanResult.criticalCount r >? 0); [reflexivity|].
  destruct (SecurityScanResult.highCount r >=? 5); [reflexivity|].
  destruct ((SecurityScanResult.highCount r >? 0)
            || (SecurityScanResult.mediumCount r >=? 10)); [reflexivity|].
  destruct ((SecurityScanResult.mediumCount r >? 0)
            || (SecurityScanResult.lowCount r >? 0)); reflexivity.
Qed.

(** C3, as the code has it: a file whose read fails is still counted.
    [scanFile] catches the failure and returns no issue, so the
    orchestrator's own [catch] is not reached and the counter goes up.
    In a workspace of an unreadable file followed by a readable one the
    scan goes on to the second file and returns a result, with the one
    issue of the second file, and with filesScanned 2, not 1. *)
Theorem C3_unreadable_file_is_counted :
  exists r ps',
    readFile (Samples.hostWithBroken Samples.secretLine)
             (filePath Samples.brokenJs) = Thrown (str "EACCES")
    /\ scanWorkspace 50 (Samples.hostWithBroken Samples.secretLine) Samples.clock0
         Catalog.initializePatterns [Samples.brokenJs; Samples.appJs] = Some (r, ps')
    /\ SecurityScanResult.filesScanned r = 2
    /\ map SecurityIssue.filePath (SecurityScanResult.issues r)
       = [filePath Samples.appJs].
Proof.
  eexists. eexists. split; [reflexivity|].
  split; [vm_compute; reflexivity|].
  split; reflexivity.
Qed.

(** C8: a scanner whose rules are the catalog's, whatever [lastIndex]
    earlier scans left in their RegExp objects, scans a file set and then
    scans it again, the files unchanged: both scans return, and the second
    result has the same issues in the same order, the same filesScanned
    and the same counts; only scanDuration and timestamp, read from the
    clock, may differ. *)
Theorem C8_rescan_gives_the_same_issues fuel host clockA clockB ps files :
  ofCatalog ps ->
  (fuelFor host files <= fuel)%nat ->
  exists r1 ps1 r2 ps2,
    scanWorkspace fuel host clockA ps files = Some (r1, ps1)
    /\ scanWorkspace fuel host clockB ps1 files = Some (r2, ps2)
    /\ SecurityScanResult.issues r2 = SecurityScanResult.issues r1
    /\ SecurityScanResult.filesScanned r2 = SecurityScanResult.filesScanned r1
    /\ SecurityScanResult.totalIssues r2 = SecurityScanResult.totalIssues r1
    /\ SecurityScanResult.criticalCount r2 = SecurityScanResult.criticalCount r1
    /\ SecurityScanResult.highCount r2 = SecurityScanResult.highCount r1
    /\ SecurityScanResult.mediumCount r2 = SecurityScanResult.mediumCount r1
    /\ SecurityScanResult.lowCount r2 = SecurityScanResult.lowCount r1.
Proof.
  intros Hcat Hfuel.
  pose proof (ScanFacts.ofCatalog_advancing Hcat) as Hadv.
  destruct (@WorkspaceFacts.scanWorkspace_terminates fuel host clockA ps files Hadv Hfuel)
    as [r1 [ps1 H1]].
  exists r1, ps1.
  pose proof H1 as H1'. apply WorkspaceFacts.scanWorkspace_inv in H1'.
  destruct H1' as [issues [n [Hs1 Hr1]]].
  pose proof (WorkspaceFacts.scanFiles_keeps_rules _ _ _ _ _ _ Hs1) as Hkeep.
  pose proof (WorkspaceFacts.scanFiles_state fuel host (filter (isJsTs host) files)
                ps1 ps [] 0 Hkeep) as Hst.
  rewrite Hs1 in Hst.
  destruct (scanFiles fuel host ps1 (filter (isJsTs host) files) [] 0)
    as [[[issues2 n2] ps2]|] eqn:Hs2; [|contradiction].
  destruct Hst as [Hi [Hn _]]. subst issues2 n2.
  exists (SecurityScanResult.mk issues n
            (Z.of_nat (List.length issues))
            (countSeverity Severity.critical issues)
            (countSeverity Severity.high issues)
            (countSeverity Severity.medium issues)
            (countSeverity Severity.low issues)
            (endTime clockB - startTime clockB) (now clockB)), ps2.
  split; [exact H1|].
  split; [unfold scanWorkspace, bind; rewrite Hs2; reflexivity|].
  subst r1. simpl. repeat split; reflexivity.
Qed.

Lemma C8_rescan_gives_the_same_issues_witness :
  ofCatalog Catalog.initializePatterns
  /\ (fuelFor (Samples.hostOf Samples.secretLine) [Samples.appJs; Samples.readmeMd] <= 50)%nat
  /\ exists r1 ps1 r2 ps2,
       scanWorkspace 50 (Samples.hostOf Samples.secretLine) Samples.clock0
         Catalog.initializePatterns [Samples.appJs; Samples.readmeMd] = Some (r1, ps1)
       /\ scanWorkspace 50 (Samples.hostOf Samples.secretLine) Samples.clock1
            ps1 [Samples.appJs; Samples.readmeMd] = Some (r2, ps2)
       /\ SecurityScanResult.issues r2 = SecurityScanResult.issues r1.
Proof.
  assert (Hcat : ofCatalog Catalog.initializePatterns) by reflexivity.
  assert (Hfuel : (fuelFor (Samples.hostOf Samples.secretLine)
                     [Samples.appJs; Samples.readmeMd] <= 50)%nat)
    by (vm_compute; lia).
  split; [exact Hcat|]. split; [exact Hfuel|].
  destruct (C8_rescan_gives_the_same_issues
              (Samples.hostOf Samples.secretLine) Samples.clock0 Samples.clock1
              [Samples.appJs; Samples.readmeMd] Hcat Hfuel)
    as [r1 [ps1 [r2 [ps2 [H1 [H2 [H3 _]]]]]]].
  exists r1, ps1, r2, ps2. repeat split; assumption.
Defined.

(** C9: a collected file whose lower-cased extension is not one of .js,
    .jsx, .ts, .tsx, .mjs, .cjs is dropped by the scan's own filter: the
    scan of the list gives what the scan of the list without that file
    gives, so whatever the file holds it is not read and adds nothing; no
    issue of a returned result is located in it, and filesScanned is at
    most the number of the files of the rest of the list that have one of
    the six extensions. *)
Theorem C9_other_extensions_are_filtered_out fuel host clock ps before f after :
  ~ In (toLowerCase host (extname host (filePath f)))
       [str ".js"; str ".jsx"; str ".ts"; str ".tsx"; str ".mjs"; str ".cjs"] ->
  scanWorkspace fuel host clock ps (before ++ f :: after)
  = scanWorkspace fuel host clock ps (before ++ after)
  /\ forall r ps',
       scanWorkspace fuel host clock ps (before ++ f :: after) = Some (r, ps') ->
       (forall i, In i (SecurityScanResult.issues r) ->
                  SecurityIssue.filePath i <> filePath f)
       /\ 0 <= SecurityScanResult.filesScanned r
          <= Z.of_nat (List.length
               (filter (fun g =>
                  includes [str ".js"; str ".jsx"; str ".ts"; str ".tsx"; str ".mjs"; str ".cjs"]
                           (toLowerCase host (extname host (filePath g))))
                  (before ++ after))).
Proof.
  intros Hext.
  assert (Hf : isJsTs host f = false).
  { unfold isJsTs. destruct (includes _ _) eqn:Hinc; [|reflexivity].
    apply includes_In in Hinc. contradiction. }
  assert (Hfilter : filter (isJsTs host) (before ++ f :: after)
                    = filter (isJsTs host) (before ++ after)).
  { rewrite !filter_app. simpl. rewrite Hf. reflexivity. }
  assert (Heq : scanWorkspace fuel host clock ps (before ++ f :: after)
                = scanWorkspace fuel host clock ps (before ++ after)).
  { unfold scanWorkspace. rewrite Hfilter. reflexivity. }
  split; [exact Heq|].
  intros r ps' H. split.
  - intros i Hi Hpath.
    pose proof H as H'. apply WorkspaceFacts.scanWorkspace_inv in H'.
    destruct H' as [issues [n [Hs Hr]]]. subst r. simpl in Hi.
    destruct (WorkspaceFacts.scanFiles_issues _ _ _ _ _ _ Hs i Hi) as [[]|Ho].
    destruct Ho as [g [content [p [index [m [Hg [_ [_ [_ He]]]]]]]]].
    apply filter_In in Hg. destruct Hg as [_ Hg].
    subst i. simpl in Hpath.
    unfold isJsTs in Hg, Hf. rewrite Hpath in Hg. congruence.
  - rewrite Heq in H. apply filesScanned_at_most_listed_files in H. exact H.
Qed.

Lemma C9_other_extensions_are_filtered_out_witness :
  ~ In (toLowerCase (Samples.hostOf Samples.secretLine)
          (extname (Samples.hostOf Samples.secretLine) (filePath Samples.readmeMd)))
       [str ".js"; str ".jsx"; str ".ts"; str ".tsx"; str ".mjs"; str ".cjs"]
  /\ scanWorkspace 50 (Samples.hostOf Samples.secretLine) Samples.clock0
       Catalog.initializePatterns ([Samples.appJs] ++ Samples.readmeMd :: [])
     = scanWorkspace 50 (Samples.hostOf Samples.secretLine) Samples.clock0
         Catalog.initializePatterns ([Samples.appJs] ++ []).
Proof.
  assert (Hext : ~ In (toLowerCase (Samples.hostOf Samples.secretLine)
                         (extname (Samples.hostOf Samples.secretLine)
                                  (filePath Samples.readmeMd)))
                      [str ".js"; str ".jsx"; str ".ts"; str ".tsx"; str ".mjs"; str ".cjs"]).
  { vm_compute. intros H.
    repeat (destruct H as [H|H]; [discriminate H|]). exact H. }
  split; [exact Hext|].
  exact (proj1 (C9_other_extensions_are_filtered_out 50
                  (Samples.hostOf Samples.secretLine) Samples.clock0
                  Catalog.initializePatterns [Samples.appJs] Samples.readmeMd [] Hext)).
Defined.

(** The kinds the catalog has a rule for. *)
Lemma catalog_kinds (p : VulnerabilityPattern.t) :
  In p Catalog.initializePatterns ->
  VulnerabilityPattern.type p <> xxe_vulnerability
  /\ VulnerabilityPattern.type p <> insecure_deserialization
  /\ VulnerabilityPattern.type p <> csrf_vulnerability.
Proof.
  intros H. simpl in H.
  repeat (destruct H as [H|H]; [subst p; repeat split; discriminate|]).
  destruct H.
Qed.

(** C10: every issue of a returned result has the kind of a rule of the
    catalog, and the catalog has no rule of kind xxe-vulnerability,
    insecure-deserialization or csrf-vulnerability, three members of the
    kind enumeration: no issue ever has one of these kinds. *)
Theorem C10_no_issue_of_a_kind_without_rule fuel host clock ps files r ps' i :
  ofCatalog ps ->
  scanWorkspace fuel host clock ps files = Some (r, ps') ->
  In i (SecurityScanResult.issues r) ->
  (exists rule, In rule Catalog.initializePatterns
                /\ SecurityIssue.type i = VulnerabilityPattern.type rule)
  /\ SecurityIssue.type i <> xxe_vulnerability
  /\ SecurityIssue.type i <> insecure_deserialization
  /\ SecurityIssue.type i <> csrf_vulnerability.
Proof.
  intros Hcat H Hi.
  apply WorkspaceFacts.scanWorkspace_inv in H.
  destruct H as [issues [n [Hs Hr]]]. subst r. simpl in Hi.
  destruct (WorkspaceFacts.scanFiles_issues _ _ _ _ _ _ Hs i Hi) as [[]|Ho].
  destruct Ho as [g [content [p [index [m [_ [_ [Hp [Hl He]]]]]]]]].
  unfold ofCatalog in Hcat. rewrite Hcat in Hp.
  assert (Hty : SecurityIssue.type i = VulnerabilityPattern.type p).
  { subst i. unfold SecurityIssue.type. simpl.
    unfold locate in Hl. destruct (isInComment _ _); [discriminate|].
    inversion Hl; subst. reflexivity. }
  split; [exists p; split; assumption|].
  rewrite Hty. apply catalog_kinds. exact Hp.
Qed.

Lemma C10_no_issue_of_a_kind_without_rule_witness :
  exists r ps' i,
    ofCatalog Catalog.initializePatterns
    /\ scanWorkspace 50 (Samples.hostOf Samples.secretLine) Samples.clock0
         Catalog.initializePatterns [Samples.appJs] = Some (r, ps')
    /\ In i (SecurityScanResult.issues r)
    /\ SecurityIssue.type i <> xxe_vulnerability
    /\ SecurityIssue.type i <> insecure_deserialization
    /\ SecurityIssue.type i <> csrf_vulnerability.
Proof.
  destruct (scanWorkspace 50 (Samples.hostOf Samples.secretLine) Samples.clock0
              Catalog.initializePatterns [Samples.appJs])
    as [[r ps']|] eqn:E; [|vm_compute in E; discriminate].
  assert (Hne : exists i, In i (SecurityScanResult.issues r)).
  { vm_compute in E. inversion E. eexists. left. reflexivity. }
  destruct Hne as [i Hi].
  exists r, ps', i.
  assert (Hcat : ofCatalog Catalog.initializePatterns) by reflexivity.
  split; [exact Hcat|]. split; [reflexivity|]. split; [exact Hi|].
  exact (proj2 (@C10_no_issue_of_a_kind_without_rule 50 _ _ _ _ _ _ _ Hcat E Hi)).
Defined.

(** *** The comment filter in the loop *)

Import CommentMarkers.

Lemma locate_suppressed content lines p index :
  isInComment (lineContentOf lines (lineNumberOf content index))
              (columnOf content index) = true ->
  locate content lines p index = None.
Proof. unfold locate. intros H. rewrite H. reflexivity. Qed.

Lemma locate_emitted content lines p index :
  isInComment (lineContentOf lines (lineNumberOf content index))
              (columnOf content index) = false ->
  exists issue,
    locate content lines p index = Some issue
    /\ IssueMatch.type issue = VulnerabilityPattern.type p
    /\ IssueMatch.severity issue = VulnerabilityPattern.severity p
    /\ IssueMatch.cweId issue = VulnerabilityPattern.cweId p
    /\ IssueMatch.line issue = lineNumberOf content index
    /\ IssueMatch.column issue = columnOf content index.
Proof.
  unfold locate. intros H. rewrite H. eexists. split; [reflexivity|].
  simpl. repeat split; reflexivity.
Qed.

(** The scan of a readable file by a scanner of the catalog gives what the
    rule loop of a fresh scanner gives; more fuel than the loop needs, or
    an engine that takes more arguments than a loop that ran to its end
    needed, changes nothing. *)
Lemma scanFile_of_catalog fuel0 limit0 fuel host ps fp rp content out ps0 :
  ofCatalog ps ->
  readFile host fp = Returned content ->
  scanRules fuel0 limit0 content (split content LF) fp rp Catalog.initializePatterns []
  = Some (out, Returned tt, ps0) ->
  (fuel0 <= fuel)%nat ->
  (limit0 <= maxArguments host)%positive ->
  exists ps', scanFile fuel host ps fp rp = Some (Returned out, ps').
Proof.
  intros Hcat Hread Hscan Hle Hlimit. unfold scanFile. rewrite Hread.
  apply (ScanFacts.scanRules_more_fuel _ _ _ _ _ Hle) in Hscan.
  apply (ScanFacts.scanRules_more_arguments _ _ _ _ _ Hlimit) in Hscan.
  pose proof (ScanFacts.scanRules_state fuel (maxArguments host) content
                (split content LF) fp rp ps Catalog.initializePatterns [] Hcat) as Hst.
  rewrite Hscan in Hst. unfold bind.
  destruct (scanRules fuel (maxArguments host) content (split content LF) fp rp ps [])
    as [[[o1 l1] s1]|]; [|contradiction].
  destruct Hst as [Ho _]. subst o1. exists s1. reflexivity.
Qed.

(** C4, as the code has it: the comment filter suppresses a match at
    (line, column) if [//] occurs on the line strictly before the column,
    or if on that same line a block-comment opener stands before the
    column with no closer between it and the column.  The filter sees the
    line of the match only: an opener on a prior line is not taken into
    account. *)
Theorem C4_comment_filter_suppresses content p index :
  let lines := split content LF in
  let line := lineContentOf lines (lineNumberOf content index) in
  let column := columnOf content index in
  (exists i, before lineComment line i column) \/ openBlockOnLine line column ->
  isInComment line column = true /\ locate content lines p index = None.
Proof.
  intros lines line column H.
  assert (Hc : isInComment line column = true)
    by (apply CommentFacts.isInComment_iff; exact H).
  split; [exact Hc|]. apply locate_suppressed. exact Hc.
Qed.

Lemma C4_comment_filter_suppresses_witness :
  (exists i, before lineComment
               (lineContentOf (split Samples.evalThenComment LF)
                              (lineNumberOf Samples.evalThenComment 12))
               i (columnOf Samples.evalThenComment 12))
  /\ locate Samples.evalThenComment (split Samples.evalThenComment LF)
            Samples.emptyMatchingRule 12 = None.
Proof.
  assert (H : exists i, before lineComment
               (lineContentOf (split Samples.evalThenComment LF)
                              (lineNumberOf Samples.evalThenComment 12))
               i (columnOf Samples.evalThenComment 12)).
  { exists 9%nat. split; [split; [reflexivity|vm_compute; lia]|vm_compute; reflexivity]. }
  split; [exact H|].
  exact (proj2 (@C4_comment_filter_suppresses Samples.evalThenComment
                  Samples.emptyMatchingRule 12 (or_introl H))).
Defined.

(** C4, against the wording of the specification: in a file whose first line opens a
    block comment and whose third line closes it, the call of [eval] on
    the second line stands after the unterminated opener and before its
    closer, yet the filter does not suppress it and the scan reports it. *)
Lemma C4_opener_on_prior_line_not_suppressed :
  RegExp.exec (Catalog.g Catalog.evalCall) Samples.evalInsideBlock
  = (Some (RegExp.mkMatch 3 8), RegExp.setLastIndex (Catalog.g Catalog.evalCall) 8)
  /\ insideBlockFromPriorLine Samples.evalInsideBlock 3 = true
  /\ isInComment (lineContentOf (split Samples.evalInsideBlock LF)
                                (lineNumberOf Samples.evalInsideBlock 3))
                 (columnOf Samples.evalInsideBlock 3) = false
  /\ exists i ps',
       scanFile 20 (Samples.hostOf Samples.evalInsideBlock) Catalog.initializePatterns
                (filePath Samples.appJs) (relativePath Samples.appJs)
       = Some (Returned [i], ps')
       /\ SecurityIssue.type i = unsafe_eval
       /\ SecurityIssue.line i = 2 /\ SecurityIssue.column i = 1.
Proof.
  split; [vm_compute; reflexivity|].
  split; [vm_compute; reflexivity|].
  split; [vm_compute; reflexivity|].
  eexists. eexists. split; [vm_compute; reflexivity|].
  repeat split; reflexivity.
Qed.

(** *** Termination of the match-locating loop *)

Lemma catalog_rule_advancing (p : VulnerabilityPattern.t) :
  In (resetRule p) Catalog.initializePatterns ->
  RegExpMeasure.advancing (VulnerabilityPattern.pattern p) = true.
Proof.
  intros H. pose proof ScanFacts.catalog_advancing as Hall.
  unfold ScannerState.allAdvancing in Hall. rewrite Forall_forall in Hall.
  exact (Hall _ H).
Qed.

(** With a pattern that matches the empty string the loop makes no
    progress: the same match is found again at the same place. *)
Lemma emptyMatch_loop_diverges :
  forall fuel issues,
    matchLoop fuel [] (split [] LF) Samples.emptyMatchingRule
      (VulnerabilityPattern.pattern Samples.emptyMatchingRule) issues = None.
Proof.
  induction fuel as [|fuel IH]; intros issues; [reflexivity|].
  change (matchLoop (S fuel) [] (split [] LF) Samples.emptyMatchingRule
            (VulnerabilityPattern.pattern Samples.emptyMatchingRule) issues)
    with (matchLoop fuel [] (split [] LF) Samples.emptyMatchingRule
            (VulnerabilityPattern.pattern Samples.emptyMatchingRule)
            (push issues (locate [] (split [] LF) Samples.emptyMatchingRule 0))).
  apply IH.
Qed.

(** C5, as the code has it: for every file content and every rule whose
    RegExp has the global flag and whose pattern has a positive minimal
    match length, so that it cannot match the empty string, whatever
    [lastIndex] the RegExp holds, the match-locating loop terminates,
    within as many iterations as the content has code units and two
    more: every match ends strictly after its start, which is at or after
    the cursor, so each match moves the cursor forward.  Every rule of
    the catalog is such a rule.  The loop has no step of its own that
    would move the cursor past a zero-length match. *)
Theorem C5_loop_terminates_when_matches_advance content lines p fuel :
  RegExp.global (VulnerabilityPattern.pattern p) = true ->
  (0 < RegExpMeasure.minLength (RegExp.source (VulnerabilityPattern.pattern p)))%nat ->
  (List.length content + 2 <= fuel)%nat ->
  (exists issues p', findPatternMatches fuel content lines p = Some (issues, p'))
  /\ (forall cursor m re',
        RegExp.exec (RegExp.setLastIndex (VulnerabilityPattern.pattern p) cursor) content
        = (Some m, re') ->
        Z.max 0 cursor <= RegExp.index m /\ RegExp.index m < RegExp.lastIndex re'
        /\ cursor < RegExp.lastIndex re')
  /\ Forall (fun rule =>
               RegExp.global (VulnerabilityPattern.pattern rule) = true
               /\ (0 < RegExpMeasure.minLength
                         (RegExp.source (VulnerabilityPattern.pattern rule)))%nat)
            Catalog.initializePatterns.
Proof.
  intros Hglobal Hmin Hfuel.
  assert (Hadv : RegExpMeasure.advancing (VulnerabilityPattern.pattern p) = true).
  { unfold RegExpMeasure.advancing. rewrite Hglobal. simpl.
    apply Nat.ltb_lt. exact Hmin. }
  split; [|split].
  - apply ScannerFacts.findPatternMatches_terminates; [exact Hadv|exact Hfuel].
  - intros cursor m re' He.
    assert (Hadv' : RegExpMeasure.advancing
                      (RegExp.setLastIndex (VulnerabilityPattern.pattern p) cursor) = true)
      by exact Hadv.
    destruct (RegExpFacts.exec_advances _ _ Hadv' He) as [_ [_ [Hidx _]]].
    simpl in Hidx. lia.
  - pose proof ScanFacts.catalog_advancing as Hall.
    unfold ScannerState.allAdvancing in Hall.
    revert Hall. apply Forall_impl. intros rule Hrule.
    unfold RegExpMeasure.advancing in Hrule.
    apply andb_true_iff in Hrule. destruct Hrule as [Hg Hm].
    split; [exact Hg|]. apply Nat.ltb_lt. exact Hm.
Qed.

Lemma C5_loop_terminates_when_matches_advance_witness :
  RegExp.global (VulnerabilityPattern.pattern Samples.evalRule) = true
  /\ (0 < RegExpMeasure.minLength
             (RegExp.source (VulnerabilityPattern.pattern Samples.evalRule)))%nat
  /\ (List.length Samples.evalThenComment + 2 <= 30)%nat
  /\ exists issues p',
       findPatternMatches 30 Samples.evalThenComment
         (split Samples.evalThenComment LF) Samples.evalRule = Some (issues, p').
Proof.
  assert (Hglobal : RegExp.global (VulnerabilityPattern.pattern Samples.evalRule) = true)
    by reflexivity.
  assert (Hmin : (0 < RegExpMeasure.minLength
                        (RegExp.source (VulnerabilityPattern.pattern Samples.evalRule)))%nat)
    by (vm_compute; lia).
  assert (Hfuel : (List.length Samples.evalThenComment + 2 <= 30)%nat)
    by (vm_compute; lia).
  split; [exact Hglobal|]. split; [exact Hmin|]. split; [exact Hfuel|].
  exact (proj1 (@C5_loop_terminates_when_matches_advance Samples.evalThenComment
                  (split Samples.evalThenComment LF) Samples.evalRule 30
                  Hglobal Hmin Hfuel)).
Defined.

(** C5, against the wording of the specification: a rule whose pattern can match the
    empty string (here [a*] with the global flag, on the empty content)
    is matched at index 0 with an empty match, [exec] leaves the cursor
    where it was, and the loop never ends. *)
Lemma C5_empty_match_never_ends :
  RegExp.exec (VulnerabilityPattern.pattern Samples.emptyMatchingRule) []
  = (Some (RegExp.mkMatch 0 0), VulnerabilityPattern.pattern Samples.emptyMatchingRule)
  /\ RegExp.lastIndex (VulnerabilityPattern.pattern Samples.emptyMatchingRule) = 0
  /\ ~ exists fuel r,
         findPatternMatches fuel [] (split [] LF) Samples.emptyMatchingRule = Some r.
Proof.
  split; [reflexivity|]. split; [reflexivity|].
  intros [fuel [r H]]. unfold findPatternMatches, bind in H.
  change (RegExp.setLastIndex (VulnerabilityPattern.pattern Samples.emptyMatchingRule) 0)
    with (VulnerabilityPattern.pattern Samples.emptyMatchingRule) in H.
  rewrite emptyMatch_loop_diverges in H. discriminate.
Qed.

(** *** The scenarios of the specification *)

(** C7: a file whose content is the single line of scenario A, scanned by
    a scanner of the catalog, gives exactly one issue: its kind is
    hardcoded-secret, its severity critical, its cweId CWE-798 and its
    line 1 (the match is at column 7, where [apiKey] begins). *)
Theorem C7_hardcoded_secret_scenario fuel host ps fp rp :
  ofCatalog ps ->
  readFile host fp = Returned Samples.secretLine ->
  (fuelForContent Samples.secretLine <= fuel)%nat ->
  exists i ps',
    scanFile fuel host ps fp rp = Some (Returned [i], ps')
    /\ SecurityIssue.type i = hardcoded_secret
    /\ SecurityIssue.severity i = Severity.critical
    /\ SecurityIssue.cweId i = Some (str "CWE-798")
    /\ SecurityIssue.line i = 1
    /\ SecurityIssue.column i = 7
    /\ SecurityIssue.filePath i = fp.
Proof.
  intros Hcat Hread Hfuel.
  destruct (scanRules (fuelForContent Samples.secretLine) 1 Samples.secretLine
              (split Samples.secretLine LF) fp rp Catalog.initializePatterns [])
    as [[[out how] ps0]|] eqn:E; [|vm_compute in E; discriminate].
  assert (Hhow : how = Returned tt) by (vm_compute in E; inversion E; reflexivity).
  subst how.
  destruct (@scanFile_of_catalog _ _ fuel host ps fp rp _ _ _ Hcat Hread E Hfuel
              (Pos.le_1_l _)) as [ps' Hscan].
  vm_compute in E. inversion E as [[Hout Hps]]. clear E.
  rewrite <- Hout in Hscan.
  eexists. exists ps'. split; [exact Hscan|].
  repeat split; reflexivity.
Qed.

Lemma C7_hardcoded_secret_scenario_witness :
  ofCatalog Catalog.initializePatterns
  /\ readFile (Samples.hostOf Samples.secretLine) (filePath Samples.appJs)
     = Returned Samples.secretLine
  /\ (fuelForContent Samples.secretLine <= 50)%nat
  /\ exists i ps',
       scanFile 50 (Samples.hostOf Samples.secretLine) Catalog.initializePatterns
                (filePath Samples.appJs) (relativePath Samples.appJs)
       = Some (Returned [i], ps')
       /\ SecurityIssue.type i = hardcoded_secret.
Proof.
  assert (Hcat : ofCatalog Catalog.initializePatterns) by reflexivity.
  assert (Hfuel : (fuelForContent Samples.secretLine <= 50)%nat) by (vm_compute; lia).
  split; [exact Hcat|]. split; [reflexivity|]. split; [exact Hfuel|].
  destruct (@C7_hardcoded_secret_scenario 50 (Samples.hostOf Samples.secretLine)
              Catalog.initializePatterns (filePath Samples.appJs)
              (relativePath Samples.appJs) Hcat eq_refl Hfuel)
    as [i [ps' [H1 [H2 _]]]].
  exists i, ps'. split; assumption.
Defined.

(** C6, as the code has it, for a match that [exec] finds in the loop of
    a rule.  If [//] occurs on the line of the match strictly before its
    column, the iteration pushes no issue.  If every [//] of the line
    begins after the start of the match, and the part of the line before
    the column holds no block-comment opener left open, the iteration
    pushes the issue of the match, which is in whatever the loop returns.
    And a file whose content is the line of scenario C gives no issue. *)
Theorem C6_line_comment_suppression content p re m re' fuel issues :
  RegExp.exec re content = (Some m, re') ->
  let lines := split content LF in
  let lineNumber := lineNumberOf content (RegExp.index m) in
  let line := lineContentOf lines lineNumber in
  let column := columnOf content (RegExp.index m) in
  ((exists i, before lineComment line i column) ->
     matchLoop (S fuel) content lines p re issues
     = matchLoop fuel content lines p re' issues)
  /\ ((forall i, occurs_at lineComment line i -> column <= Z.of_nat i) ->
      ~ openBlockOnLine line column ->
      exists issue,
        IssueMatch.type issue = VulnerabilityPattern.type p
        /\ IssueMatch.line issue = lineNumber
        /\ IssueMatch.column issue = column
        /\ matchLoop (S fuel) content lines p re issues
           = matchLoop fuel content lines p re' (issues ++ [issue])
        /\ forall out re'',
             matchLoop (S fuel) content lines p re issues = Some (out, re'') ->
             In issue out)
  /\ (forall host ps fp rp n,
        ofCatalog ps ->
        readFile host fp = Returned Samples.commentedEval ->
        (fuelForContent Samples.commentedEval <= n)%nat ->
        exists ps', scanFile n host ps fp rp = Some (Returned [], ps')).
Proof.
  intros He lines lineNumber line column.
  split; [|split].
  - intros Hafter. simpl. rewrite He.
    rewrite (@locate_suppressed content lines p (RegExp.index m)); [reflexivity|].
    apply CommentFacts.isInComment_iff. left. exact Hafter.
  - intros Hbefore Hblock.
    assert (Hc : isInComment line column = false).
    { destruct (isInComment line column) eqn:Hc; [|reflexivity].
      apply CommentFacts.isInComment_iff in Hc. destruct Hc as [[i [Hocc Hlt]]|Hb].
      - apply Hbefore in Hocc. lia.
      - contradiction. }
    destruct (@locate_emitted content lines p (RegExp.index m) Hc)
      as [issue [Hl [Hty [_ [_ [Hline Hcol]]]]]].
    exists issue.
    assert (Hstep : matchLoop (S fuel) content lines p re issues
                    = matchLoop fuel content lines p re' (issues ++ [issue])).
    { simpl. rewrite He. fold lines. rewrite Hl. reflexivity. }
    repeat split; try assumption.
    intros out re'' Hout. rewrite Hstep in Hout.
    rewrite ScannerFacts.matchLoop_acc in Hout.
    destruct (matchLoop fuel content lines p re' []) as [[more re3]|]; [|discriminate].
    inversion Hout; subst. apply in_or_app. left. apply in_or_app. right. left. reflexivity.
  - intros host ps fp rp n Hcat Hread Hn.
    destruct (scanRules (fuelForContent Samples.commentedEval) 1 Samples.commentedEval
                (split Samples.commentedEval LF) fp rp Catalog.initializePatterns [])
      as [[[out how] ps0]|] eqn:E; [|vm_compute in E; discriminate].
    assert (Hhow : how = Returned tt) by (vm_compute in E; inversion E; reflexivity).
    subst how.
    destruct (@scanFile_of_catalog _ _ n host ps fp rp _ _ _ Hcat Hread E Hn
                (Pos.le_1_l _)) as [ps' Hscan].
    vm_compute in E. inversion E as [[Hout Hps]]. clear E.
    rewrite <- Hout in Hscan. exists ps'. exact Hscan.
Qed.

Lemma C6_line_comment_suppression_witness :
  (* the call before the comment marker is reported *)
  (RegExp.exec (Catalog.g Catalog.evalCall) Samples.evalThenComment
   = (Some (RegExp.mkMatch 0 5), RegExp.setLastIndex (Catalog.g Catalog.evalCall) 5)
   /\ exists issue,
        IssueMatch.line issue = 1 /\ IssueMatch.column issue = 1
        /\ matchLoop 3 Samples.evalThenComment (split Samples.evalThenComment LF)
             Samples.evalRule (Catalog.g Catalog.evalCall) []
           = matchLoop 2 Samples.evalThenComment (split Samples.evalThenComment LF)
               Samples.evalRule (RegExp.setLastIndex (Catalog.g Catalog.evalCall) 5)
               ([] ++ [issue]))
  (* the call after the comment marker is not *)
  /\ (RegExp.exec (RegExp.setLastIndex (Catalog.g Catalog.evalCall) 5)
                  Samples.evalThenComment
      = (Some (RegExp.mkMatch 12 17), RegExp.setLastIndex (Catalog.g Catalog.evalCall) 17)
      /\ forall issues,
           matchLoop 2 Samples.evalThenComment (split Samples.evalThenComment LF)
             Samples.evalRule (RegExp.setLastIndex (Catalog.g Catalog.evalCall) 5) issues
           = matchLoop 1 Samples.evalThenComment (split Samples.evalThenComment LF)
               Samples.evalRule (RegExp.setLastIndex (Catalog.g Catalog.evalCall) 17) issues).
Proof.
  assert (E1 : RegExp.exec (Catalog.g Catalog.evalCall) Samples.evalThenComment
               = (Some (RegExp.mkMatch 0 5),
                  RegExp.setLastIndex (Catalog.g Catalog.evalCall) 5))
    by (vm_compute; reflexivity).
  assert (E2 : RegExp.exec (RegExp.setLastIndex (Catalog.g Catalog.evalCall) 5)
                 Samples.evalThenComment
               = (Some (RegExp.mkMatch 12 17),
                  RegExp.setLastIndex (Catalog.g Catalog.evalCall) 17))
    by (vm_compute; reflexivity).
  assert (Hcol1 : columnOf Samples.evalThenComment
                    (RegExp.index (RegExp.mkMatch 0 5)) = 1)
    by (vm_compute; reflexivity).
  split; split; try assumption.
  - destruct (@C6_line_comment_suppression Samples.evalThenComment Samples.evalRule
                _ _ _ 2%nat [] E1) as [_ [Hbefore _]].
    destruct Hbefore as [issue [_ [Hline [Hcol [Hstep _]]]]].
    + rewrite Hcol1. intros i [Hocc Hlen].
      assert (Hi : (i < 19)%nat).
      { replace (List.length (lineContentOf _ _)) with 20%nat in Hlen
          by (vm_compute; reflexivity).
        change (List.length lineComment) with 2%nat in Hlen. lia. }
      do 19 (destruct i as [|i];
             [first [vm_compute in Hocc; discriminate Hocc | lia]|]).
      lia.
    + rewrite Hcol1. intros [o [[Hocc Hlt] _]]. lia.
    + exists issue. rewrite <- Hcol1. repeat split; assumption.
  - intros issues.
    destruct (@C6_line_comment_suppression Samples.evalThenComment Samples.evalRule
                _ _ _ 1%nat issues E2) as [Hafter _].
    apply Hafter. exists 9%nat.
    split; [split; [reflexivity|vm_compute; lia]|vm_compute; reflexivity].
Defined.

(** C6, against the wording of the specification: on the line of the sample, the call of
    [eval] stands before [//], and after a block-comment opener that the
    line does not close; the comment filter suppresses the match and the
    scan of the file gives no issue. *)
Lemma C6_before_line_comment_yet_suppressed :
  RegExp.exec (Catalog.g Catalog.evalCall) Samples.evalInBlockBeforeLineComment
  = (Some (RegExp.mkMatch 3 8), RegExp.setLastIndex (Catalog.g Catalog.evalCall) 8)
  /\ indexOf Samples.evalInBlockBeforeLineComment (str "//") = 11
  /\ locate Samples.evalInBlockBeforeLineComment
            (split Samples.evalInBlockBeforeLineComment LF) Samples.evalRule 3 = None
  /\ exists ps',
       scanFile 20 (Samples.hostOf Samples.evalInBlockBeforeLineComment)
                Catalog.initializePatterns
                (filePath Samples.appJs) (relativePath Samples.appJs)
       = Some (Returned [], ps').
Proof.
  split; [vm_compute; reflexivity|].
  split; [vm_compute; reflexivity|].
  split; [vm_compute; reflexivity|].
  eexists. vm_compute. reflexivity.
Qed.

(* ================================================================== *)
(** ** Further properties: the consumers of a scan result *)

(** *** Counting by severity *)

Lemma countSeverity_nonneg (s : Severity.t) (issues : list SecurityIssue.t) :
  0 <= countSeverity s issues.
Proof. unfold countSeverity. lia. Qed.

Lemma countSeverity_pos (s : Severity.t) (issues : list SecurityIssue.t) :
  0 < countSeverity s issues <->
  exists i, In i issues /\ SecurityIssue.severity i = s.
Proof.
  unfold countSeverity. split.
  - intros H.
    destruct (filter (fun i => Severity.eqb (SecurityIssue.severity i) s) issues)
      as [|i rest] eqn:Hf; [simpl in H; lia|].
    assert (Hin : In i (filter (fun i => Severity.eqb (SecurityIssue.severity i) s) issues))
      by (rewrite Hf; left; reflexivity).
    apply filter_In in Hin. destruct Hin as [Hin Hs].
    exists i. split; [exact Hin|].
    destruct (SecurityIssue.severity i), s; simpl in Hs; try discriminate; reflexivity.
  - intros [i [Hin Hs]].
    assert (Hf : In i (filter (fun i => Severity.eqb (SecurityIssue.severity i) s) issues)).
    { apply filter_In. split; [exact Hin|]. rewrite Hs. destruct s; reflexivity. }
    destruct (filter _ issues); [destruct Hf|simpl; lia].
Qed.

Ltac split_comparisons :=
  repeat match goal with
         | |- context [(?a >? ?b)%Z] => rewrite (Z.gtb_ltb a b)
         | |- context [(?a >=? ?b)%Z] => rewrite (Z.geb_leb a b)
         | H : context [(?a >? ?b)%Z] |- _ => rewrite (Z.gtb_ltb a b) in H
         | H : context [(?a >=? ?b)%Z] |- _ => rewrite (Z.geb_leb a b) in H
         end;
  repeat match goal with
         | |- context [(?a <? ?b)%Z] => destruct (Z.ltb_spec a b)
         | |- context [(?a <=? ?b)%Z] => destruct (Z.leb_spec a b)
         | H : context [(?a <? ?b)%Z] |- _ => destruct (Z.ltb_spec a b)
         | H : context [(?a <=? ?b)%Z] |- _ => destruct (Z.leb_spec a b)
         end.

(** X1: the risk level grows with the four counts by severity, which are
    what the classifier reads: if none of criticalCount, highCount,
    mediumCount and lowCount of one result exceeds the same count of
    another, the level of the first is not graver than the level of the
    second.  In particular one more critical issue never lowers the
    level. *)
Theorem X1_risk_level_monotone (r1 r2 : SecurityScanResult.t) :
  RiskOrder.countsLe r1 r2 ->
  (RiskOrder.rank (calculateRiskLevel r1) <= RiskOrder.rank (calculateRiskLevel r2))%nat.
Proof.
  unfold RiskOrder.countsLe, calculateRiskLevel. intros [Hc [Hh [Hm Hl]]].
  split_comparisons; simpl; lia.
Qed.

Lemma X1_risk_level_monotone_witness :
  RiskOrder.countsLe
    (SecurityScanResult.mk [] 3 4 0 4 0 0 0 0)
    (SecurityScanResult.mk [] 3 5 1 4 0 0 0 0)
  /\ (RiskOrder.rank (calculateRiskLevel (SecurityScanResult.mk [] 3 4 0 4 0 0 0 0))
      <= RiskOrder.rank (calculateRiskLevel (SecurityScanResult.mk [] 3 5 1 4 0 0 0 0)))%nat.
Proof.
  assert (H : RiskOrder.countsLe
                (SecurityScanResult.mk [] 3 4 0 4 0 0 0 0)
                (SecurityScanResult.mk [] 3 5 1 4 0 0 0 0))
    by (unfold RiskOrder.countsLe; simpl; lia).
  split; [exact H|]. exact (X1_risk_level_monotone H).
Defined.

(** X2: for a result that the workspace scan returns, the risk level is
    CLEAN exactly when the result has no issue, and CRITICAL exactly when
    one of its issues has severity critical. *)
Theorem X2_risk_level_of_a_scan fuel host clock ps files r ps' :
  scanWorkspace fuel host clock ps files = Some (r, ps') ->
  (calculateRiskLevel r = RiskLevel.CLEAN <-> SecurityScanResult.issues r = [])
  /\ (calculateRiskLevel r = RiskLevel.CRITICAL <->
      exists i, In i (SecurityScanResult.issues r)
                /\ SecurityIssue.severity i = Severity.critical).
Proof.
  intros H. apply WorkspaceFacts.scanWorkspace_inv in H.
  destruct H as [issues [n [_ Hr]]]. subst r.
  unfold calculateRiskLevel. simpl.
  pose proof (severity_partition issues) as Hsum.
  pose proof (countSeverity_nonneg Severity.critical issues) as Hc.
  pose proof (countSeverity_nonneg Severity.high issues) as Hh.
  pose proof (countSeverity_nonneg Severity.medium issues) as Hm.
  pose proof (countSeverity_nonneg Severity.low issues) as Hl.
  pose proof (countSeverity_pos Severity.critical issues) as Hpos.
  split.
  - split.
    + intros Hlevel.
      assert (Hzero : Z.of_nat (List.length issues) = 0).
      { revert Hlevel. split_comparisons; simpl; intros Hlevel;
          try discriminate Hlevel; lia. }
      destruct issues; [reflexivity|simpl in Hzero; lia].
    + intros Hnil. rewrite Hnil. reflexivity.
  - split.
    + intros Hlevel. apply Hpos.
      revert Hlevel. split_comparisons; simpl; intros Hlevel;
        try discriminate Hlevel; lia.
    + intros Hex. apply Hpos in Hex.
      split_comparisons; simpl; try reflexivity; lia.
Qed.

Lemma X2_risk_level_of_a_scan_witness :
  exists r ps',
    scanWorkspace 50 (Samples.hostOf Samples.secretLine) Samples.clock0
      Catalog.initializePatterns [Samples.appJs] = Some (r, ps')
    /\ (calculateRiskLevel r = RiskLevel.CLEAN <-> SecurityScanResult.issues r = []).
Proof.
  destruct (scanWorkspace 50 (Samples.hostOf Samples.secretLine) Samples.clock0
              Catalog.initializePatterns [Samples.appJs])
    as [[r ps']|] eqn:E; [|vm_compute in E; discriminate].
  exists r, ps'. split; [reflexivity|].
  exact (proj1 (@X2_risk_level_of_a_scan 50 _ _ _ _ _ _ E)).
Defined.

(** *** [escapeHtml] *)

Module EscapeFacts.
Import SecurityReportGenerator.

Lemma replaceAll_app c r a b :
  replaceAll c r (a ++ b) = replaceAll c r a ++ replaceAll c r b.
Proof. unfold replaceAll. apply flat_map_app. Qed.

Lemma escapeHtml_app a b : escapeHtml (a ++ b) = escapeHtml a ++ escapeHtml b.
Proof. unfold escapeHtml. rewrite !replaceAll_app. reflexivity. Qed.

Lemma escapeHtml_one (c : N) : escapeHtml [c] = entity c.
Proof.
  unfold entity.
  destruct (c =? AMP)%N eqn:H1; [apply N.eqb_eq in H1; subst; reflexivity|].
  destruct (c =? LT)%N eqn:H2; [apply N.eqb_eq in H2; subst; reflexivity|].
  destruct (c =? GT)%N eqn:H3; [apply N.eqb_eq in H3; subst; reflexivity|].
  destruct (c =? RegExp.QUOT)%N eqn:H4; [apply N.eqb_eq in H4; subst; reflexivity|].
  destruct (c =? RegExp.APOS)%N eqn:H5; [apply N.eqb_eq in H5; subst; reflexivity|].
  unfold escapeHtml, replaceAll. simpl.
  rewrite H1. simpl. rewrite H2. simpl. rewrite H3. simpl. rewrite H4. simpl.
  rewrite H5. reflexivity.
Qed.

(** The five replacements in a row act as one substitution of each
    character by its entity. *)
Lemma escapeHtml_flat_map (s : jsstring) : escapeHtml s = flat_map entity s.
Proof.
  induction s as [|c s IH]; [reflexivity|].
  change (c :: s) with ([c] ++ s). rewrite escapeHtml_app, escapeHtml_one, IH.
  reflexivity.
Qed.

(** The shape of an entity. *)
Lemma entity_cases (c : N) :
  (isSpecial c = false /\ entity c = [c] /\ c <> AMP)
  \/ (isSpecial c = true /\
      exists body, entity c = AMP :: body
                   /\ In body [str "amp;"; str "lt;"; str "gt;"; str "quot;"; str "#039;"]).
Proof.
  unfold entity, isSpecial.
  destruct (c =? AMP)%N eqn:H1.
  { right. split; [reflexivity|]. exists (str "amp;"). split; [reflexivity|]. simpl; auto. }
  destruct (c =? LT)%N eqn:H2.
  { right. split; [reflexivity|]. exists (str "lt;"). split; [reflexivity|]. simpl; auto. }
  destruct (c =? GT)%N eqn:H3.
  { right. split; [reflexivity|]. exists (str "gt;"). split; [reflexivity|]. simpl; auto. }
  destruct (c =? RegExp.QUOT)%N eqn:H4.
  { right. split; [reflexivity|]. exists (str "quot;"). split; [reflexivity|]. simpl; auto. }
  destruct (c =? RegExp.APOS)%N eqn:H5.
  { right. split; [reflexivity|]. exists (str "#039;"). split; [reflexivity|]. simpl; auto 6. }
  left. split; [reflexivity|]. split; [reflexivity|]. apply N.eqb_neq. exact H1.
Qed.

Lemma unescape_entity (fuel : nat) (c : N) (rest : jsstring) :
  unescape (S fuel) (entity c ++ rest) = c :: unescape fuel rest.
Proof.
  unfold entity.
  destruct (c =? AMP)%N eqn:H1; [apply N.eqb_eq in H1; subst; reflexivity|].
  destruct (c =? LT)%N eqn:H2; [apply N.eqb_eq in H2; subst; reflexivity|].
  destruct (c =? GT)%N eqn:H3; [apply N.eqb_eq in H3; subst; reflexivity|].
  destruct (c =? RegExp.QUOT)%N eqn:H4; [apply N.eqb_eq in H4; subst; reflexivity|].
  destruct (c =? RegExp.APOS)%N eqn:H5; [apply N.eqb_eq in H5; subst; reflexivity|].
  simpl. rewrite H1. reflexivity.
Qed.

Lemma unescape_escapeHtml (s : jsstring) :
  forall fuel, (List.length s <= fuel)%nat -> unescape fuel (escapeHtml s) = s.
Proof.
  rewrite escapeHtml_flat_map.
  induction s as [|c s IH]; intros fuel Hfuel.
  - destruct fuel; reflexivity.
  - destruct fuel as [|fuel]; [simpl in Hfuel; lia|].
    simpl flat_map. rewrite unescape_entity, IH; [reflexivity|simpl in Hfuel; lia].
Qed.

End EscapeFacts.

(** X3: [escapeHtml] leaves none of the characters [<], [>], the double
    quote and the apostrophe in its output, and every [&] of the output
    begins one of the five entities [&amp;], [&lt;], [&gt;], [&quot;],
    [&#039;]: an entity written by an earlier replacement is not escaped
    again by a later one. *)
Theorem X3_escapeHtml_output_is_inert (text : jsstring) :
  Forall (fun c => c <> SecurityReportGenerator.LT /\ c <> SecurityReportGenerator.GT
                   /\ c <> RegExp.QUOT /\ c <> RegExp.APOS)
         (SecurityReportGenerator.escapeHtml text)
  /\ forall k,
       nth_error (SecurityReportGenerator.escapeHtml text) k
       = Some SecurityReportGenerator.AMP ->
       exists body,
         In body [str "amp;"; str "lt;"; str "gt;"; str "quot;"; str "#039;"]
         /\ isPrefixOf body (skipn (S k) (SecurityReportGenerator.escapeHtml text)) = true.
Proof.
  rewrite EscapeFacts.escapeHtml_flat_map. split.
  - induction text as [|c s IH]; [constructor|].
    simpl flat_map. apply Forall_app. split; [|exact IH].
    destruct (EscapeFacts.entity_cases c) as [[Hs [He _]]|[_ [body [He Hb]]]]; rewrite He.
    + constructor; [|constructor].
      unfold SecurityReportGenerator.isSpecial in Hs.
      repeat (apply orb_false_iff in Hs; destruct Hs as [Hs ?]).
      repeat split; apply N.eqb_neq; assumption.
    + simpl in Hb.
      repeat (destruct Hb as [Hb|Hb];
              [subst body; repeat constructor; repeat split; discriminate|]).
      destruct Hb.
  - induction text as [|c s IH]; intros k Hk.
    + destruct k; discriminate Hk.
    + simpl flat_map in *.
      destruct (EscapeFacts.entity_cases c) as [[_ [He Hne]]|[_ [body [He Hb]]]];
        rewrite He in *.
      * destruct k as [|k]; simpl in Hk.
        -- inversion Hk. contradiction.
        -- simpl. apply IH. exact Hk.
      * destruct k as [|k].
        -- exists body. split; [exact Hb|]. simpl.
           simpl in Hb.
           repeat (destruct Hb as [Hb|Hb]; [subst body; reflexivity|]). destruct Hb.
        -- simpl in Hb.
           repeat (destruct Hb as [Hb|Hb];
                   [subst body; simpl in Hk |- *;
                    repeat (destruct k as [|k]; [discriminate Hk|]; simpl in Hk |- *);
                    apply IH; exact Hk|]).
           destruct Hb.
Qed.

(** X4: [escapeHtml] loses nothing: two texts with the same escaped form
    are the same text. *)
Theorem X4_escapeHtml_injective (a b : jsstring) :
  SecurityReportGenerator.escapeHtml a = SecurityReportGenerator.escapeHtml b -> a = b.
Proof.
  intros H.
  assert (Ea : SecurityReportGenerator.unescape (List.length a + List.length b)
                 (SecurityReportGenerator.escapeHtml a) = a)
    by (apply EscapeFacts.unescape_escapeHtml; lia).
  assert (Eb : SecurityReportGenerator.unescape (List.length a + List.length b)
                 (SecurityReportGenerator.escapeHtml b) = b)
    by (apply EscapeFacts.unescape_escapeHtml; lia).
  rewrite H in Ea. congruence.
Qed.

Lemma X4_escapeHtml_injective_witness :
  SecurityReportGenerator.escapeHtml (str "a<b") = SecurityReportGenerator.escapeHtml (str "a<b")
  /\ str "a<b" = str "a<b".
Proof.
  split; [reflexivity|].
  exact (@X4_escapeHtml_injective (str "a<b") (str "a<b") eq_refl).
Defined.

(** X5: [escapeHtml] returns a text unchanged exactly when the text holds
    none of the five characters [&], [<], [>], the double quote and the
    apostrophe; any other text comes out longer. *)
Theorem X5_escapeHtml_identity (text : jsstring) :
  (SecurityReportGenerator.escapeHtml text = text
   <-> forallb (fun c => negb (SecurityReportGenerator.isSpecial c)) text = true)
  /\ (List.length text <= List.length (SecurityReportGenerator.escapeHtml text))%nat
  /\ (forallb (fun c => negb (SecurityReportGenerator.isSpecial c)) text = false ->
      (List.length text < List.length (SecurityReportGenerator.escapeHtml text))%nat).
Proof.
  rewrite EscapeFacts.escapeHtml_flat_map.
  assert (Hlen : forall s : jsstring,
             (List.length s <= List.length (flat_map SecurityReportGenerator.entity s))%nat
             /\ (forallb (fun c => negb (SecurityReportGenerator.isSpecial c)) s = false ->
                 (List.length s < List.length (flat_map SecurityReportGenerator.entity s))%nat)
             /\ (forallb (fun c => negb (SecurityReportGenerator.isSpecial c)) s = true ->
                 flat_map SecurityReportGenerator.entity s = s)).
  { induction s as [|c s [IH1 [IH2 IH3]]]; [simpl; repeat split; auto; discriminate|].
    simpl flat_map. simpl forallb. rewrite length_app.
    destruct (EscapeFacts.entity_cases c) as [[Hs [He _]]|[Hs [body [He Hb]]]];
      rewrite He, Hs.
    - simpl. split; [lia|]. split.
      + intros H. apply IH2 in H. lia.
      + intros H. rewrite IH3 by exact H. reflexivity.
    - simpl in Hb.
      repeat (destruct Hb as [Hb|Hb];
              [subst body; simpl; split; [lia|]; split; [intros _; lia|discriminate]|]).
      destruct Hb. }
  destruct (Hlen text) as [H1 [H2 H3]].
  split; [|split; assumption].
  split; [|exact H3].
  intros Heq.
  destruct (forallb (fun c => negb (SecurityReportGenerator.isSpecial c)) text) eqn:Hf;
    [reflexivity|].
  specialize (H2 eq_refl). rewrite Heq in H2. lia.
Qed.

(** *** The health score of the dashboard *)

(** X6: the health score lies between 0 and 100 whatever the counts, it
    does not go up when the security counts go up, and the grade is F
    exactly when the score is below 45. *)
Theorem X6_health_score_bounded_and_antitone
        (s1 s2 : SecurityScanResult.t) (complexity : option ProjectDashboard.ComplexitySummary) :
  RiskOrder.countsLe s1 s2 ->
  let h1 := ProjectDashboard.calculateOverallHealth (Some s1) complexity in
  let h2 := ProjectDashboard.calculateOverallHealth (Some s2) complexity in
  0 <= ProjectDashboard.overallScore h2 <= ProjectDashboard.overallScore h1
  /\ ProjectDashboard.overallScore h1 <= 100
  /\ (ProjectDashboard.overallGrade h1 = str "F" <-> ProjectDashboard.overallScore h1 < 45).
Proof.
  unfold RiskOrder.countsLe. intros [Hc [Hh [Hm Hl]]].
  unfold ProjectDashboard.calculateOverallHealth. cbv zeta.
  destruct complexity as [c|];
    cbn [ProjectDashboard.overallScore ProjectDashboard.overallGrade].
  - destruct (ProjectDashboard.gt (ProjectDashboard.averageComplexity c) 70);
      [|destruct (ProjectDashboard.gt (ProjectDashboard.averageComplexity c) 50);
        [|destruct (ProjectDashboard.gt (ProjectDashboard.averageComplexity c) 30)]];
      (split; [lia|]; split; [lia|]);
      split_comparisons; split; intros Hg;
        first [lia | discriminate Hg | reflexivity].
  - split; [lia|]. split; [lia|].
    split_comparisons; split; intros Hg;
      first [lia | discriminate Hg | reflexivity].
Qed.

Lemma X6_health_score_bounded_and_antitone_witness :
  RiskOrder.countsLe
    (SecurityScanResult.mk [] 3 4 0 4 0 0 0 0)
    (SecurityScanResult.mk [] 3 5 1 4 0 0 0 0)
  /\ ProjectDashboard.overallScore
       (ProjectDashboard.calculateOverallHealth
          (Some (SecurityScanResult.mk [] 3 5 1 4 0 0 0 0)) None)
     <= ProjectDashboard.overallScore
          (ProjectDashboard.calculateOverallHealth
             (Some (SecurityScanResult.mk [] 3 4 0 4 0 0 0 0)) None).
Proof.
  assert (H : RiskOrder.countsLe
                (SecurityScanResult.mk [] 3 4 0 4 0 0 0 0)
                (SecurityScanResult.mk [] 3 5 1 4 0 0 0 0))
    by (unfold RiskOrder.countsLe; simpl; lia).
  split; [exact H|].
  exact (proj2 (proj1 (@X6_health_score_bounded_and_antitone _ _ None H))).
Defined.

(* ================================================================== *)
(** ** Further properties: line and column of a match *)

Module PositionFacts.
Import Positions JSFacts.

Local Open Scope Z_scope.

Lemma split_nonempty (s : jsstring) (sep : N) : split s sep <> [].
Proof.
  destruct s as [|c s]; simpl; [discriminate|].
  destruct (N.eqb c sep); [discriminate|].
  destruct (split s sep); discriminate.
Qed.

Lemma occurs_at_LF (s : jsstring) (k : nat) :
  occurs_at [LF] s k <-> nth_error s k = Some LF.
Proof.
  unfold occurs_at. revert k. induction s as [|c s IH]; intros k.
  - destruct k; simpl; split; try discriminate; intros [H _]; discriminate.
  - destruct k as [|k].
    + change (skipn 0 (c :: s)) with (c :: s).
      change (isPrefixOf [LF] (c :: s)) with (N.eqb LF c && true).
      rewrite andb_true_r, N.eqb_eq. simpl. split.
      * intros [H _]. subst; reflexivity.
      * intros H. inversion H; subst. split; [reflexivity|lia].
    + change (skipn (S k) (c :: s)) with (skipn k s).
      change (nth_error (c :: s) (S k)) with (nth_error s k).
      rewrite <- IH. simpl List.length.
      split; intros [H1 H2]; (split; [exact H1|lia]).
Qed.

(** A search that starts its count at [i0] finds what the search from 0
    finds, moved by [i0]. *)
Lemma lastIndexOf_from_shift (needle s : jsstring) (i0 : Z) :
  0 <= i0 ->
  lastIndexOf_from s needle i0
  = if lastIndexOf s needle <? 0 then -1 else lastIndexOf s needle + i0.
Proof.
  intros Hi0. unfold lastIndexOf.
  destruct (@lastIndexOf_from_spec needle s i0 Hi0) as [[k [Hk [Hocc Hmax]]]|[Hk Hnone]];
    destruct (@lastIndexOf_from_spec needle s 0 ltac:(lia)) as [[k0 [Hk0 [Hocc0 Hmax0]]]|[Hk0 Hnone0]].
  - assert (k = k0) by (apply Hmax0 in Hocc; apply Hmax in Hocc0; lia). subst k0.
    rewrite Hk, Hk0. destruct (Z.ltb_spec (0 + Z.of_nat k) 0); lia.
  - exfalso. exact (Hnone0 k Hocc).
  - exfalso. exact (Hnone k0 Hocc0).
  - rewrite Hk, Hk0. reflexivity.
Qed.

Lemma lastIndexOf_LF_cons (c : N) (p : jsstring) :
  lastIndexOf (c :: p) [LF] + 1
  = if lastIndexOf p [LF] <? 0
    then (if (c =? LF)%N then 1 else 0)
    else lastIndexOf p [LF] + 1 + 1.
Proof.
  unfold lastIndexOf at 1. cbn [lastIndexOf_from].
  change (0 + 1) with 1.
  rewrite (@lastIndexOf_from_shift [LF] p 1) by lia.
  change (isPrefixOf [LF] (c :: p)) with (N.eqb LF c && true).
  rewrite andb_true_r, (N.eqb_sym LF c).
  destruct (Z.ltb_spec (lastIndexOf p [LF]) 0) as [Hneg|Hpos].
  - simpl. destruct (c =? LF)%N; reflexivity.
  - destruct (Z.leb_spec 0 (lastIndexOf p [LF] + 1)); lia.
Qed.

Lemma lastIndexOf_ge (s needle : jsstring) : -1 <= lastIndexOf s needle.
Proof.
  destruct (lastIndexOf_spec s needle) as [[k [Hk _]]|[Hk _]]; lia.
Qed.

Lemma lineOffset_zero_iff (lines : list jsstring) (k : nat) :
  (k < List.length lines)%nat -> lineOffset lines k = 0%nat -> k = 0%nat.
Proof.
  destruct k as [|k]; [reflexivity|].
  destruct lines as [|l rest]; simpl; intros; lia.
Qed.

(** The line and the column of an offset of the content, in numbers that
    count from 0: the line exists, the column is within the line or just
    after its end, and the line begins [column] code units before the
    offset. *)
Lemma position_spec :
  forall (s : jsstring) (i : nat),
    (i <= List.length s)%nat ->
    let p := firstn i s in
    let nl := List.length (split p LF) in
    let ls := lastIndexOf p [LF] + 1 in
    (1 <= nl <= List.length (split s LF))%nat
    /\ 0 <= ls <= Z.of_nat i
    /\ Z.of_nat i - ls <= Z.of_nat (List.length (nth (nl - 1) (split s LF) []))
    /\ Z.of_nat (lineOffset (split s LF) (nl - 1)) = ls.
Proof.
  induction s as [|c s IH]; intros i Hi.
  - simpl in Hi. assert (i = 0%nat) by lia. subst i. simpl. repeat split; lia.
  - destruct i as [|i].
    + simpl firstn. cbv zeta. simpl split at 1. simpl List.length at 1.
      change (lastIndexOf [] [LF]) with (-1).
      pose proof (@split_nonempty (c :: s) LF) as Hne.
      destruct (split (c :: s) LF) as [|l rest]; [contradiction|].
      simpl. repeat split; lia.
    + simpl in Hi. assert (Hi' : (i <= List.length s)%nat) by lia.
      specialize (IH i Hi'). cbv zeta in IH.
      destruct IH as [[Hnl1 Hnl2] [[Hls1 Hls2] [Hcol Hoff]]].
      cbn [firstn]. cbv zeta.
      rewrite lastIndexOf_LF_cons.
      pose proof (lastIndexOf_ge (firstn i s) [LF]) as Hge.
      pose proof (@split_nonempty s LF) as Hne.
      cbn [split].
      destruct (List.length (split (firstn i s) LF)) as [|n] eqn:Hn; [lia|].
      replace (S n - 1)%nat with n in * by lia.
      destruct (c =? LF)%N eqn:Hc.
      * (* a line feed: one more line *)
        cbn [List.length]. rewrite Hn.
        replace (S (S n) - 1)%nat with (S n) by lia.
        cbn [nth lineOffset List.length].
        destruct (Z.ltb_spec (lastIndexOf (firstn i s) [LF]) 0); repeat split; lia.
      * destruct (split (firstn i s) LF) as [|h t] eqn:Hsp; [discriminate Hn|].
        destruct (split s LF) as [|H T] eqn:Hss; [contradiction|].
        cbn [List.length] in *.
        assert (Hnt : List.length t = n) by lia. rewrite Hnt. clear Hnt Hn.
        replace (S n - 1)%nat with n by lia.
        destruct (Z.ltb_spec (lastIndexOf (firstn i s) [LF]) 0) as [Hneg|Hpos].
        -- (* still on the first line *)
           assert (Hk : n = 0%nat).
           { apply (@lineOffset_zero_iff (H :: T)); [simpl; lia|lia]. }
           subst n. cbn [nth lineOffset List.length] in *. repeat split; lia.
        -- destruct n as [|k].
           { cbn [lineOffset] in Hoff. lia. }
           cbn [nth lineOffset List.length] in *. repeat split; lia.
Qed.

Lemma lineNumberOf_nat (s : jsstring) (i : nat) :
  SecurityScanner.lineNumberOf s (Z.of_nat i)
  = Z.of_nat (List.length (split (firstn i s) LF)).
Proof.
  unfold SecurityScanner.lineNumberOf. rewrite substring_prefix, Nat2Z.id. reflexivity.
Qed.

Lemma columnOf_nat (s : jsstring) (i : nat) :
  SecurityScanner.columnOf s (Z.of_nat i)
  = Z.of_nat i - (lastIndexOf (firstn i s) [LF] + 1) + 1.
Proof.
  unfold SecurityScanner.columnOf. rewrite substring_prefix, Nat2Z.id. reflexivity.
Qed.

(** The number of lines of a content and of its parts. *)
Lemma split_length_app (a b : jsstring) :
  (List.length (split (a ++ b) LF) + 1
   = List.length (split a LF) + List.length (split b LF))%nat.
Proof.
  induction a as [|c a IH]; simpl.
  - lia.
  - destruct (c =? LF)%N; simpl.
    + lia.
    + pose proof (@split_nonempty (a ++ b) LF).
      pose proof (@split_nonempty a LF).
      destruct (split (a ++ b) LF); [contradiction|].
      destruct (split a LF); [contradiction|]. simpl in *. lia.
Qed.

Lemma lineNumberOf_monotone (s : jsstring) (i j : nat) :
  (i <= j <= List.length s)%nat ->
  SecurityScanner.lineNumberOf s (Z.of_nat i) <= SecurityScanner.lineNumberOf s (Z.of_nat j).
Proof.
  intros Hij. rewrite !lineNumberOf_nat.
  assert (Hsplit : firstn j s = firstn i s ++ firstn (j - i) (skipn i s)).
  { rewrite <- (firstn_skipn i s) at 1. rewrite firstn_app, firstn_firstn.
    rewrite length_firstn.
    replace (Nat.min j i) with i by lia.
    replace (Nat.min i (List.length s)) with i by lia. reflexivity. }
  rewrite Hsplit.
  pose proof (split_length_app (firstn i s) (firstn (j - i) (skipn i s))) as H.
  pose proof (@split_nonempty (firstn (j - i) (skipn i s)) LF) as Hne.
  destruct (split (firstn (j - i) (skipn i s)) LF); [contradiction|].
  simpl in H. lia.
Qed.

End PositionFacts.


(** The line and the column of an offset, and the way back. *)
Lemma location_round_trip (content : jsstring) (index : Z) :
  0 <= index <= Z.of_nat (List.length content) ->
  let lines := split content LF in
  let line := lineNumberOf content index in
  let column := columnOf content index in
  1 <= line <= Z.of_nat (List.length lines)
  /\ 1 <= column <= Z.of_nat (List.length (lineContentOf lines line)) + 1
  /\ Positions.offsetOf lines line column = index.
Proof.
  intros Hindex. cbv zeta.
  assert (Hi : (Z.to_nat index <= List.length content)%nat) by lia.
  pose proof (@PositionFacts.position_spec content (Z.to_nat index) Hi) as H.
  cbv zeta in H. destruct H as [[Hn1 Hn2] [[Hl1 Hl2] [Hcol Hoff]]].
  replace index with (Z.of_nat (Z.to_nat index)) by lia.
  rewrite PositionFacts.lineNumberOf_nat, PositionFacts.columnOf_nat.
  unfold lineContentOf, Positions.offsetOf.
  replace (Z.to_nat (Z.of_nat (List.length (split (firstn (Z.to_nat index) content) LF)) - 1))
    with (List.length (split (firstn (Z.to_nat index) content) LF) - 1)%nat by lia.
  repeat split; lia.
Qed.


(** X7: the line and the column computed for an offset of the content
    address that offset: the line is one of the lines of the content, the
    column lies within that line or just after its end, and counting the
    earlier lines with their line feeds and then the column leads back to
    the offset. *)
Theorem X7_line_and_column_address_the_offset (content : jsstring) (index : Z) :
  0 <= index <= Z.of_nat (List.length content) ->
  let lines := split content LF in
  let line := lineNumberOf content index in
  let column := columnOf content index in
  1 <= line <= Z.of_nat (List.length lines)
  /\ 1 <= column <= Z.of_nat (List.length (lineContentOf lines line)) + 1
  /\ Positions.offsetOf lines line column = index.
Proof. exact (@location_round_trip content index). Qed.

Lemma X7_line_and_column_address_the_offset_witness :
  0 <= 3 <= Z.of_nat (List.length Samples.evalInsideBlock)
  /\ lineNumberOf Samples.evalInsideBlock 3 = 2
  /\ columnOf Samples.evalInsideBlock 3 = 1
  /\ Positions.offsetOf (split Samples.evalInsideBlock LF)
       (lineNumberOf Samples.evalInsideBlock 3) (columnOf Samples.evalInsideBlock 3) = 3.
Proof.
  assert (H : 0 <= 3 <= Z.of_nat (List.length Samples.evalInsideBlock))
    by (vm_compute; split; discriminate).
  split; [exact H|]. split; [reflexivity|]. split; [reflexivity|].
  exact (proj2 (proj2 (@X7_line_and_column_address_the_offset
                         Samples.evalInsideBlock 3 H))).
Defined.

(** ** Further properties: the order of the issues *)

Module OrderFacts.
Import RegExp RegExpMeasure RegExpFacts VulnerabilityPattern ScannerFacts ScanFacts.

(** A later offset has a later location. *)
Lemma location_increases (content : jsstring) (i j : Z) :
  0 <= i < j -> j <= Z.of_nat (List.length content) ->
  lineNumberOf content i < lineNumberOf content j
  \/ (lineNumberOf content i = lineNumberOf content j
      /\ columnOf content i < columnOf content j).
Proof.
  intros Hij Hj.
  pose proof (@location_round_trip content i) as Hi'.
  pose proof (@location_round_trip content j) as Hj'.
  cbv zeta in Hi', Hj'.
  destruct (Hi' ltac:(lia)) as [_ [_ Hoi]]. destruct (Hj' ltac:(lia)) as [_ [_ Hoj]].
  assert (Hmono : lineNumberOf content i <= lineNumberOf content j).
  { replace i with (Z.of_nat (Z.to_nat i)) by lia.
    replace j with (Z.of_nat (Z.to_nat j)) by lia.
    apply PositionFacts.lineNumberOf_monotone. lia. }
  destruct (Z.eq_dec (lineNumberOf content i) (lineNumberOf content j)) as [Heq|Hne];
    [|left; lia].
  right. split; [exact Heq|].
  unfold Positions.offsetOf in Hoi, Hoj. rewrite Heq in Hoi. lia.
Qed.

Lemma Forall2_pick (A B : Type) (P : A -> B -> Prop) (l : list A) (l' : list B) (b : B) :
  Forall2 P l l' -> In b l' -> exists a, In a l /\ P a b.
Proof.
  induction 1 as [|a0 b0 l0 l0' Hab Hrest IH]; intros Hin.
  - destruct Hin.
  - destruct Hin as [Heq|Hin].
    + subst b0. exists a0. split; [left; reflexivity|exact Hab].
    + destruct (IH Hin) as [a [Ha HP]]. exists a. split; [right; exact Ha|exact HP].
Qed.

Lemma exec_index_bound (R R' : RegExp.t) (s : jsstring) (m : MatchResult) :
  exec R s = (Some m, R') -> 0 <= index m <= Z.of_nat (List.length s).
Proof.
  unfold exec. intros H.
  destruct (firstMatch _ _ _ _) as [[i e]|] eqn:Hfm; [|discriminate].
  inversion H; subst. simpl.
  apply firstMatch_found in Hfm. destruct Hfm as [Hin _]. apply in_seq in Hin. lia.
Qed.

(** What the body of the loop writes into an issue. *)
Lemma locate_fields content lines p idx m :
  locate content lines p idx = Some m ->
  m = IssueMatch.mk (type p) (severity p)
        (lineNumberOf content idx) (columnOf content idx)
        (trim (lineContentOf lines (lineNumberOf content idx)))
        (message p) (description p) (recommendation p)
        (cweId p) (owaspCategory p) (confidence p).
Proof.
  unfold locate. destruct (isInComment _ _); [discriminate|].
  intros H. inversion H. reflexivity.
Qed.

(** The issues the loop adds come from offsets of the content. *)
Lemma matchLoop_located content lines p :
  forall fuel re acc out re',
    matchLoop fuel content lines p re acc = Some (out, re') ->
    exists new,
      out = acc ++ new
      /\ Forall (fun m => exists idx,
                   0 <= idx <= Z.of_nat (List.length content)
                   /\ locate content lines p idx = Some m) new.
Proof.
  induction fuel as [|fuel IH]; intros re acc out re' H; simpl in H.
  - discriminate.
  - destruct (exec re content) as [[m|] re1] eqn:He.
    + apply IH in H. destruct H as [new [Hout Hall]].
      pose proof (exec_index_bound _ _ He) as Hb.
      destruct (locate content lines p (index m)) as [m0|] eqn:Hl; simpl in Hout.
      * exists (m0 :: new). split; [rewrite Hout, <- app_assoc; reflexivity|].
        constructor; [|exact Hall]. exists (index m). split; assumption.
      * exists new. split; assumption.
    + inversion H; subst. exists []. split; [rewrite app_nil_r; reflexivity|constructor].
Qed.

(** With an advancing RegExp the offsets go up from one match to the
    next, and so do the locations of the issues. *)
Lemma matchLoop_sorted content lines p :
  forall fuel re acc out re',
    advancing re = true ->
    matchLoop fuel content lines p re acc = Some (out, re') ->
    exists new,
      out = acc ++ new
      /\ StronglySorted Positions.before new
      /\ Forall (fun m => exists idx,
                   Z.of_nat (Z.to_nat (lastIndex re)) <= idx
                   /\ idx <= Z.of_nat (List.length content)
                   /\ locate content lines p idx = Some m) new.
Proof.
  induction fuel as [|fuel IH]; intros re acc out re' Hadv H; simpl in H.
  - discriminate.
  - destruct (exec re content) as [[m|] re1] eqn:He.
    + pose proof (exec_advances _ _ Hadv He) as [_ [_ [Hidx [Hs [Hg Hi]]]]].
      pose proof (exec_index_bound _ _ He) as Hb.
      assert (Hadv1 : advancing re1 = true).
      { rewrite (@sameRegExp_advancing re re1); [exact Hadv|]. repeat split; assumption. }
      apply (IH _ _ _ _ Hadv1) in H. destruct H as [new [Hout [Hsorted Hall]]].
      assert (Hall' : Forall (fun m0 => exists idx,
                         Z.of_nat (Z.to_nat (lastIndex re)) <= idx
                         /\ idx <= Z.of_nat (List.length content)
                         /\ locate content lines p idx = Some m0) new).
      { revert Hall. apply Forall_impl. intros m0 [idx [H1 [H2 H3]]].
        exists idx. repeat split; try assumption. lia. }
      destruct (locate content lines p (index m)) as [m0|] eqn:Hl; simpl in Hout.
      * exists (m0 :: new). split; [rewrite Hout, <- app_assoc; reflexivity|].
        split.
        -- constructor; [exact Hsorted|].
           revert Hall. apply Forall_impl. intros m1 [idx [H1 [H2 H3]]].
           apply locate_fields in Hl. apply locate_fields in H3.
           unfold Positions.before. subst m0 m1. simpl.
           apply location_increases; lia.
        -- constructor; [|exact Hall'].
           exists (index m). repeat split; try assumption; lia.
      * exists new. repeat split; assumption.
    + inversion H; subst. exists [].
      split; [rewrite app_nil_r; reflexivity|]. split; constructor.
Qed.

Lemma sorted_locations_differ (l : list IssueMatch.t) :
  StronglySorted Positions.before l ->
  NoDup (map (fun m => (IssueMatch.line m, IssueMatch.column m)) l).
Proof.
  induction 1 as [|a l Hs IH Hall]; simpl; constructor; [|exact IH].
  intros Hin. apply in_map_iff in Hin. destruct Hin as [b [Heq Hb]].
  rewrite Forall_forall in Hall. specialize (Hall b Hb).
  inversion Heq. unfold Positions.before in Hall. lia.
Qed.

(** The issues of a file, rule by rule: the rules that ran and pushed
    their matches, and, if the loop was left by the RangeError of a
    [push], the rule whose matches the engine did not take. *)
Lemma scanRules_parts fuel limit content lines fp rp :
  forall ps acc out how ps',
    scanRules fuel limit content lines fp rp ps acc = Some (out, how, ps') ->
    exists ran rest parts,
      ps = ran ++ rest
      /\ Forall2 (fun p part =>
                   (exists p', findPatternMatches fuel content lines p = Some (part, p'))
                   /\ acceptsArguments limit (List.length part) = true)
                ran parts
      /\ out = acc ++ map (fun m => SecurityIssue.mk m fp rp) (List.concat parts)
      /\ match how with
         | Returned _ => rest = []
         | Thrown _ =>
             exists p rest' matches p',
               rest = p :: rest'
               /\ findPatternMatches fuel content lines p = Some (matches, p')
               /\ acceptsArguments limit (List.length matches) = false
         end.
Proof.
  induction ps as [|p ps IH]; intros acc out how ps' H; simpl in H.
  - inversion H; subst. exists [], [], [].
    repeat split; [constructor|simpl; rewrite app_nil_r; reflexivity].
  - unfold bind in H.
    destruct (findPatternMatches fuel content lines p) as [[ms p']|] eqn:Hf;
      [|discriminate].
    destruct (pushAll limit acc _) as [acc'|err] eqn:Hpush.
    + apply pushAll_Returned in Hpush. destruct Hpush as [Hacc Hacc'].
      rewrite length_map in Hacc. subst acc'.
      destruct (scanRules _ _ _ _ _ _ ps _) as [[[out' how'] rest']|] eqn:Hr;
        [|discriminate].
      inversion H; subst out' how' ps'. apply IH in Hr.
      destruct Hr as [ran [rest [parts [Hps [Hall [Hout Hhow]]]]]].
      exists (p :: ran), rest, (ms :: parts).
      split; [simpl; rewrite Hps; reflexivity|].
      split; [constructor; [split; [exists p'; exact Hf|exact Hacc]|exact Hall]|].
      split; [|exact Hhow].
      rewrite Hout. simpl. rewrite map_app, app_assoc. reflexivity.
    + apply pushAll_Thrown in Hpush. rewrite length_map in Hpush.
      inversion H; subst out how ps'.
      exists [], (p :: ps), [].
      split; [reflexivity|]. split; [constructor|].
      split; [simpl; rewrite app_nil_r; reflexivity|].
      exists p, ps, ms, p'. repeat split; assumption.
Qed.

(** The issues of a workspace, file by file: those of the files whose
    list the [push] of the orchestrator took, which are the files
    counted; what a scan left in the rules does not change what the next
    file gives. *)
Lemma scanFiles_parts fuel host :
  forall files ps acc n out n' ps',
    scanFiles fuel host ps files acc n = Some (out, n', ps') ->
    exists parts,
      Forall2 (fun f part =>
                 exists ps1, scanFile fuel host ps (filePath f) (relativePath f)
                             = Some (Returned part, ps1))
              files parts
      /\ out = acc ++ List.concat
                        (filter (fun part => acceptsArguments (maxArguments host)
                                               (List.length part)) parts)
      /\ n' = n + Z.of_nat (List.length
                              (filter (fun part => acceptsArguments (maxArguments host)
                                                     (List.length part)) parts)).
Proof.
  induction files as [|f files IH]; intros ps acc n out n' ps' H; simpl in H.
  - inversion H; subst. exists [].
    split; [constructor|]. simpl. rewrite app_nil_r. split; [reflexivity|lia].
  - unfold bind in H.
    destruct (scanFile fuel host ps (filePath f) (relativePath f)) as [[r ps1]|] eqn:Hf;
      [|discriminate].
    destruct (scanFile_never_throws _ _ _ _ _ Hf) as [fileIssues Hr]. subst r.
    pose proof (scanFile_keeps_rules _ _ _ _ _ Hf) as Hkeep.
    assert (Hback : forall parts,
               Forall2 (fun g part =>
                          exists ps2, scanFile fuel host ps1 (filePath g) (relativePath g)
                                      = Some (Returned part, ps2)) files parts ->
               Forall2 (fun g part =>
                          exists ps2, scanFile fuel host ps (filePath g) (relativePath g)
                                      = Some (Returned part, ps2)) files parts).
    { intros parts. apply Forall2_impl. intros g part [ps2 Hg].
      pose proof (@scanFile_state fuel host ps1 ps (filePath g) (relativePath g) Hkeep)
        as Hst.
      rewrite Hg in Hst.
      destruct (scanFile fuel host ps (filePath g) (relativePath g)) as [[r3 ps3]|];
        [|contradiction].
      destruct Hst as [Hr _]. subst r3. exists ps3. reflexivity. }
    destruct (pushAll (maxArguments host) acc fileIssues) as [acc'|err] eqn:Hpush.
    + apply pushAll_Returned in Hpush. destruct Hpush as [Hacc Hacc']. subst acc'.
      apply IH in H. destruct H as [parts [Hall [Hout Hn]]].
      exists (fileIssues :: parts).
      split; [constructor; [exists ps1; exact Hf|exact (Hback _ Hall)]|].
      simpl. rewrite Hacc. simpl.
      split; [rewrite Hout, app_assoc; reflexivity|lia].
    + apply pushAll_Thrown in Hpush.
      apply IH in H. destruct H as [parts [Hall [Hout Hn]]].
      exists (fileIssues :: parts).
      split; [constructor; [exists ps1; exact Hf|exact (Hback _ Hall)]|].
      simpl. rewrite Hpush. split; assumption.
Qed.

(** No two rules of the catalog give one kind two severities, two CWE
    ids or two OWASP categories, and every rule has a CWE id and an OWASP
    category. *)
Lemma catalog_kind_determines_class (p q : VulnerabilityPattern.t) :
  In p Catalog.initializePatterns ->
  In q Catalog.initializePatterns ->
  type p = type q ->
  severity p = severity q /\ cweId p = cweId q /\ owaspCategory p = owaspCategory q.
Proof.
  intros Hp Hq. simpl in Hp, Hq.
  repeat (destruct Hp as [Hp|Hp];
          [subst p;
           repeat (destruct Hq as [Hq|Hq];
                   [subst q; intros Hty;
                    first [discriminate Hty | repeat split; reflexivity]|]);
           destruct Hq|]).
  destruct Hp.
Qed.

Lemma catalog_rules_classified (p : VulnerabilityPattern.t) :
  In p Catalog.initializePatterns -> cweId p <> None /\ owaspCategory p <> None.
Proof.
  intros Hp. simpl in Hp.
  repeat (destruct Hp as [Hp|Hp]; [subst p; split; discriminate|]).
  destruct Hp.
Qed.

End OrderFacts.

(** The matches of one rule of the catalog, in the order of the file. *)
Lemma rule_matches_sorted fuel content lines p issues p' :
  In (resetRule p) Catalog.initializePatterns ->
  findPatternMatches fuel content lines p = Some (issues, p') ->
  StronglySorted Positions.before issues
  /\ NoDup (map (fun m => (IssueMatch.line m, IssueMatch.column m)) issues).
Proof.
  intros Hin H.
  pose proof (@catalog_rule_advancing p Hin) as Hadv.
  unfold findPatternMatches, bind in H.
  destruct (matchLoop _ _ _ _ _ _) as [[out re']|] eqn:Hm; [|discriminate].
  inversion H; subst.
  apply OrderFacts.matchLoop_sorted in Hm; [|exact Hadv].
  destruct Hm as [new [Hout [Hsorted _]]]. simpl in Hout. subst new.
  split; [exact Hsorted|]. apply OrderFacts.sorted_locations_differ. exact Hsorted.
Qed.


(** X8: the issues that one rule of the catalog finds in a content come
    in the order of the file, each at a location strictly after the one
    before; no two of them share a line and a column. *)
Theorem X8_matches_of_a_rule_are_in_file_order fuel content lines p issues p' :
  In (resetRule p) Catalog.initializePatterns ->
  findPatternMatches fuel content lines p = Some (issues, p') ->
  StronglySorted Positions.before issues
  /\ NoDup (map (fun m => (IssueMatch.line m, IssueMatch.column m)) issues).
Proof. exact (@rule_matches_sorted fuel content lines p issues p'). Qed.

Lemma X8_matches_of_a_rule_are_in_file_order_witness :
  In (resetRule Samples.evalRule) Catalog.initializePatterns
  /\ exists issues p',
       findPatternMatches 30 Samples.twoEvals
         (split Samples.twoEvals LF) Samples.evalRule = Some (issues, p')
       /\ map (fun m => (IssueMatch.line m, IssueMatch.column m)) issues
          = [(1, 1); (1, 10)]
       /\ StronglySorted Positions.before issues
       /\ NoDup (map (fun m => (IssueMatch.line m, IssueMatch.column m)) issues).
Proof.
  assert (Hin : In (resetRule Samples.evalRule) Catalog.initializePatterns)
    by (do 8 right; left; reflexivity).
  split; [exact Hin|].
  destruct (findPatternMatches 30 Samples.twoEvals
              (split Samples.twoEvals LF) Samples.evalRule)
    as [[issues p']|] eqn:E; [|vm_compute in E; discriminate].
  exists issues, p'. split; [reflexivity|].
  split; [vm_compute in E; inversion E; reflexivity|].
  exact (@X8_matches_of_a_rule_are_in_file_order 30 _ _ _ _ _ Hin E).
Defined.

(** X9: the issues of a readable file are the issues of the first rule of
    the scanner, then those of the second, and so on down the list, each
    issue with the two paths of the file, for the rules up to the first
    one, if any, that finds more matches than the engine takes as the
    arguments of one [push]: the matches of that rule and of the rules
    after it are missing.  Among the rules that ran nothing is merged,
    dropped or reordered, and for a scanner of the catalog each rule's
    issues are in the order of the file. *)
Theorem X9_issues_of_a_file_rule_by_rule fuel host ps fp rp content issues ps' :
  ofCatalog ps ->
  readFile host fp = Returned content ->
  scanFile fuel host ps fp rp = Some (Returned issues, ps') ->
  exists ran rest parts,
    ps = ran ++ rest
    /\ Forall2 (fun p part =>
                 (exists p', findPatternMatches fuel content (split content LF) p
                             = Some (part, p'))
                 /\ StronglySorted Positions.before part
                 /\ acceptsArguments (maxArguments host) (List.length part) = true)
              ran parts
    /\ issues = map (fun m => SecurityIssue.mk m fp rp) (List.concat parts)
    /\ (rest = []
        \/ exists p rest' matches p',
             rest = p :: rest'
             /\ findPatternMatches fuel content (split content LF) p = Some (matches, p')
             /\ acceptsArguments (maxArguments host) (List.length matches) = false).
Proof.
  intros Hcat Hread H. unfold scanFile, bind in H. rewrite Hread in H.
  destruct (scanRules _ _ _ _ _ _ _ _) as [[[out how] ps1]|] eqn:Hr; [|discriminate].
  inversion H; subst out ps1. clear H.
  apply OrderFacts.scanRules_parts in Hr.
  destruct Hr as [ran [rest [parts [Hps [Hall [Hout Hhow]]]]]].
  exists ran, rest, parts. split; [exact Hps|].
  split; [|split; [exact Hout|destruct how; [left|right]; exact Hhow]].
  assert (Hran : forall p, In p ran -> In (resetRule p) Catalog.initializePatterns).
  { intros p Hp. unfold ofCatalog in Hcat. rewrite <- Hcat. apply in_map.
    rewrite Hps. apply in_or_app. left. exact Hp. }
  clear Hout Hcat Hps Hhow.
  induction Hall as [|p part ran0 parts0 [[p' Hf] Hacc] Hrest IH]; constructor.
  - split; [exists p'; exact Hf|]. split; [|exact Hacc].
    exact (proj1 (@rule_matches_sorted fuel content (split content LF) p part p'
                    (Hran p (or_introl eq_refl)) Hf)).
  - apply IH. intros q Hq. apply Hran. right. exact Hq.
Qed.

Lemma X9_issues_of_a_file_rule_by_rule_witness :
  ofCatalog Catalog.initializePatterns
  /\ (* an engine that takes the matches of every rule: three issues *)
     (readFile (Samples.hostOf Samples.secretThenEvals) (filePath Samples.appJs)
      = Returned Samples.secretThenEvals
      /\ exists issues ps' parts,
           scanFile 80 (Samples.hostOf Samples.secretThenEvals) Catalog.initializePatterns
             (filePath Samples.appJs) (relativePath Samples.appJs)
           = Some (Returned issues, ps')
           /\ issues = map (fun m => SecurityIssue.mk m (filePath Samples.appJs)
                                       (relativePath Samples.appJs))
                           (List.concat parts)
           /\ map SecurityIssue.type issues = [hardcoded_secret; unsafe_eval; unsafe_eval])
  /\ (* an engine that takes one argument: the two calls are not pushed *)
     (readFile (Samples.hostTaking 1 Samples.secretThenEvals) (filePath Samples.appJs)
      = Returned Samples.secretThenEvals
      /\ exists issues ps' parts,
           scanFile 80 (Samples.hostTaking 1 Samples.secretThenEvals)
             Catalog.initializePatterns
             (filePath Samples.appJs) (relativePath Samples.appJs)
           = Some (Returned issues, ps')
           /\ issues = map (fun m => SecurityIssue.mk m (filePath Samples.appJs)
                                       (relativePath Samples.appJs))
                           (List.concat parts)
           /\ map SecurityIssue.type issues = [hardcoded_secret]).
Proof.
  assert (Hcat : ofCatalog Catalog.initializePatterns) by reflexivity.
  split; [exact Hcat|]. split.
  - split; [reflexivity|].
    destruct (scanFile 80 (Samples.hostOf Samples.secretThenEvals)
                Catalog.initializePatterns
                (filePath Samples.appJs) (relativePath Samples.appJs))
      as [[[issues|err] ps']|] eqn:E;
      [|vm_compute in E; discriminate|vm_compute in E; discriminate].
    destruct (@X9_issues_of_a_file_rule_by_rule 80 (Samples.hostOf Samples.secretThenEvals)
                Catalog.initializePatterns (filePath Samples.appJs)
                (relativePath Samples.appJs) Samples.secretThenEvals issues ps'
                Hcat eq_refl E) as [ran [rest [parts [_ [_ [Hout _]]]]]].
    exists issues, ps', parts. split; [reflexivity|]. split; [exact Hout|].
    vm_compute in E. inversion E. reflexivity.
  - split; [reflexivity|].
    destruct (scanFile 80 (Samples.hostTaking 1 Samples.secretThenEvals)
                Catalog.initializePatterns
                (filePath Samples.appJs) (relativePath Samples.appJs))
      as [[[issues|err] ps']|] eqn:E;
      [|vm_compute in E; discriminate|vm_compute in E; discriminate].
    destruct (@X9_issues_of_a_file_rule_by_rule 80
                (Samples.hostTaking 1 Samples.secretThenEvals)
                Catalog.initializePatterns (filePath Samples.appJs)
                (relativePath Samples.appJs) Samples.secretThenEvals issues ps'
                Hcat eq_refl E) as [ran [rest [parts [_ [_ [Hout _]]]]]].
    exists issues, ps', parts. split; [reflexivity|]. split; [exact Hout|].
    vm_compute in E. inversion E. reflexivity.
Defined.

(** X10: the issues of a workspace scan are, file after file in the order
    of the collected list with the files of other extensions left out,
    the issues that [scanFile] gives for each file on its own, for the
    files whose issues the engine takes as the arguments of one [push];
    the issues of a file with more are missing as a whole.  filesScanned
    is the number of the files whose issues were pushed, whether or not
    each could be read. *)
Theorem X10_issues_of_a_workspace_file_by_file fuel host clock ps files r ps' :
  scanWorkspace fuel host clock ps files = Some (r, ps') ->
  exists parts,
    Forall2 (fun f part =>
               exists ps1, scanFile fuel host ps (filePath f) (relativePath f)
                           = Some (Returned part, ps1))
            (filter (isJsTs host) files) parts
    /\ let pushed :=
         filter (fun part => acceptsArguments (maxArguments host) (List.length part))
                parts in
       SecurityScanResult.issues r = List.concat pushed
       /\ SecurityScanResult.filesScanned r = Z.of_nat (List.length pushed).
Proof.
  intros H.
  apply WorkspaceFacts.scanWorkspace_inv in H.
  destruct H as [issues [n [Hs Hr]]]. subst r.
  apply OrderFacts.scanFiles_parts in Hs. destruct Hs as [parts [Hall [Hout Hn]]].
  exists parts. split; [exact Hall|]. cbv zeta. simpl.
  split; [exact Hout|exact Hn].
Qed.

Lemma X10_issues_of_a_workspace_file_by_file_witness :
  (* every list is pushed: the unreadable file and the readable one are
     counted, the three issues of the readable one are in the result *)
  (exists r ps' parts,
     scanWorkspace 80 (Samples.hostWithBroken Samples.secretThenEvals) Samples.clock0
       Catalog.initializePatterns [Samples.brokenJs; Samples.readmeMd; Samples.appJs]
     = Some (r, ps')
     /\ SecurityScanResult.issues r
        = List.concat
            (filter (fun part =>
                       acceptsArguments
                         (maxArguments (Samples.hostWithBroken Samples.secretThenEvals))
                         (List.length part)) parts)
     /\ SecurityScanResult.filesScanned r = 2
     /\ SecurityScanResult.totalIssues r = 3)
  /\ (* an engine that takes two arguments: the rules push one and two
        issues, the three of the file are not pushed, the file not counted *)
     (exists r ps' parts,
        scanWorkspace 80 (Samples.hostTaking 2 Samples.secretThenEvals) Samples.clock0
          Catalog.initializePatterns [Samples.appJs]
        = Some (r, ps')
        /\ map (@List.length SecurityIssue.t) parts = [3%nat]
        /\ SecurityScanResult.issues r = []
        /\ SecurityScanResult.filesScanned r = 0).
Proof.
  split.
  - destruct (scanWorkspace 80 (Samples.hostWithBroken Samples.secretThenEvals)
                Samples.clock0 Catalog.initializePatterns
                [Samples.brokenJs; Samples.readmeMd; Samples.appJs])
      as [[r ps']|] eqn:E; [|vm_compute in E; discriminate].
    destruct (@X10_issues_of_a_workspace_file_by_file 80 _ _ _ _ _ _ E)
      as [parts [_ [Hout _]]].
    exists r, ps', parts. split; [reflexivity|]. split; [exact Hout|].
    vm_compute in E. inversion E. split; reflexivity.
  - destruct (scanWorkspace 80 (Samples.hostTaking 2 Samples.secretThenEvals)
                Samples.clock0 Catalog.initializePatterns [Samples.appJs])
      as [[r ps']|] eqn:E; [|vm_compute in E; discriminate].
    destruct (@X10_issues_of_a_workspace_file_by_file 80 _ _ _ _ _ _ E)
      as [parts [Hall [Hout Hn]]].
    exists r, ps', parts. split; [reflexivity|].
    assert (Hfiles : filter (isJsTs (Samples.hostTaking 2 Samples.secretThenEvals))
                       [Samples.appJs] = [Samples.appJs]) by reflexivity.
    rewrite Hfiles in Hall.
    inversion Hall as [|f part fs parts0 [ps1 Hscan] Hrest]; subst.
    inversion Hrest; subst.
    split.
    + vm_compute in Hscan. inversion Hscan. reflexivity.
    + vm_compute in E. inversion E. split; reflexivity.
Defined.

(** Where an issue of a workspace scan comes from: a collected file with
    a scanned extension that could be read, a rule of the scanner, and an
    offset of the content at which the loop built the issue. *)
Lemma issue_source fuel host clock ps files r ps' i :
  scanWorkspace fuel host clock ps files = Some (r, ps') ->
  In i (SecurityScanResult.issues r) ->
  exists f content p idx,
    In f files /\ isJsTs host f = true
    /\ readFile host (filePath f) = Returned content
    /\ In p ps
    /\ 0 <= idx <= Z.of_nat (List.length content)
    /\ locate content (split content LF) p idx = Some (SecurityIssue.located i)
    /\ SecurityIssue.filePath i = filePath f
    /\ SecurityIssue.relativePath i = relativePath f.
Proof.
  intros H Hi.
  apply WorkspaceFacts.scanWorkspace_inv in H.
  destruct H as [issues [n [Hs Hr]]]. subst r. simpl in Hi.
  apply OrderFacts.scanFiles_parts in Hs. destruct Hs as [parts [Hall [Hout _]]].
  simpl in Hout. subst issues.
  apply in_concat in Hi. destruct Hi as [part [Hpart Hi]].
  apply filter_In in Hpart. destruct Hpart as [Hpart _].
  destruct (@OrderFacts.Forall2_pick _ _ _ _ _ _ Hall Hpart) as [f [Hfin [ps1 Hscan]]].
  apply filter_In in Hfin. destruct Hfin as [Hfin Hjs].
  unfold scanFile, bind in Hscan.
  destruct (readFile host (filePath f)) as [content|err] eqn:Hread.
  - destruct (scanRules _ _ _ _ _ _ _ _) as [[[out how] ps2]|] eqn:Hr; [|discriminate].
    inversion Hscan; subst out ps2. clear Hscan.
    apply OrderFacts.scanRules_parts in Hr.
    destruct Hr as [ran [rest [rparts [Hps [Hrall [Hrout _]]]]]].
    simpl in Hrout. subst part.
    apply in_map_iff in Hi. destruct Hi as [m [Hm Hin]].
    apply in_concat in Hin. destruct Hin as [rpart [Hrpart Hin]].
    destruct (@OrderFacts.Forall2_pick _ _ _ _ _ _ Hrall Hrpart)
      as [p [Hp [[p' Hfp] _]]].
    unfold findPatternMatches, bind in Hfp.
    destruct (matchLoop _ _ _ _ _ _) as [[out re']|] eqn:Hml; [|discriminate].
    inversion Hfp; subst out. apply OrderFacts.matchLoop_located in Hml.
    destruct Hml as [new [Hnew Hforall]]. simpl in Hnew. subst new.
    rewrite Forall_forall in Hforall.
    destruct (Hforall m Hin) as [idx [Hb Hl]].
    exists f, content, p, idx. subst i. simpl.
    assert (Hpin : In p ps) by (rewrite Hps; apply in_or_app; left; exact Hp).
    repeat split; try assumption; try reflexivity; lia.
  - inversion Hscan; subst part. destruct Hi.
Qed.

(** X11: every issue of a workspace scan is located inside the file it
    names: the file is one of the collected files with a scanned
    extension, it could be read, the line of the issue is one of its
    lines, the column lies within that line or just after its end, and
    the code of the issue is the text of that line, trimmed. *)
Theorem X11_issue_is_located_in_its_file fuel host clock ps files r ps' i :
  scanWorkspace fuel host clock ps files = Some (r, ps') ->
  In i (SecurityScanResult.issues r) ->
  exists f content,
    In f files /\ isJsTs host f = true
    /\ SecurityIssue.filePath i = filePath f
    /\ SecurityIssue.relativePath i = relativePath f
    /\ readFile host (filePath f) = Returned content
    /\ 1 <= SecurityIssue.line i <= Z.of_nat (List.length (split content LF))
    /\ 1 <= SecurityIssue.column i
       <= Z.of_nat (List.length (lineContentOf (split content LF) (SecurityIssue.line i))) + 1
    /\ SecurityIssue.code i
       = trim (lineContentOf (split content LF) (SecurityIssue.line i)).
Proof.
  intros H Hi.
  destruct (issue_source _ _ _ _ _ _ H Hi)
    as [f [content [p [idx [Hf [Hjs [Hread [_ [Hb [Hl [Hfp Hrp]]]]]]]]]]].
  apply OrderFacts.locate_fields in Hl.
  pose proof (@location_round_trip content idx Hb) as Hrt.
  cbv zeta in Hrt. destruct Hrt as [Hline [Hcol _]].
  exists f, content.
  unfold SecurityIssue.line, SecurityIssue.column, SecurityIssue.code.
  rewrite Hl. simpl.
  repeat split; try assumption; lia.
Qed.

Lemma X11_issue_is_located_in_its_file_witness :
  exists r ps' i,
    scanWorkspace 50 (Samples.hostOf Samples.secretLine) Samples.clock0
      Catalog.initializePatterns [Samples.appJs] = Some (r, ps')
    /\ In i (SecurityScanResult.issues r)
    /\ exists f content,
         In f [Samples.appJs]
         /\ readFile (Samples.hostOf Samples.secretLine) (filePath f) = Returned content
         /\ 1 <= SecurityIssue.line i <= Z.of_nat (List.length (split content LF)).
Proof.
  destruct (scanWorkspace 50 (Samples.hostOf Samples.secretLine) Samples.clock0
              Catalog.initializePatterns [Samples.appJs])
    as [[r ps']|] eqn:E; [|vm_compute in E; discriminate].
  assert (Hne : exists i, In i (SecurityScanResult.issues r)).
  { vm_compute in E. inversion E. eexists. left. reflexivity. }
  destruct Hne as [i Hi].
  exists r, ps', i. split; [reflexivity|]. split; [exact Hi|].
  destruct (@X11_issue_is_located_in_its_file 50 _ _ _ _ _ _ _ E Hi)
    as [f [content [Hf [_ [_ [_ [Hread [Hline _]]]]]]]].
  exists f, content. repeat split; try assumption; lia.
Defined.

(** X12: in the results of a scanner of the catalog the kind of an issue
    determines its severity, its CWE id and its OWASP category: two
    issues of the same kind, from the same scan or from two scans, agree
    on the three; and every issue has a CWE id and an OWASP category. *)
Theorem X12_kind_determines_severity_and_references
        fuel1 host1 clock1 ps1 files1 r1 ps1' fuel2 host2 clock2 ps2 files2 r2 ps2' i j :
  ofCatalog ps1 -> ofCatalog ps2 ->
  scanWorkspace fuel1 host1 clock1 ps1 files1 = Some (r1, ps1') ->
  scanWorkspace fuel2 host2 clock2 ps2 files2 = Some (r2, ps2') ->
  In i (SecurityScanResult.issues r1) ->
  In j (SecurityScanResult.issues r2) ->
  SecurityIssue.type i = SecurityIssue.type j ->
  SecurityIssue.severity i = SecurityIssue.severity j
  /\ SecurityIssue.cweId i = SecurityIssue.cweId j
  /\ IssueMatch.owaspCategory (SecurityIssue.located i)
     = IssueMatch.owaspCategory (SecurityIssue.located j)
  /\ SecurityIssue.cweId i <> None
  /\ IssueMatch.owaspCategory (SecurityIssue.located i) <> None.
Proof.
  intros Hcat1 Hcat2 H1 H2 Hi Hj Hty.
  assert (Hrule : forall fuel host clock ps files r ps' k,
             ofCatalog ps ->
             scanWorkspace fuel host clock ps files = Some (r, ps') ->
             In k (SecurityScanResult.issues r) ->
             exists p, In p Catalog.initializePatterns
                       /\ SecurityIssue.type k = VulnerabilityPattern.type p
                       /\ SecurityIssue.severity k = VulnerabilityPattern.severity p
                       /\ SecurityIssue.cweId k = VulnerabilityPattern.cweId p
                       /\ IssueMatch.owaspCategory (SecurityIssue.located k)
                          = VulnerabilityPattern.owaspCategory p).
  { intros fuel host clock ps files r ps' k Hcat H Hk.
    apply WorkspaceFacts.scanWorkspace_inv in H.
    destruct H as [issues [n [Hs Hr]]]. subst r. simpl in Hk.
    destruct (WorkspaceFacts.scanFiles_issues _ _ _ _ _ _ Hs k Hk) as [[]|Ho].
    destruct Ho as [g [content [p [index [m [_ [_ [Hp [Hl He]]]]]]]]].
    unfold ofCatalog in Hcat. rewrite Hcat in Hp.
    apply OrderFacts.locate_fields in Hl. exists p. subst k m.
    unfold SecurityIssue.type, SecurityIssue.severity, SecurityIssue.cweId. simpl.
    repeat split; try reflexivity. exact Hp. }
  destruct (Hrule _ _ _ _ _ _ _ i Hcat1 H1 Hi) as [p [Hp [Hpt [Hps [Hpc Hpo]]]]].
  destruct (Hrule _ _ _ _ _ _ _ j Hcat2 H2 Hj) as [q [Hq [Hqt [Hqs [Hqc Hqo]]]]].
  assert (Hpq : VulnerabilityPattern.type p = VulnerabilityPattern.type q) by congruence.
  destruct (@OrderFacts.catalog_kind_determines_class p q Hp Hq Hpq) as [Hs [Hc Ho]].
  destruct (@OrderFacts.catalog_rules_classified p Hp) as [Hc1 Ho1].
  rewrite Hps, Hqs, Hpc, Hqc, Hpo, Hqo.
  repeat split; assumption.
Qed.

Lemma X12_kind_determines_severity_and_references_witness :
  exists r ps' i,
    ofCatalog Catalog.initializePatterns
    /\ scanWorkspace 50 (Samples.hostOf Samples.secretLine) Samples.clock0
         Catalog.initializePatterns [Samples.appJs] = Some (r, ps')
    /\ In i (SecurityScanResult.issues r)
    /\ SecurityIssue.cweId i <> None.
Proof.
  destruct (scanWorkspace 50 (Samples.hostOf Samples.secretLine) Samples.clock0
              Catalog.initializePatterns [Samples.appJs])
    as [[r ps']|] eqn:E; [|vm_compute in E; discriminate].
  assert (Hne : exists i, In i (SecurityScanResult.issues r)).
  { vm_compute in E. inversion E. eexists. left. reflexivity. }
  destruct Hne as [i Hi].
  assert (Hcat : ofCatalog Catalog.initializePatterns) by reflexivity.
  exists r, ps', i. split; [exact Hcat|]. split; [reflexivity|]. split; [exact Hi|].
  exact (proj1 (proj2 (proj2 (proj2
           (@X12_kind_determines_severity_and_references
              50 _ _ _ _ _ _ 50 _ _ _ _ _ _ i i Hcat Hcat E E Hi Hi eq_refl))))).
Defined.

(** X16: no issue of a workspace scan sits in what the comment filter
    takes for a comment: on the line the issue points to, no [//] begins
    before the column of the issue, and every block-comment opener before
    the column is followed by a closer before the column. *)
Theorem X16_no_issue_in_a_comment fuel host clock ps files r ps' i :
  scanWorkspace fuel host clock ps files = Some (r, ps') ->
  In i (SecurityScanResult.issues r) ->
  exists content,
    readFile host (SecurityIssue.filePath i) = Returned content
    /\ let line := lineContentOf (split content LF) (SecurityIssue.line i) in
       isInComment line (SecurityIssue.column i) = false
       /\ (forall k, occurs_at lineComment line k ->
                     SecurityIssue.column i <= Z.of_nat k + 1)
       /\ (forall k, CommentMarkers.before blockOpen line k (SecurityIssue.column i) ->
                     exists c, CommentMarkers.before blockClose line c (SecurityIssue.column i)
                               /\ (k < c)%nat).
Proof.
  intros H Hi.
  destruct (issue_source _ _ _ _ _ _ H Hi)
    as [f [content [p [idx [_ [_ [Hread [_ [_ [Hl [Hfp _]]]]]]]]]]].
  exists content. rewrite Hfp. split; [exact Hread|]. cbv zeta.
  pose proof (OrderFacts.locate_fields _ _ _ _ Hl) as Hfields.
  unfold SecurityIssue.line, SecurityIssue.column. rewrite Hfields. simpl.
  assert (Hc : isInComment (lineContentOf (split content LF) (lineNumberOf content idx))
                           (columnOf content idx) = false).
  { unfold locate in Hl. destruct (isInComment _ _); [discriminate|reflexivity]. }
  split; [exact Hc|].
  assert (Hnot : ~ ((exists k, CommentMarkers.before lineComment
                       (lineContentOf (split content LF) (lineNumberOf content idx)) k
                       (columnOf content idx))
                    \/ openBlockOnLine
                         (lineContentOf (split content LF) (lineNumberOf content idx))
                         (columnOf content idx))).
  { intros Hyes. apply CommentFacts.isInComment_iff in Hyes. congruence. }
  split.
  - intros k Hk.
    destruct (Z_le_gt_dec (columnOf content idx) (Z.of_nat k + 1)) as [Hle|Hgt];
      [exact Hle|].
    exfalso. apply Hnot. left. exists k. split; [exact Hk|lia].
  - intros k Hk.
    assert (Hdec : forall n : nat,
               (exists c, (c < n)%nat
                          /\ CommentMarkers.before blockClose
                               (lineContentOf (split content LF) (lineNumberOf content idx))
                               c (columnOf content idx) /\ (k < c)%nat)
               \/ (forall c, (c < n)%nat ->
                             CommentMarkers.before blockClose
                               (lineContentOf (split content LF) (lineNumberOf content idx))
                               c (columnOf content idx) -> (c <= k)%nat)).
    { induction n as [|n IHn].
      - right. intros c Hc0. lia.
      - destruct IHn as [[c [Hcn Hcc]]|Hnone].
        + left. exists c. split; [lia|exact Hcc].
        + destruct (le_lt_dec n k) as [Hnk|Hnk].
          * right. intros c Hcn Hcb.
            destruct (Nat.eq_dec c n) as [->|Hne]; [exact Hnk|].
            apply Hnone; [lia|exact Hcb].
          * destruct (isPrefixOf blockClose
                        (skipn n (lineContentOf (split content LF)
                                                (lineNumberOf content idx)))) eqn:Hpre.
            -- destruct (Z_lt_dec (Z.of_nat n + 1) (columnOf content idx)) as [Hcol|Hcol].
               ++ destruct (le_lt_dec
                              (n + List.length blockClose)
                              (List.length (lineContentOf (split content LF)
                                              (lineNumberOf content idx)))) as [Hlen|Hlen].
                  ** left. exists n. split; [lia|]. split; [|exact Hnk].
                     split; [split; assumption|exact Hcol].
                  ** right. intros c Hcn Hcb.
                     destruct (Nat.eq_dec c n) as [->|Hne];
                       [destruct Hcb as [[_ Hcl] _]; lia|].
                     apply Hnone; [lia|exact Hcb].
               ++ right. intros c Hcn Hcb.
                  destruct (Nat.eq_dec c n) as [->|Hne];
                    [destruct Hcb as [_ Hcb]; lia|].
                  apply Hnone; [lia|exact Hcb].
            -- right. intros c Hcn Hcb.
               destruct (Nat.eq_dec c n) as [->|Hne];
                 [destruct Hcb as [[Hcb _] _]; congruence|].
               apply Hnone; [lia|exact Hcb]. }
    destruct (Hdec (Z.to_nat (columnOf content idx))) as [[c [_ [Hcb Hkc]]]|Hnone].
    + exists c. split; assumption.
    + exfalso. apply Hnot. right. exists k. split; [exact Hk|].
      intros c Hcb.
      assert (Hck : (c <= k)%nat).
      { apply Hnone; [destruct Hcb as [_ Hcb]; lia|exact Hcb]. }
      destruct (Nat.eq_dec c k) as [->|Hne]; [|lia].
      exfalso. destruct Hk as [[Hko _] _]. destruct Hcb as [[Hkc _] _].
      revert Hko Hkc. generalize (skipn k (lineContentOf (split content LF)
                                              (lineNumberOf content idx))).
      intros [|[|q] l]; simpl; try discriminate.
      intros Ho Hcl.
      apply andb_true_iff in Ho. destruct Ho as [Ho _].
      apply andb_true_iff in Hcl. destruct Hcl as [Hcl _].
      apply Pos.eqb_eq in Ho. apply Pos.eqb_eq in Hcl. subst q. discriminate.
Qed.

Lemma X16_no_issue_in_a_comment_witness :
  exists r ps' i,
    scanWorkspace 50 (Samples.hostOf Samples.evalThenComment) Samples.clock0
      Catalog.initializePatterns [Samples.appJs] = Some (r, ps')
    /\ In i (SecurityScanResult.issues r)
    /\ exists content,
         readFile (Samples.hostOf Samples.evalThenComment) (SecurityIssue.filePath i)
         = Returned content
         /\ isInComment (lineContentOf (split content LF) (SecurityIssue.line i))
                        (SecurityIssue.column i) = false.
Proof.
  destruct (scanWorkspace 50 (Samples.hostOf Samples.evalThenComment) Samples.clock0
              Catalog.initializePatterns [Samples.appJs])
    as [[r ps']|] eqn:E; [|vm_compute in E; discriminate].
  assert (Hne : exists i, In i (SecurityScanResult.issues r)).
  { vm_compute in E. inversion E. eexists. left. reflexivity. }
  destruct Hne as [i Hi].
  exists r, ps', i. split; [reflexivity|]. split; [exact Hi|].
  destruct (@X16_no_issue_in_a_comment 50 _ _ _ _ _ _ _ E Hi)
    as [content [Hread [Hc _]]].
  exists content. split; assumption.
Defined.

(* ================================================================== *)
(** ** Further properties: the tree view of a scan result *)

Module TreeFacts.
Import SecurityActionsProvider.

Lemma countSeverity_gtb (s : Severity.t) (issues : list SecurityIssue.t) :
  (countSeverity s issues >? 0)
  = existsb (fun i => Severity.eqb (SecurityIssue.severity i) s) issues.
Proof.
  unfold countSeverity. induction issues as [|i issues IH]; [reflexivity|].
  simpl. destruct (Severity.eqb (SecurityIssue.severity i) s); simpl.
  - apply Z.gtb_lt. lia.
  - exact IH.
Qed.

Lemma severityText_eqb (a b : Severity.t) :
  jsstring_eqb (severityText a) (severityText b) = Severity.eqb a b.
Proof. destruct a, b; reflexivity. Qed.

Lemma group_is_group (s : Severity.t) :
  JSString.endsWith (groupOf s) (str "-group") = true
  /\ JSString.replaceFirst (groupOf s) (str "-group") [] = severityText s.
Proof. destruct s; split; reflexivity. Qed.

Lemma issuesOpenedBy_issueItems (issues : list SecurityIssue.t) :
  issuesOpenedBy (map issueItem issues) = issues.
Proof.
  unfold issuesOpenedBy. induction issues as [|i issues IH]; [reflexivity|].
  simpl. rewrite IH. reflexivity.
Qed.

Lemma issueItem_is_leaf (r : SecurityScanResult.t) (i : SecurityIssue.t) :
  SecurityScanResult.totalIssues r <> 0 ->
  getChildren (Some r) (Some (issueItem i)) = [].
Proof.
  intros H. unfold getChildren.
  destruct (Z.eqb_spec (SecurityScanResult.totalIssues r) 0); [contradiction|].
  reflexivity.
Qed.

(** The children of the group of a severity are the items of the issues
    of that severity, in the order of the result. *)
Lemma group_children (r : SecurityScanResult.t) (element : SecurityTreeItem) (s : Severity.t) :
  SecurityScanResult.totalIssues r <> 0 ->
  contextValue element = groupOf s ->
  getChildren (Some r) (Some element)
  = map issueItem
        (filter (fun i => Severity.eqb (SecurityIssue.severity i) s)
                (SecurityScanResult.issues r)).
Proof.
  intros H Hctx. unfold getChildren.
  destruct (Z.eqb_spec (SecurityScanResult.totalIssues r) 0); [contradiction|].
  rewrite Hctx. destruct (group_is_group s) as [He Hr]. rewrite He, Hr.
  f_equal. apply filter_ext. intros i. apply severityText_eqb.
Qed.

Lemma severity_groups_partition (issues : list SecurityIssue.t) :
  Permutation issues
    (flat_map (fun s => filter (fun i => Severity.eqb (SecurityIssue.severity i) s) issues)
              severities).
Proof.
  unfold severities. simpl. rewrite app_nil_r.
  induction issues as [|i issues IH]; [constructor|].
  simpl. destruct (SecurityIssue.severity i); simpl.
  - constructor. exact IH.
  - apply Permutation_cons_app. exact IH.
  - rewrite app_assoc. apply Permutation_cons_app. rewrite <- app_assoc. exact IH.
  - rewrite !app_assoc. apply Permutation_cons_app. rewrite <- !app_assoc. exact IH.
Qed.

Lemma scan_totalIssues_zero fuel host clock ps files r ps' :
  scanWorkspace fuel host clock ps files = Some (r, ps') ->
  (SecurityScanResult.totalIssues r = 0 <-> SecurityScanResult.issues r = [])
  /\ SecurityScanResult.criticalCount r
     = countSeverity Severity.critical (SecurityScanResult.issues r)
  /\ SecurityScanResult.highCount r
     = countSeverity Severity.high (SecurityScanResult.issues r)
  /\ SecurityScanResult.mediumCount r
     = countSeverity Severity.medium (SecurityScanResult.issues r)
  /\ SecurityScanResult.lowCount r
     = countSeverity Severity.low (SecurityScanResult.issues r).
Proof.
  intros H. apply WorkspaceFacts.scanWorkspace_inv in H.
  destruct H as [issues [n [_ Hr]]]. subst r. simpl.
  split; [|repeat split; reflexivity].
  destruct issues; simpl; split; intros; try reflexivity; try discriminate; lia.
Qed.

End TreeFacts.

(** X13: at the root, the tree of a workspace scan that found issues
    shows the summary item and then one group for each severity that at
    least one issue has, in the order critical, high, medium, low; a
    severity without issue has no group. *)
Theorem X13_tree_root_lists_the_severities_present fuel host clock ps files r ps' :
  scanWorkspace fuel host clock ps files = Some (r, ps') ->
  SecurityScanResult.issues r <> [] ->
  map SecurityActionsProvider.contextValue
      (SecurityActionsProvider.getChildren (Some r) None)
  = str "summary"
    :: map SecurityActionsProvider.groupOf
         (filter (fun s => existsb (fun i => Severity.eqb (SecurityIssue.severity i) s)
                                   (SecurityScanResult.issues r))
                 SecurityActionsProvider.severities).
Proof.
  intros H Hne.
  destruct (TreeFacts.scan_totalIssues_zero _ _ _ _ _ H) as [Hz [Hc [Hh [Hm Hl]]]].
  unfold SecurityActionsProvider.getChildren.
  destruct (Z.eqb_spec (SecurityScanResult.totalIssues r) 0) as [Hzero|_];
    [apply Hz in Hzero; contradiction|].
  rewrite Hc, Hh, Hm, Hl, !TreeFacts.countSeverity_gtb.
  unfold SecurityActionsProvider.severities. simpl filter.
  destruct (existsb (fun i => Severity.eqb (SecurityIssue.severity i) Severity.critical) _);
    destruct (existsb (fun i => Severity.eqb (SecurityIssue.severity i) Severity.high) _);
    destruct (existsb (fun i => Severity.eqb (SecurityIssue.severity i) Severity.medium) _);
    destruct (existsb (fun i => Severity.eqb (SecurityIssue.severity i) Severity.low) _);
    reflexivity.
Qed.

Lemma X13_tree_root_lists_the_severities_present_witness :
  exists r ps',
    scanWorkspace 50 (Samples.hostOf Samples.secretLine) Samples.clock0
      Catalog.initializePatterns [Samples.appJs] = Some (r, ps')
    /\ SecurityScanResult.issues r <> []
    /\ map SecurityActionsProvider.contextValue
           (SecurityActionsProvider.getChildren (Some r) None)
       = [str "summary"; str "critical-group"].
Proof.
  destruct (scanWorkspace 50 (Samples.hostOf Samples.secretLine) Samples.clock0
              Catalog.initializePatterns [Samples.appJs])
    as [[r ps']|] eqn:E; [|vm_compute in E; discriminate].
  assert (Hne : SecurityScanResult.issues r <> [])
    by (vm_compute in E; inversion E; discriminate).
  exists r, ps'. split; [reflexivity|]. split; [exact Hne|].
  rewrite (@X13_tree_root_lists_the_severities_present 50 _ _ _ _ _ _ E Hne).
  vm_compute in E. inversion E. reflexivity.
Defined.

(** X14: under the group of a severity the tree shows the issues of that
    severity, one item each, in the order of the result, and each item
    opens its own issue; the four groups together show every issue of a
    workspace scan exactly once. *)
Theorem X14_tree_groups_show_every_issue_once fuel host clock ps files r ps'
        (elementOf : Severity.t -> SecurityActionsProvider.SecurityTreeItem) :
  scanWorkspace fuel host clock ps files = Some (r, ps') ->
  (forall s, SecurityActionsProvider.contextValue (elementOf s)
             = SecurityActionsProvider.groupOf s) ->
  (forall s,
     SecurityActionsProvider.issuesOpenedBy
       (SecurityActionsProvider.getChildren (Some r) (Some (elementOf s)))
     = filter (fun i => Severity.eqb (SecurityIssue.severity i) s)
              (SecurityScanResult.issues r))
  /\ Permutation (SecurityScanResult.issues r)
       (flat_map (fun s => SecurityActionsProvider.issuesOpenedBy
                             (SecurityActionsProvider.getChildren (Some r)
                                (Some (elementOf s))))
                 SecurityActionsProvider.severities).
Proof.
  intros H Hctx.
  destruct (TreeFacts.scan_totalIssues_zero _ _ _ _ _ H) as [Hz _].
  assert (Hgroup : forall s,
             SecurityActionsProvider.issuesOpenedBy
               (SecurityActionsProvider.getChildren (Some r) (Some (elementOf s)))
             = filter (fun i => Severity.eqb (SecurityIssue.severity i) s)
                      (SecurityScanResult.issues r)).
  { intros s.
    destruct (Z.eq_dec (SecurityScanResult.totalIssues r) 0) as [Hzero|Hnz].
    - unfold SecurityActionsProvider.getChildren.
      rewrite Hzero. simpl. apply Hz in Hzero. rewrite Hzero. reflexivity.
    - rewrite (@TreeFacts.group_children r (elementOf s) s Hnz (Hctx s)).
      apply TreeFacts.issuesOpenedBy_issueItems. }
  split; [exact Hgroup|].
  rewrite (flat_map_ext _ _ Hgroup).
  apply TreeFacts.severity_groups_partition.
Qed.

Lemma X14_tree_groups_show_every_issue_once_witness :
  exists r ps',
    scanWorkspace 50 (Samples.hostOf Samples.secretLine) Samples.clock0
      Catalog.initializePatterns [Samples.appJs] = Some (r, ps')
    /\ (forall s,
          SecurityActionsProvider.contextValue
            (SecurityActionsProvider.newSecurityTreeItem [] []
               SecurityActionsProvider.TreeItemCollapsibleState.Collapsed
               (SecurityActionsProvider.groupOf s) None)
          = SecurityActionsProvider.groupOf s)
    /\ SecurityActionsProvider.issuesOpenedBy
         (SecurityActionsProvider.getChildren (Some r)
            (Some (SecurityActionsProvider.newSecurityTreeItem [] []
                     SecurityActionsProvider.TreeItemCollapsibleState.Collapsed
                     (SecurityActionsProvider.groupOf Severity.critical) None)))
       = filter (fun i => Severity.eqb (SecurityIssue.severity i) Severity.critical)
                (SecurityScanResult.issues r).
Proof.
  destruct (scanWorkspace 50 (Samples.hostOf Samples.secretLine) Samples.clock0
              Catalog.initializePatterns [Samples.appJs])
    as [[r ps']|] eqn:E; [|vm_compute in E; discriminate].
  assert (Hctx : forall s,
             SecurityActionsProvider.contextValue
               (SecurityActionsProvider.newSecurityTreeItem [] []
                  SecurityActionsProvider.TreeItemCollapsibleState.Collapsed
                  (SecurityActionsProvider.groupOf s) None)
             = SecurityActionsProvider.groupOf s) by (intros s; reflexivity).
  exists r, ps'. split; [reflexivity|]. split; [exact Hctx|].
  exact (proj1 (@X14_tree_groups_show_every_issue_once 50 _ _ _ _ _ _ _ E Hctx)
               Severity.critical).
Defined.

(** X15: the tree shows its one placeholder item, for whatever element,
    when the provider holds no result, and for the root exactly when the
    result of the workspace scan has no issue; and in a result with
    issues the items shown under an element are leaves. *)
Theorem X15_tree_placeholder_and_leaves fuel host clock ps files r ps' :
  scanWorkspace fuel host clock ps files = Some (r, ps') ->
  (forall element,
     SecurityActionsProvider.getChildren None element
     = [SecurityActionsProvider.placeholder])
  /\ (SecurityScanResult.issues r = [] ->
      forall element, SecurityActionsProvider.getChildren (Some r) element
                      = [SecurityActionsProvider.placeholder])
  /\ (SecurityActionsProvider.getChildren (Some r) None
      = [SecurityActionsProvider.placeholder]
      -> SecurityScanResult.issues r = [])
  /\ (SecurityScanResult.issues r <> [] ->
      forall element child,
        In child (SecurityActionsProvider.getChildren (Some r) (Some element)) ->
        SecurityActionsProvider.getChildren (Some r) (Some child) = []).
Proof.
  intros H.
  destruct (TreeFacts.scan_totalIssues_zero _ _ _ _ _ H) as [Hz _].
  split; [reflexivity|]. split; [|split].
  - intros Hnil element. apply Hz in Hnil.
    unfold SecurityActionsProvider.getChildren. rewrite Hnil. reflexivity.
  - intros Hroot.
    destruct (Z.eq_dec (SecurityScanResult.totalIssues r) 0) as [Hzero|Hnz];
      [apply Hz; exact Hzero|].
    exfalso. unfold SecurityActionsProvider.getChildren in Hroot.
    destruct (Z.eqb_spec (SecurityScanResult.totalIssues r) 0); [contradiction|].
    destruct (SecurityScanResult.criticalCount r >? 0);
      destruct (SecurityScanResult.highCount r >? 0);
      destruct (SecurityScanResult.mediumCount r >? 0);
      destruct (SecurityScanResult.lowCount r >? 0);
      simpl in Hroot; inversion Hroot.
  - intros Hne element child Hchild.
    assert (Hnz : SecurityScanResult.totalIssues r <> 0)
      by (intros Hzero; apply Hz in Hzero; contradiction).
    unfold SecurityActionsProvider.getChildren in Hchild.
    destruct (Z.eqb_spec (SecurityScanResult.totalIssues r) 0); [contradiction|].
    destruct (JSString.endsWith _ _); [|destruct Hchild].
    apply in_map_iff in Hchild. destruct Hchild as [i [Hi _]]. subst child.
    apply TreeFacts.issueItem_is_leaf. exact Hnz.
Qed.

Lemma X15_tree_placeholder_and_leaves_witness :
  exists r ps',
    scanWorkspace 50 (Samples.hostOf Samples.commentedEval) Samples.clock0
      Catalog.initializePatterns [Samples.appJs] = Some (r, ps')
    /\ SecurityActionsProvider.getChildren (Some r) None
       = [SecurityActionsProvider.placeholder].
Proof.
  destruct (scanWorkspace 50 (Samples.hostOf Samples.commentedEval) Samples.clock0
              Catalog.initializePatterns [Samples.appJs])
    as [[r ps']|] eqn:E; [|vm_compute in E; discriminate].
  exists r, ps'. split; [reflexivity|].
  apply (proj1 (proj2 (@X15_tree_placeholder_and_leaves 50 _ _ _ _ _ _ E))).
  vm_compute in E. inversion E. reflexivity.
Defined.
